(** * switchmap-ng: configuration seeding and merging, the installer's
      pre-check and start of the daemons, the topology poller and the
      search page, embedded in Rocq.

    Sources embedded:
    - [maintenance/install.py]: [_Config.__init__], [_snmp_group_found],
      [_PreCheck.validate], [_PreCheck._python], [_PreCheck._pip],
      [_pip3_install], [_Daemon.start], [_Daemon._start],
      [_Daemon._restart], [_Daemon._running];
    - [bin/topology.py]: [PollingAgent.query], [Poller.query],
      [Poller._create_yaml], [poll_devices], [poll_single_device];
    - [switchmap/www/routes/pages/search.py]: [index].

    Python values are a small inductive type, exceptions an error result,
    the file system and the log a state that is threaded explicitly.  The
    modules [Py], [Install], [Topology], [SearchPage], [Precheck] and
    [Daemons] hold the embedding, the modules [InstallFacts],
    [TopologyFacts], [SearchFacts], [PrecheckFacts] and [DaemonsFacts] what
    is proved about it. *)

From Stdlib Require Import ZArith List String Ascii Bool Lia.
From stdpp Require Import base option list gmap strings fin_maps pretty.

Import ListNotations.
Set Warnings "-register-all".
Local Open Scope string_scope.
Local Open Scope list_scope.
Local Open Scope Z_scope.

(** ** Python values and the primitives the sources use *)

Module Py.

(** What [yaml.load] produces and what the loops of [install.py] inspect with
    [isinstance]: scalars, lists and dictionaries.  A dictionary keeps its
    insertion order (its [items()] are walked in that order), so it is an
    association list; keys are strings.  Floats do not occur in the
    configuration and are left out. *)
Inductive value : Type :=
| VNone
| VBool (b : bool)
| VInt (n : Z)
| VStr (s : string)
| VList (l : list value)
| VDict (d : list (string * value)).

(** The exceptions that the modelled statements can raise. *)
Inductive exn : Type :=
| KeyError
| TypeError
| AttributeError
| ValueError
| OSError
| CollectionError.

(** A computation that returns or raises. *)
Inductive res (A : Type) : Type :=
| Ok (a : A)
| Raise (e : exn).
Arguments Ok {A} a.
Arguments Raise {A} e.

Definition res_bind {A B} (m : res A) (k : A -> res B) : res B :=
  match m with
  | Ok a => k a
  | Raise e => Raise e
  end.

Definition is_ok {A} (m : res A) : bool :=
  match m with Ok _ => true | Raise _ => false end.

Declare Scope res_scope.
Delimit Scope res_scope with res.
Notation "'let*' x := m 'in' k" := (res_bind m (fun x => k))
  (at level 10, x name, m at level 100, k at level 200) : res_scope.

(** [d[k]] on an association list: the first binding of [k]. *)
Fixpoint dict_get (k : string) (d : list (string * value)) : option value :=
  match d with
  | [] => None
  | (k', v) :: d' => if String.eqb k' k then Some v else dict_get k d'
  end.

(** [d[k] = v]: an existing key keeps its position, a new key goes last. *)
Fixpoint dict_set (k : string) (v : value) (d : list (string * value))
  : list (string * value) :=
  match d with
  | [] => [(k, v)]
  | (k', v') :: d' =>
      if String.eqb k' k then (k, v) :: d' else (k', v') :: dict_set k v d'
  end.

(** Python's [==] on these values.  [bool] is a subclass of [int]
    ([True == 1]); lists compare element by element; dictionaries compare
    key by key whatever the order. *)
Fixpoint py_eq (a b : value) {struct a} : bool :=
  match a, b with
  | VNone, VNone => true
  | VBool x, VBool y => Bool.eqb x y
  | VBool x, VInt y => Z.eqb (if x then 1 else 0) y
  | VInt x, VBool y => Z.eqb x (if y then 1 else 0)
  | VInt x, VInt y => Z.eqb x y
  | VStr x, VStr y => String.eqb x y
  | VList xs, VList ys =>
      (fix go (xs ys : list value) {struct xs} : bool :=
         match xs, ys with
         | [], [] => true
         | x :: xs', y :: ys' => py_eq x y && go xs' ys'
         | _, _ => false
         end) xs ys
  | VDict d1, VDict d2 =>
      Nat.eqb (length d1) (length d2) &&
      (fix all (d : list (string * value)) {struct d} : bool :=
         match d with
         | [] => true
         | (k, v) :: d' =>
             match dict_get k d2 with
             | Some v' => py_eq v v'
             | None => false
             end && all d'
         end) d1
  | _, _ => false
  end.

(** [bool(v)]: [None], [False], zero and empty containers are falsy. *)
Definition truthy (v : value) : bool :=
  match v with
  | VNone => false
  | VBool b => b
  | VInt n => negb (Z.eqb n 0)
  | VStr s => negb (String.eqb s "")
  | VList l => match l with [] => false | _ => true end
  | VDict d => match d with [] => false | _ => true end
  end.

(** [v[k]] with a string key: only a dictionary accepts it. *)
Definition getitem (v : value) (k : string) : res value :=
  match v with
  | VDict d =>
      match dict_get k d with
      | Some x => Ok x
      | None => Raise KeyError
      end
  | _ => Raise TypeError
  end.

(** [v[k] = x] with a string key. *)
Definition setitem (v : value) (k : string) (x : value) : res value :=
  match v with
  | VDict d => Ok (VDict (dict_set k x d))
  | _ => Raise TypeError
  end.

(** [t] occurs in [s] as a substring. *)
Fixpoint str_contains (t s : string) : bool :=
  String.prefix t s ||
  match s with
  | EmptyString => false
  | String _ s' => str_contains t s'
  end.

(** [x in v].  A list compares each item with [==]; a string wants a string
    and looks for a substring; a dictionary looks among its keys and wants a
    hashable operand; anything else is not iterable. *)
Definition py_in (x v : value) : res bool :=
  match v with
  | VList l => Ok (existsb (fun item => py_eq item x) l)
  | VStr s =>
      match x with
      | VStr t => Ok (str_contains t s)
      | _ => Raise TypeError
      end
  | VDict d =>
      match x with
      | VStr k => Ok (match dict_get k d with Some _ => true | None => false end)
      | VList _ | VDict _ => Raise TypeError
      | _ => Ok false
      end
  | _ => Raise TypeError
  end.

(** Iterating a value: the items of a list, the keys of a dictionary, the
    characters of a string. *)
Definition py_iter (v : value) : res (list value) :=
  match v with
  | VList l => Ok l
  | VDict d => Ok (map (fun kv => VStr (fst kv)) d)
  | VStr s => Ok (map (fun c => VStr (String c EmptyString)) (list_ascii_of_string s))
  | _ => Raise TypeError
  end.

(** [v.append(x)]: only lists have the method. *)
Definition py_append (v x : value) : res value :=
  match v with
  | VList l => Ok (VList (l ++ [x]))
  | _ => Raise AttributeError
  end.

(** [v.extend(w)]: only lists have the method; [w] is iterated. *)
Definition py_extend (v w : value) : res value :=
  match v with
  | VList l =>
      match py_iter w with
      | Ok items => Ok (VList (l ++ items))
      | Raise e => Raise e
      end
  | _ => Raise AttributeError
  end.

(** The scalars of a YAML document. *)
Definition is_scalar (v : value) : bool :=
  match v with
  | VNone | VBool _ | VInt _ | VStr _ => true
  | VList _ | VDict _ => false
  end.

End Py.

(** ** [maintenance/install.py]: the seeded configuration and its merging *)

Module Install.
Import Py.
Local Open Scope res_scope.

(** The two SNMP groups of the template text of [_Config.__init__], as
    [yaml.load] reads them: an empty scalar is [None], [False] a boolean,
    [2], [3] and [161] integers, the rest strings. *)
Definition seed_group_v2 : value :=
  VDict [("group_name", VStr "SAMPLE_SNMPv2");
         ("snmp_version", VInt 2);
         ("snmp_secname", VNone);
         ("snmp_community", VStr "SAMPLE");
         ("snmp_port", VInt 161);
         ("snmp_authprotocol", VNone);
         ("snmp_authpassword", VNone);
         ("snmp_privprotocol", VNone);
         ("snmp_privpassword", VNone);
         ("enabled", VBool false)].

Definition seed_group_v3 : value :=
  VDict [("group_name", VStr "SAMPLE_SNMPv3");
         ("snmp_version", VInt 3);
         ("snmp_secname", VStr "SAMPLE");
         ("snmp_community", VNone);
         ("snmp_port", VInt 161);
         ("snmp_authprotocol", VStr "SAMPLE");
         ("snmp_authpassword", VStr "SAMPLE");
         ("snmp_privprotocol", VStr "SAMPLE");
         ("snmp_privpassword", VStr "SAMPLE");
         ("enabled", VBool false)].

Definition seed_groups : list value := [seed_group_v2; seed_group_v3].

(** The two [hostnames] items of the template are [{}] fields filled with
    Python's [None] by [str.format], so the text reads [- None]; YAML has no
    such null literal ([~], [null] and the empty scalar are), and the items
    load as the string [None]. *)
Definition seed_hostnames : list value := [VStr "None"; VStr "None"].

(** [self.config_dict] after [yaml.load(config)].  [username] is the value
    the formatted [username] field loads as. *)
Definition seed (username : value) : value :=
  VDict [("main",
          VDict [("username", username);
                 ("agent_subprocesses", VInt 20);
                 ("bind_port", VInt 7000);
                 ("cache_directory", VNone);
                 ("hostnames", VList seed_hostnames);
                 ("listen_address", VStr "localhost");
                 ("log_directory", VNone);
                 ("log_level", VStr "debug");
                 ("polling_interval", VInt 3600)]);
         ("snmp_groups", VList seed_groups)].

(** [_snmp_group_found(item, listing)]: the loop visits every item of the
    listing (there is no [break]) and subscripts both sides each time. *)
Fixpoint _snmp_group_found_from (found : bool) (item : value)
  (listing : list value) : res bool :=
  match listing with
  | [] => Ok found
  | next_item :: rest =>
      let* theirs := getitem next_item "group_name" in
      let* ours := getitem item "group_name" in
      _snmp_group_found_from (if py_eq theirs ours then true else found)
        item rest
  end.

Definition _snmp_group_found (item listing : value) : res bool :=
  let* items := py_iter listing in
  _snmp_group_found_from false item items.

(** Lines 347-350: [existing] is the list object that [append] grows, so the
    membership test of a later hostname sees the earlier appends. *)
Fixpoint add_hostnames (existing : value) (found_hostnames : list value)
  : res value :=
  match found_hostnames with
  | [] => Ok existing
  | hostname :: rest =>
      let* present := py_in hostname existing in
      if present then add_hostnames existing rest
      else
        let* existing' := py_append existing hostname in
        add_hostnames existing' rest
  end.

(** [config[file_key][sub_key] = x], the inner object updated in place. *)
Definition store (config : value) (file_key sub_key : string) (x : value)
  : res value :=
  let* section := getitem config file_key in
  let* section' := setitem section sub_key x in
  setitem config file_key section'.

(** Lines 338-354: one sub-key of a dictionary section of the files. *)
Definition merge_sub_key (file_key : string) (config : value)
  (kv : string * value) : res value :=
  let '(sub_key, v) := kv in
  match v with
  | VList found_hostnames =>
      if String.eqb sub_key "hostnames" then
        let* section := getitem config file_key in
        let* existing_hostnames := getitem section sub_key in
        let* merged := add_hostnames existing_hostnames found_hostnames in
        store config file_key sub_key merged
      else
        let* section := getitem config file_key in
        let* target := getitem section sub_key in
        let* extended := py_extend target v in
        store config file_key sub_key extended
  | _ => store config file_key sub_key v
  end.

(** A left fold that stops at the first exception. *)
Fixpoint foldM {A B} (f : A -> B -> res A) (a : A) (l : list B) : res A :=
  match l with
  | [] => Ok a
  | b :: l' => let* a' := f a b in foldM f a' l'
  end.

(** Lines 359-362: one item of a [snmp_groups] list of the files. *)
Definition merge_snmp_group (file_key : string) (config item : value)
  : res value :=
  let* listing := getitem config file_key in
  let* found := _snmp_group_found item listing in
  if found then Ok config
  else
    let* listing' := py_append listing item in
    setitem config file_key listing'.

(** Lines 332-364: one top-level key of [directory_dict]. *)
Definition merge_file_key (config : value) (kv : string * value) : res value :=
  let '(file_key, file_value) := kv in
  match file_value with
  | VDict sub => foldM (merge_sub_key file_key) config sub
  | VList items =>
      if String.eqb file_key "snmp_groups" then
        foldM (merge_snmp_group file_key) config items
      else
        let* target := getitem config file_key in
        let* extended := py_extend target file_value in
        setitem config file_key extended
  | _ => Ok config
  end.

(** The loop over [directory_dict.items()]. *)
Definition merge_directory_dict (config : value)
  (directory_dict : list (string * value)) : res value :=
  foldM merge_file_key config directory_dict.

(** [_Config.__init__]: [general.read_yaml_files] is not part of the sources
    at hand; the dictionary it returns (empty when no directory holds a YAML
    file) is the argument [directory_dict]. *)
Definition _Config_init (username : value)
  (directory_dict : list (string * value)) : res value :=
  merge_directory_dict (seed username) directory_dict.

(** Modelled from the spec: how several fragments reach the merge loop is
    decided by [general.read_yaml_files], which is missing; the spec has the
    fragments processed one after the other in a fixed order, each merged
    into the configuration resolved so far.  [resolve] runs the loop of
    [_Config.__init__] once per fragment, in list order, from the seed. *)
Definition resolve (username : value)
  (fragments : list (list (string * value))) : res value :=
  foldM merge_directory_dict (seed username) fragments.

(** The resolved [main]/[hostnames] and [snmp_groups] values. *)
Definition resolved_hostnames (config : value) : res value :=
  let* section := getitem config "main" in
  getitem section "hostnames".

Definition resolved_snmp_groups (config : value) : res value :=
  getitem config "snmp_groups".

(** *** What the facts below are stated with *)

(** The [group_name] of a group, [None] when it has none. *)
Definition group_name (g : value) : value :=
  match g with
  | VDict d =>
      match dict_get "group_name" d with
      | Some n => n
      | None => VNone
      end
  | _ => VNone
  end.

(** A group as the configuration format has it: a mapping with a scalar
    [group_name]. *)
Definition named_group (g : value) : bool :=
  match g with
  | VDict d =>
      match dict_get "group_name" d with
      | Some n => is_scalar n
      | None => false
      end
  | _ => false
  end.

(** Fragments as the configuration format describes them: a [main] mapping
    whose [hostnames], when given, is a list of scalars and whose other
    settings are not lists; a [snmp_groups] list of named groups; top-level
    scalars are skipped by the loop. *)
Definition wf_sub_key (kv : string * value) : bool :=
  match snd kv with
  | VList l => String.eqb (fst kv) "hostnames" && forallb is_scalar l
  | _ => negb (String.eqb (fst kv) "hostnames")
  end.

Definition wf_file_key (kv : string * value) : bool :=
  match snd kv with
  | VDict sub => String.eqb (fst kv) "main" && forallb wf_sub_key sub
  | VList items => String.eqb (fst kv) "snmp_groups" && forallb named_group items
  | _ => true
  end.

Definition wf_fragment (fragment : list (string * value)) : bool :=
  forallb wf_file_key fragment.

(** The hostnames and the groups a fragment brings, in the order in which
    the loop meets them. *)
Definition sub_key_hostnames (kv : string * value) : list value :=
  match snd kv with
  | VList l => if String.eqb (fst kv) "hostnames" then l else []
  | _ => []
  end.

Definition file_key_hostnames (kv : string * value) : list value :=
  match snd kv with
  | VDict sub =>
      if String.eqb (fst kv) "main" then flat_map sub_key_hostnames sub else []
  | _ => []
  end.

Definition file_key_groups (kv : string * value) : list value :=
  match snd kv with
  | VList items => if String.eqb (fst kv) "snmp_groups" then items else []
  | _ => []
  end.

Definition fragment_hostnames (fragment : list (string * value)) : list value :=
  flat_map file_key_hostnames fragment.

Definition fragment_groups (fragment : list (string * value)) : list value :=
  flat_map file_key_groups fragment.

(** [shares key seen x]: some item seen so far has the key of [x]. *)
Definition shares (key : value -> value) (seen : list value) (x : value) : bool :=
  existsb (fun e => py_eq (key e) (key x)) seen.

(** First-occurrence-wins, in the words of the spec: an item is kept when no
    item met before it (kept or not) shares its key; every item met counts
    as seen from then on. *)
Fixpoint first_seen (key : value -> value) (seen found : list value)
  : list value :=
  match found with
  | [] => []
  | x :: rest =>
      (if shares key seen x then [] else [x])
        ++ first_seen key (seen ++ [x]) rest
  end.

(** What the two de-duplicating loops compute on lists: an item joins the
    list unless an item already in the list shares its key. *)
Fixpoint keep_new (key : value -> value) (acc found : list value)
  : list value :=
  match found with
  | [] => acc
  | x :: rest =>
      if shares key acc x then keep_new key acc rest
      else keep_new key (acc ++ [x]) rest
  end.

(** A configuration with the two sections of the seed: [main] holds the
    [hostnames] list [H], [snmp_groups] is the list [G]. *)
Definition shape (config : value) (H G : list value) : Prop :=
  exists top m,
    config = VDict top /\
    dict_get "main" top = Some (VDict m) /\
    dict_get "hostnames" m = Some (VList H) /\
    dict_get "snmp_groups" top = Some (VList G).

(** How many items of [l] equal [h] under [==]. *)
Definition occurrences (h : value) (l : list value) : nat :=
  length (filter (fun e => py_eq e h = true) l).

(** Items whose keys are scalars. *)
Definition keyed (key : value -> value) (l : list value) : Prop :=
  Forall (fun x => is_scalar (key x) = true) l.

(** Groups that are all named. *)
Definition all_named (l : list value) : Prop :=
  Forall (fun g => named_group g = true) l.

(** No two items of the list share a key. *)
Definition distinct_keys (key : value -> value) (l : list value) : Prop :=
  forall i j x y, (i < j)%nat -> l !! i = Some x -> l !! j = Some y ->
                  py_eq (key x) (key y) = false.

(** Two fragments with the hostnames [a, b] and [b, c]. *)
Definition fragment_of_hostnames (l : list string) : list (string * value) :=
  [("main", VDict [("hostnames", VList (map VStr l))])].

Definition fragments_ab_bc : list (list (string * value)) :=
  [fragment_of_hostnames ["a"; "b"]; fragment_of_hostnames ["b"; "c"]].

(** A fragment whose only group is enabled and bears the name of the first
    seed group. *)
Definition live_group_v2 : value :=
  VDict [("group_name", VStr "SAMPLE_SNMPv2");
         ("snmp_version", VInt 2);
         ("snmp_community", VStr "private");
         ("snmp_port", VInt 161);
         ("enabled", VBool true)].

Definition fragment_live_v2 : list (string * value) :=
  [("snmp_groups", VList [live_group_v2])].

(** A fragment with two groups of one name and a third group. *)
Definition fragment_two_cores : list (string * value) :=
  [("snmp_groups",
    VList [VDict [("group_name", VStr "core"); ("snmp_version", VInt 2)];
           VDict [("group_name", VStr "core"); ("snmp_version", VInt 3)];
           VDict [("group_name", VStr "edge"); ("snmp_version", VInt 3)]])].

(** *** More of [_Config.__init__]: what every resolution keeps *)

Definition is_list (v : value) : bool :=
  match v with VList _ => true | _ => false end.

(** Among the settings of [main] only [hostnames] is a list. *)
Definition flat_main (m : list (string * value)) : Prop :=
  forall k v, dict_get k m = Some v -> is_list v = true -> k = "hostnames".

(** The settings of [main] in the seed. *)
Definition seed_settings : list string :=
  ["username"; "agent_subprocesses"; "bind_port"; "cache_directory";
   "hostnames"; "listen_address"; "log_directory"; "log_level";
   "polling_interval"].

(** A configuration made of the two sections of the seed, in its order,
    with every setting of the seed still there. *)
Definition seeded (config : value) : Prop :=
  exists m G,
    config = VDict [("main", VDict m); ("snmp_groups", VList G)] /\
    flat_main m /\
    Forall (fun k => dict_get k m <> None) seed_settings.

(** [config['main'][key]]. *)
Definition setting (config : value) (key : string) : res value :=
  let* section := getitem config "main" in
  getitem section key.

(** What the merge loop has no working branch for: a top-level list other
    than [snmp_groups], a list in [main] other than [hostnames], and a
    mapping with entries under any key but [main]. *)
Definition stray_sub_key (kv : string * value) : bool :=
  is_list (snd kv) && negb (String.eqb (fst kv) "hostnames").

Definition stray_file_key (kv : string * value) : bool :=
  match snd kv with
  | VList _ => negb (String.eqb (fst kv) "snmp_groups")
  | VDict sub =>
      if String.eqb (fst kv) "main" then existsb stray_sub_key sub
      else match sub with [] => false | _ => true end
  | _ => false
  end.

Definition stray_fragment (fragment : list (string * value)) : bool :=
  existsb stray_file_key fragment.

(** A fragment whose keys are those of a dictionary: no key twice, at the
    top level or inside a mapping section. *)
Definition dict_like (fragment : list (string * value)) : Prop :=
  NoDup (map fst fragment) /\
  forall fk sub, In (fk, VDict sub) fragment -> NoDup (map fst sub).

(** A fragment that sets two settings of [main], and one with a list that
    the merge loop has no place for. *)
Definition fragment_two_settings : list (string * value) :=
  [("main", VDict [("log_level", VStr "info"); ("site", VStr "lab")])].

Definition fragment_stray_list : list (string * value) :=
  [("main", VDict [("log_level", VStr "info");
                   ("mibs", VList [VStr "IF-MIB"])])].

(** The configuration with the settings [m] and the groups [G]. *)
Definition two_sections (m : list (string * value)) (G : list value) : value :=
  VDict [("main", VDict m); ("snmp_groups", VList G)].

(** The settings of the seed. *)
Definition seed_main (username : value) : list (string * value) :=
  [("username", username); ("agent_subprocesses", VInt 20);
   ("bind_port", VInt 7000); ("cache_directory", VNone);
   ("hostnames", VList seed_hostnames); ("listen_address", VStr "localhost");
   ("log_directory", VNone); ("log_level", VStr "debug");
   ("polling_interval", VInt 3600)].

(** What merging one well-formed entry of a [main] section makes of the
    settings [m], and one well-formed top-level entry of the settings and
    the groups. *)
Definition merged_setting (m : list (string * value)) (kv : string * value)
  : list (string * value) :=
  match snd kv with
  | VList l =>
      match dict_get "hostnames" m with
      | Some (VList H) => dict_set "hostnames" (VList (keep_new id H l)) m
      | _ => m
      end
  | v => dict_set (fst kv) v m
  end.

Definition merged_section (mG : list (string * value) * list value)
  (kv : string * value) : list (string * value) * list value :=
  match snd kv with
  | VDict sub => (fold_left merged_setting sub (fst mG), snd mG)
  | VList items => (fst mG, keep_new group_name (snd mG) items)
  | _ => mG
  end.

(** A directory dictionary with two settings of [main] and three groups,
    the configuration that the constructor makes of it for the user
    [switchmap], and a directory dictionary with both sections. *)
Definition settings_and_cores : list (string * value) :=
  fragment_two_settings ++ fragment_two_cores.

Definition settings_and_cores_config : value :=
  two_sections
    [("username", VStr "switchmap"); ("agent_subprocesses", VInt 20);
     ("bind_port", VInt 7000); ("cache_directory", VNone);
     ("hostnames", VList seed_hostnames); ("listen_address", VStr "localhost");
     ("log_directory", VNone); ("log_level", VStr "info");
     ("polling_interval", VInt 3600); ("site", VStr "lab")]
    [seed_group_v2; seed_group_v3;
     VDict [("group_name", VStr "core"); ("snmp_version", VInt 2)];
     VDict [("group_name", VStr "edge"); ("snmp_version", VInt 3)]].

Definition main_and_groups : list (string * value) :=
  [("main", VDict [("log_level", VStr "info");
                   ("hostnames", VList [VStr "a"; VStr "c"; VStr "a"])]);
   ("snmp_groups", VList [live_group_v2])].

(** *** The directory scan of [_Config.__init__] (lines 310-329) *)

(** [s.endswith(suffix)]. *)
Fixpoint endswith (s suffix : string) : bool :=
  String.eqb s suffix ||
  match s with
  | EmptyString => false
  | String _ s' => endswith s' suffix
  end.

(** [v.items()]: only dictionaries have the method. *)
Definition py_items (v : value) : res (list (string * value)) :=
  match v with
  | VDict d => Ok d
  | _ => Raise AttributeError
  end.

Section Scan.

(** The file system as the constructor sees it: [os.path.isdir], which
    never raises, and [os.listdir], which can.  [general.read_yaml_files]
    is not part of the sources at hand: it is a parameter, of which only
    the calls matter here. *)
Variable isdir : string -> bool.
Variable listdir : string -> res (list string).
Variable read_yaml_files : list string -> res value.

(** Lines 322-326: the files of one directory. *)
Fixpoint scan_files (config_directory : string) (filenames : list string)
  (valid_directories : list string) : list string :=
  match filenames with
  | [] => valid_directories
  | filename :: rest =>
      scan_files config_directory rest
        (if endswith filename ".yaml"
         then valid_directories ++ [config_directory]
         else valid_directories)
  end.

(** Lines 316-326: the directories in sequence. *)
Fixpoint scan_directories (directories : list string)
  (valid_directories : list string) : res (list string) :=
  match directories with
  | [] => Ok valid_directories
  | config_directory :: rest =>
      if isdir config_directory then
        let* filenames := listdir config_directory in
        scan_directories rest
          (scan_files config_directory filenames valid_directories)
      else scan_directories rest valid_directories
  end.

(** [_Config(username)] for the directories that
    [general.config_directories()] names: the scan, the reading of the
    files when the scan found one, and the merge loop. *)
Definition _Config_from_directories (username : value)
  (directories : list string) : res value :=
  let* valid_directories := scan_directories directories [] in
  let* directory_dict :=
    match valid_directories with
    | [] => Ok (VDict [])
    | _ => read_yaml_files valid_directories
    end in
  let* items := py_items directory_dict in
  _Config_init username items.

(** How many files of a directory end in [.yaml]. *)
Definition yaml_files (config_directory : string) : nat :=
  match listdir config_directory with
  | Ok filenames =>
      length (List.filter (fun filename => endswith filename ".yaml")
                filenames)
  | Raise _ => 0
  end.

End Scan.

(** Two directories, of which only [/etc/switchmap] exists; it holds two
    YAML files and a backup. *)
Definition demo_isdir (d : string) : bool := String.eqb d "/etc/switchmap".

Definition demo_listdir (d : string) : res (list string) :=
  if String.eqb d "/etc/switchmap"
  then Ok ["config.yaml"; "config.yaml~"; "snmp.yaml"]
  else Raise OSError.

Definition bare_listdir (d : string) : res (list string) :=
  if String.eqb d "/etc/switchmap"
  then Ok ["config.yaml~"; "README"]
  else Raise OSError.

End Install.

(** ** [bin/topology.py]: the poller and its cache files *)

Module Topology.
Import Py.

(** The part of the file system the poller touches: regular files with their
    contents, and directories. *)
Record fs : Type := {
  files : gmap string string;
  dirs : gset string
}.

(** What the poller leaves behind besides files: log lines and sleeps. *)
Inductive event : Type :=
| Log (code : Z) (message : string)
| Sleep (name : string) (seconds : Z).

(** [disk] is the file system now; [past] holds every earlier state of it,
    latest first, one per completed system call: the states a reader of the
    cache directory can have observed.  A process interrupted between two
    system calls leaves the disk in one of these states. *)
Record world : Type := {
  disk : fs;
  past : list fs;
  events : list event
}.

Definition observable (w : world) : list fs := disk w :: past w.

(** The system calls behind [tempfile.mkdtemp], [open(.., 'w')],
    [file.write] (which reaches the file in one or more pieces), [os.rename]
    and [os.rmdir]. *)
Inductive syscall : Type :=
| Mkdir (d : string)
| OpenW (p : string)
| WriteTo (p : string) (piece : string)
| Rename (src dst : string)
| Rmdir (d : string).

(** What a system call does when the operating system carries it out;
    [None] when it cannot.  [Rename] replaces the destination in one step. *)
Definition perform (c : syscall) (d : fs) : option fs :=
  match c with
  | Mkdir p =>
      if decide (p ∈ dirs d) then None
      else Some {| files := files d; dirs := {[p]} ∪ dirs d |}
  | OpenW p => Some {| files := <[p := ""]> (files d); dirs := dirs d |}
  | WriteTo p piece =>
      match files d !! p with
      | Some content =>
          Some {| files := <[p := content +:+ piece]> (files d); dirs := dirs d |}
      | None => None
      end
  | Rename src dst =>
      match files d !! src with
      | Some content =>
          Some {| files := <[dst := content]> (delete src (files d));
                  dirs := dirs d |}
      | None => None
      end
  | Rmdir p =>
      if decide (p ∈ dirs d) then
        Some {| files := files d; dirs := dirs d ∖ {[p]} |}
      else None
  end.

(** The collaborators of [topology.py] that are not part of the sources at
    hand, and the environment it runs in. *)
Record Env : Type := {
  (** [configuration.Config()]: the effective configuration and the
      accessors the poller calls on it *)
  config : value;
  agent_threads : value -> Z;
  hostnames : value -> list string;
  topology_device_file : value -> string -> string;
  (** [snmp_manager.Validate(..).credentials()] for a host *)
  credentials : string -> value;
  (** [snmp_info.Query(snmp_object).everything()] for a host: the data, or
      the exception it raises *)
  everything : string -> value -> res value;
  (** [general.dict2yaml] *)
  dict2yaml : value -> string;
  (** the directory [tempfile.mkdtemp] picks *)
  mkdtemp_name : fs -> string;
  (** the sizes of the pieces in which a written string reaches the file,
      the rest going last *)
  write_sizes : string -> list nat;
  (** the system calls the operating system refuses (full disk, missing
      permission, a rename across devices, ...) *)
  os_refuses : syscall -> fs -> bool;
  (** the chunk size [Pool.map] picks for a batch *)
  chunksize : nat
}.

(** Statements run on the world and return or raise. *)
Definition M (A : Type) : Type := world -> res A * world.

Definition ret {A} (a : A) : M A := fun w => (Ok a, w).

Definition raise {A} (e : exn) : M A := fun w => (Raise e, w).

Definition bind {A B} (m : M A) (k : A -> M B) : M B :=
  fun w =>
    match m w with
    | (Ok a, w') => k a w'
    | (Raise e, w') => (Raise e, w')
    end.

Definition lift {A} (r : res A) : M A := fun w => (r, w).

Declare Scope io_scope.
Delimit Scope io_scope with io.
Notation "'let*' x := m 'in' k" := (bind m (fun x => k))
  (at level 10, x name, m at level 100, k at level 200) : io_scope.
Notation "m ;; k" := (bind m (fun _ => k))
  (at level 100, k at level 200, right associativity) : io_scope.
Local Open Scope io_scope.

(** [split_at n s]: the first [n] characters of [s] and the rest. *)
Fixpoint split_at (n : nat) (s : string) : string * string :=
  match n, s with
  | S n', String c s' =>
      let '(a, b) := split_at n' s' in (String c a, b)
  | _, _ => (EmptyString, s)
  end.

Fixpoint pieces (sizes : list nat) (s : string) : list string :=
  match sizes with
  | [] => [s]
  | n :: rest => let '(a, b) := split_at n s in a :: pieces rest b
  end.

(** [Pool.map] cuts the batch into chunks of [size] items (at least one). *)
Fixpoint chunked {A} (fuel size : nat) (l : list A) : list (list A) :=
  match fuel, l with
  | S fuel', _ :: _ =>
      take (S (Nat.pred size)) l
        :: chunked fuel' size (drop (S (Nat.pred size)) l)
  | _, _ => []
  end.

(** [log.log2info] and [Agent.agent_sleep]. *)
Definition log2info (code : Z) (message : string) : M unit :=
  fun w => (Ok tt, {| disk := disk w; past := past w;
                      events := events w ++ [Log code message] |}).

Definition agent_sleep (name : string) (seconds : Z) : M unit :=
  fun w => (Ok tt, {| disk := disk w; past := past w;
                      events := events w ++ [Sleep name seconds] |}).

(** [class Poller]: the attributes [__init__] sets.  [snmp_object] is
    [snmp_manager.Interact(snmp_params)], a collaborator that is not part of
    the sources at hand: it wraps [snmp_params], is represented by them, and
    building it is taken to return whatever the parameters are. *)
Record Poller : Type := {
  server_config : value;
  hostname : string;
  snmp_params : value
}.

(** [class PollingAgent]. *)
Record PollingAgent : Type := {
  agent_name : string;
  agent_server_config : value
}.

Definition name (self : PollingAgent) : string := agent_name self.

Section WithEnv.
Variable E : Env.

(** One system call: refused, impossible, or carried out and recorded. *)
Definition sys (c : syscall) : M unit :=
  fun w =>
    if os_refuses E c (disk w) then (Raise OSError, w)
    else
      match perform c (disk w) with
      | Some d' =>
          (Ok tt, {| disk := d'; past := disk w :: past w; events := events w |})
      | None => (Raise OSError, w)
      end.

Fixpoint write_pieces (path : string) (ps : list string) : M unit :=
  match ps with
  | [] => ret tt
  | p :: rest => sys (WriteTo path p) ;; write_pieces path rest
  end.

(** [tempfile.mkdtemp()]: a directory is created and its path returned. *)
Definition mkdtemp : M string :=
  fun w =>
    let d := mkdtemp_name E (disk w) in
    (sys (Mkdir d) ;; ret d) w.

Definition Poller_init (hostname : string) : Poller :=
  {| server_config := config E;
     hostname := hostname;
     snmp_params := credentials E hostname |}.

(** [Poller._create_yaml]. *)
Definition _create_yaml (self : Poller) : M unit :=
  let* temp_dir := mkdtemp in
  let temp_file := temp_dir +:+ "/" +:+ hostname self +:+ ".yaml" in
  let perm_file := topology_device_file E (server_config self) (hostname self) in
  log2info 1125
    ("Querying topology data from host " +:+ hostname self +:+ ".") ;;
  let* data := lift (everything E (hostname self) (snmp_params self)) in
  let yaml_string := dict2yaml E data in
  sys (OpenW temp_file) ;;
  write_pieces temp_file (pieces (write_sizes E yaml_string) yaml_string) ;;
  log2info 1019
    ("Completed topology query from host " +:+ hostname self +:+ ".") ;;
  sys (Rename temp_file perm_file) ;;
  sys (Rmdir temp_dir).

(** [Poller.query]. *)
Definition Poller_query (self : Poller) : M unit :=
  if truthy (snmp_params self) then _create_yaml self
  else
    log2info 1021
      ("Uncontactable host " +:+ hostname self
         +:+ " or no valid SNMP credentials found for it.").

(** [poll_single_device]. *)
Definition poll_single_device (hostname : string) : M unit :=
  let poller := Poller_init hostname in
  Poller_query poller.

(** One chunk in a worker: the calls follow each other and the first
    exception ends the chunk. *)
Fixpoint run_chunk (func : string -> M unit) (chunk : list string) : M unit :=
  match chunk with
  | [] => ret tt
  | x :: rest => func x ;; run_chunk func rest
  end.

(** Every chunk is run; one exception is kept for the caller.  When more
    than one chunk raises, [Pool.map] keeps the exception that reaches it
    first, which depends on the order in which the workers finish; here it
    is the first in the order of the batch, and the facts below speak only
    of the exception of some chunk that raised. *)
Fixpoint run_chunks (func : string -> M unit) (chunks : list (list string))
  (failure : option exn) (w : world) : option exn * world :=
  match chunks with
  | [] => (failure, w)
  | chunk :: rest =>
      match run_chunk func chunk w with
      | (Ok _, w') => run_chunks func rest failure w'
      | (Raise e, w') =>
          run_chunks func rest
            (match failure with Some _ => failure | None => Some e end) w'
      end
  end.

(** [Pool(processes=..).map(func, iterable)].  A pool wants at least one
    process.  The workers are separate processes that share only the file
    system; each call of [poll_single_device] works in a directory of its
    own, and the calls are taken here one after the other, in the order of
    the batch.  [map] returns when every chunk is done and raises the
    exception of a failed call. *)
Definition pool_map (processes : Z) (func : string -> M unit)
  (iterable : list string) : M unit :=
  if processes <? 1 then raise ValueError
  else
    fun w =>
      match run_chunks func
              (chunked (length iterable) (chunksize E) iterable) None w with
      | (None, w') => (Ok tt, w')
      | (Some e, w') => (Raise e, w')
      end.

(** [poll_devices]. *)
Definition poll_devices : M unit :=
  let threads_in_pool := agent_threads E (config E) in
  let hostnames := hostnames E (config E) in
  pool_map threads_in_pool poll_single_device hostnames.

Definition PollingAgent_init : PollingAgent :=
  {| agent_name := "topology"; agent_server_config := config E |}.

(** [PollingAgent.query]: the [while True] loop, unrolled [cycles] times. *)
Fixpoint PollingAgent_query (cycles : nat) (self : PollingAgent) : M unit :=
  let delay := 3600 in
  match cycles with
  | O => ret tt
  | S cycles' =>
      poll_devices ;;
      agent_sleep (name self) delay ;;
      PollingAgent_query cycles' self
  end.

End WithEnv.

(** *** What the facts below are stated with *)

(** The pieces of a file put together. *)
Definition join (ps : list string) : string := fold_right String.append "" ps.

(** [w'] comes after [w]: the disk went through the states [news], latest
    first, each of which satisfies [P]. *)
Definition extends (P : fs -> Prop) (w w' : world) : Prop :=
  exists news, observable w' = news ++ observable w /\ Forall P news.

(** The two progress lines of [_create_yaml]. *)
Definition progress_line (ev : event) : Prop :=
  exists message, ev = Log 1125 message \/ ev = Log 1019 message.

(** The world after the line that [Poller.query] logs for a host without
    credentials. *)
Definition skipped (h : string) (w : world) : world :=
  {| disk := disk w; past := past w;
     events := events w ++
       [Log 1021 ("Uncontactable host " +:+ h
                    +:+ " or no valid SNMP credentials found for it.")] |}.

(** *** A small installation *)

(** One fragment that sets the polling interval to 60 seconds and names two
    switches; the effective configuration is what resolution makes of it. *)
Definition demo_fragment : list (string * value) :=
  [("main", VDict [("polling_interval", VInt 60);
                   ("hostnames", VList [VStr "sw1"; VStr "sw2"])])].

Definition demo_config : value :=
  match Install.resolve (VStr "switchmap") [demo_fragment] with
  | Ok config => config
  | Raise _ => VNone
  end.

(** [config['main'][key]]. *)
Definition main_setting (config : value) (key : string) : res value :=
  res_bind (getitem config "main") (fun section => getitem section key).

(** The strings of a list value. *)
Definition string_items (v : res value) : list string :=
  match v with
  | Ok (VList l) =>
      flat_map (fun x => match x with VStr s => [s] | _ => [] end) l
  | _ => []
  end.

(** The switches have credentials, the placeholders of the seed have none.
    [failing_host] is a host whose collection raises, [refuse_rename] makes
    the operating system refuse every rename. *)
Definition demo_env (failing_host : option string) (refuse_rename : bool)
  : Env :=
  {| config := demo_config;
     agent_threads := fun config =>
       match main_setting config "agent_subprocesses" with
       | Ok (VInt n) => n
       | _ => 20
       end;
     hostnames := fun config => string_items (main_setting config "hostnames");
     topology_device_file := fun _ h => "/cache/" +:+ h +:+ ".yaml";
     credentials := fun h =>
       if String.eqb h "sw1" || String.eqb h "sw2"
       then VDict [("group_name", VStr "core")] else VNone;
     everything := fun h _ =>
       if bool_decide (failing_host = Some h) then Raise CollectionError
       else Ok (VDict [("hostname", VStr h)]);
     dict2yaml := fun v =>
       match v with
       | VDict [(k, VStr x)] => k +:+ ": " +:+ x
       | _ => "{}"
       end;
     mkdtemp_name := fun d =>
       if bool_decide ("/tmp/tmp0" ∈ dirs d) then
         if bool_decide ("/tmp/tmp1" ∈ dirs d) then "/tmp/tmp2" else "/tmp/tmp1"
       else "/tmp/tmp0";
     write_sizes := fun _ => [4%nat];
     os_refuses := fun c _ =>
       match c with Rename _ _ => refuse_rename | _ => false end;
     chunksize := 1 |}.

(** A cache directory without files, nothing logged yet. *)
Definition empty_cache : world :=
  {| disk := {| files := ∅; dirs := {["/cache"]} |}; past := []; events := [] |}.

(** The sleeps among the events, in order. *)
Definition sleeps (evs : list event) : list (string * Z) :=
  flat_map (fun ev => match ev with Sleep n s => [(n, s)] | _ => [] end) evs.

(** *** The system calls of a snapshot *)

(** Carrying out the calls one after the other on the states seen so far,
    the latest first: each call adds the state that it leaves; [None] when
    one of them cannot be carried out. *)
Fixpoint carry (calls : list syscall) (seen : list fs) : option (list fs) :=
  match calls, seen with
  | [], _ => Some seen
  | c :: rest, d :: _ =>
      match perform c d with
      | Some d' => carry rest (d' :: seen)
      | None => None
      end
  | _ :: _, [] => None
  end.

(** The system calls that [_create_yaml] makes from the disk [d] when none
    of them fails: the directory, then, when the collection returns, the
    file, its pieces, the rename and the removal of the directory. *)
Definition create_yaml_calls (E : Env) (self : Poller) (d : fs)
  : list syscall :=
  let temp_dir := mkdtemp_name E d in
  let temp_file := temp_dir +:+ "/" +:+ hostname self +:+ ".yaml" in
  let perm_file := topology_device_file E (server_config self) (hostname self) in
  Mkdir temp_dir ::
  match everything E (hostname self) (snmp_params self) with
  | Ok data =>
      let yaml_string := dict2yaml E data in
      OpenW temp_file ::
      map (WriteTo temp_file) (pieces (write_sizes E yaml_string) yaml_string)
      ++ [Rename temp_file perm_file; Rmdir temp_dir]
  | Raise _ => []
  end.

(** The cache file of a host holds the snapshot of the host. *)
Definition cached (E : Env) (h : string) (d : fs) : Prop :=
  exists data,
    everything E h (credentials E h) = Ok data /\
    files d !! topology_device_file E (config E) h = Some (dict2yaml E data).

(** The temporary file that a task for [h] uses when it starts from [d]. *)
Definition temp_file_of (E : Env) (h : string) (d : fs) : string :=
  mkdtemp_name E d +:+ "/" +:+ h +:+ ".yaml".

(** *** The chunks of a batch *)




End Topology.

(** ** [switchmap/www/routes/pages/search.py]: the search page *)

Module SearchPage.

(** [str.strip()] removes the white space at both ends.  A string is read as
    a sequence of code points below 256, of which Python counts these as
    white space: 9 to 13, 28 to 32, 133 and 160. *)
Definition is_space (c : ascii) : bool :=
  let n := nat_of_ascii c in
  ((9 <=? n) && (n <=? 13) || (28 <=? n) && (n <=? 32)
   || (n =? 133) || (n =? 160))%nat.

Fixpoint lstrip_list (l : list ascii) : list ascii :=
  match l with
  | c :: l' => if is_space c then lstrip_list l' else l
  | [] => []
  end.

Definition strip (s : string) : string :=
  string_of_list_ascii
    (rev (lstrip_list (rev (lstrip_list (list_ascii_of_string s))))).

(** One match as [Search.find] reports it: a dictionary from a hostname to an
    interface index, walked with [items()]. *)
Definition item : Type := list (string * Z).

(** Lines 48-52: [devices[hostname]] is created with the first index and
    appended to afterwards. *)
Definition add_ifindex (devices : gmap string (list Z)) (kv : string * Z)
  : gmap string (list Z) :=
  let '(hostname, ifindex) := kv in
  match devices !! hostname with
  | Some ifindexes => <[hostname := ifindexes ++ [ifindex]]> devices
  | None => <[hostname := [ifindex]]> devices
  end.

(** Lines 46-52: the two nested loops over [result]. *)
Definition add_result (devices : gmap string (list Z)) (result : list item)
  : gmap string (list Z) :=
  fold_left (fun devices item => fold_left add_ifindex item devices)
    result devices.

(** The indices that [result] reports for [hostname], in the order in which
    the loops meet them, repeats included. *)
Definition reported (hostname : string) (result : list item) : list Z :=
  flat_map
    (flat_map (fun kv : string * Z =>
       if String.eqb (fst kv) hostname then [snd kv] else []))
    result.

(** Insertion of a cache entry by hostname, for the lexicographic order. *)
Fixpoint insert_by_hostname {S} (x : string * S) (l : list (string * S))
  : list (string * S) :=
  match l with
  | [] => [x]
  | y :: l' =>
      if String.leb (fst x) (fst y) then x :: l
      else y :: insert_by_hostname x l'
  end.

Definition by_hostname {S} (l : list (string * S)) : list (string * S) :=
  fold_right insert_by_hostname [] l.

(** What the page leaves: the template argument [results_dict], the
    [devices] mapping it was built from, and the number of times the cache
    was read. *)
Record page : Type := {
  results_dict : gmap string string;
  devices : gmap string (list Z);
  scans : nat
}.

Section WithCache.
(** The snapshots of the cache and their [matches(term)] query. *)
Variable snapshot : Type.
Variable matches : snapshot -> string -> list Z.
(** [CacheStore.ReadAll()]: the pairs of hostname and snapshot present. *)
Variable ReadAll : list (string * snapshot).
(** [Device(CONFIG, hostname, ifindexes=ifindexes).ports()]. *)
Variable ports : string -> list Z -> string.

(** Modelled from the spec: [switchmap.main.search.Search] is missing from
    the sources at hand.  The term is trimmed; when nothing is left the
    result is empty and the cache is not read; otherwise the snapshots are
    walked in lexicographic order of hostname and each index that
    [matches(term)] yields is reported for its host, in order.  The second
    component counts the reads of the cache. *)
Definition Search_find (term : string) (scans : nat) : list item * nat :=
  let term := strip term in
  if String.eqb term "" then ([], scans)
  else
    (flat_map
       (fun entry =>
          map (fun ifindex => [(fst entry, ifindex)])
            (matches (snd entry) term))
       (by_hostname ReadAll),
     S scans).

(** Lines 57-62: one port table per device. *)
Definition port_tables (devices : gmap string (list Z)) : gmap string string :=
  map_imap (fun hostname ifindexes => Some (ports hostname ifindexes)) devices.

(** The body of the loop over the form, lines 38-62. *)
Definition index_step (st : page) (kv : string * string) : page :=
  let '(key, value) := kv in
  if String.eqb key "search_term" then
    let search_term := strip value in
    let '(result, scans') := Search_find search_term (scans st) in
    let devices' := add_result (devices st) result in
    {| results_dict :=
         if decide (devices' = ∅) then results_dict st
         else port_tables devices';
       devices := devices';
       scans := scans' |}
  else st.

(** [index]: [form] is [request.form.items()]; [scans] counts the reads of
    the cache so far. *)
Definition index (form : list (string * string)) (scans : nat) : page :=
  fold_left index_step form
    {| results_dict :=
         {["Not Found" := "<h3>&nbsp;Please try again ...</h3>"]};
       devices := ∅;
       scans := scans |}.

End WithCache.

(** *** What the facts below are stated with *)

(** [strip_list] is [strip] on the list of characters. *)
Definition strip_list (l : list ascii) : list ascii :=
  rev (lstrip_list (rev (lstrip_list l))).

(** A list of indices grown by more indices; no list when there is none. *)
Definition grow (o : option (list Z)) (l : list Z) : option (list Z) :=
  match o, l with
  | Some x, _ => Some (x ++ l)
  | None, [] => None
  | None, _ => Some l
  end.

End SearchPage.

(** ** The pre-check of the installer ([maintenance/install.py]) *)

Module Precheck.
Import Py Install SearchPage.

(** What the installer does to the world outside. *)
Inductive action : Type :=
| Script (cli : string)                (* [general.run_script(cli, die=False)] *)
| Popen (cli : string)                 (* [os.popen(cli).read()] *)
| PrintOk (message : string)           (* [setup.print_ok] *)
| Die (code : Z) (message : string)    (* [log.log2die_safe] *)
| See (code : Z) (message : string)    (* [log.log2see_safe] *)
| Input (prompt : string).             (* [input] *)

(** How a step ends: it returns, the process exits, or an exception
    escapes (nothing here catches one): [IndexError] from a subscript,
    [EOFError] from [input] at the end of the input. *)
Inductive ending (A : Type) : Type :=
| Returns (a : A)
| Exits
| IndexError
| EOFError.
Arguments Returns {A} a.
Arguments Exits {A}.
Arguments IndexError {A}.
Arguments EOFError {A}.

(** The machine the installer runs on: the version of the interpreter, and
    what a shell command answers after the actions done so far (the latest
    first).  [general.run_script] and [log.log2die_safe] are not part of
    the sources at hand: the first is taken to run the command and to hand
    back its return code, the second to log the message and to end the
    process, as their uses say. *)
Record host : Type := {
  version_info : Z * Z;
  returncode : list action -> string -> Z;
  read : list action -> string -> string
}.

(** Steps of the installer: from the actions done so far to an ending and
    the actions done then. *)
Definition prog (A : Type) : Type := list action -> ending A * list action.

Definition ret {A} (a : A) : prog A := fun history => (Returns a, history).

Definition bind {A B} (m : prog A) (k : A -> prog B) : prog B :=
  fun history =>
    match m history with
    | (Returns a, history') => k a history'
    | (Exits, history') => (Exits, history')
    | (IndexError, history') => (IndexError, history')
    | (EOFError, history') => (EOFError, history')
    end.

Declare Scope inst_scope.
Delimit Scope inst_scope with inst.
Notation "'let*' x := m 'in' k" := (bind m (fun x => k))
  (at level 10, x name, m at level 100, k at level 200) : inst_scope.
Notation "m ;; k" := (bind m (fun _ => k))
  (at level 100, k at level 200, right associativity) : inst_scope.
Local Open Scope inst_scope.

Definition print_ok (message : string) : prog unit :=
  fun history => (Returns tt, PrintOk message :: history).

Definition log2die_safe {A} (code : Z) (message : string) : prog A :=
  fun history => (Exits, Die code message :: history).

(** [l[i]]. *)
Definition list_item {A} (l : list A) (i : nat) : prog A :=
  fun history =>
    match nth_error l i with
    | Some x => (Returns x, history)
    | None => (IndexError, history)
    end.

(** [s.split()]: the words between runs of white space. *)
Fixpoint split_from (word : list ascii) (l : list ascii) : list string :=
  match l with
  | [] =>
      match word with
      | [] => []
      | _ => [string_of_list_ascii (rev word)]
      end
  | c :: l' =>
      if is_space c then
        match word with
        | [] => split_from [] l'
        | _ => string_of_list_ascii (rev word) :: split_from [] l'
        end
      else split_from (c :: word) l'
  end.

Definition split (s : string) : list string :=
  split_from [] (list_ascii_of_string s).

(** A double quote, and the message for a module that is there. *)
Definition dquote : string := String (ascii_of_nat 34) EmptyString.

Definition installed_message (module : string) : string :=
  "Python module " +:+ dquote +:+ module +:+ dquote +:+ " is installed.".

Definition for_each {A} (f : A -> prog unit) : list A -> prog unit :=
  fix go l :=
    match l with
    | [] => ret tt
    | a :: l' => f a;; go l'
    end.

Section WithHost.
Variable H : host.

Definition run_script (cli : string) : prog Z :=
  fun history => (Returns (returncode H history cli), Script cli :: history).

Definition popen_read (cli : string) : prog string :=
  fun history => (Returns (read H history cli), Popen cli :: history).

(** [_pip3_install(module)].  The version is compared as text, and
    [bool(...)] of a return code is its being other than zero, of a string
    its being other than empty. *)
Definition _pip3_install (module : string) : prog unit :=
  let* returncode := run_script "which pip3" in
  (if negb (returncode =? 0)
   then log2die_safe 1041 "python pip3 not installed."
   else print_ok "Python pip3 executable found.");;
  let* response := popen_read "pip3 --version" in
  let* version := list_item (split response) 1 in
  let cli_string :=
    if String.ltb version "9.0.0"
    then "pip3 list | grep " +:+ module
    else "pip3 list --format columns | grep " +:+ module in
  let* response := popen_read cli_string in
  if String.eqb response EmptyString then
    let* returncode := run_script ("pip3 install --user " +:+ module) in
    if negb (returncode =? 0)
    then log2die_safe 1100
           ("python pip3 cannot install " +:+ dquote +:+ module +:+ dquote
            +:+ ".")
    else print_ok (installed_message module)
  else print_ok (installed_message module).

(** [_PreCheck._pip]. *)
Definition _pip : prog unit :=
  for_each _pip3_install ["setuptools"; "PyYAML"].

(** [_PreCheck._python]. *)
Definition _python : prog unit :=
  let major := 3 in
  let minor := 5 in
  let major_installed := fst (version_info H) in
  let minor_installed := snd (version_info H) in
  let valid :=
    if major_installed <? major then false
    else if (major_installed =? major) && (minor_installed <? minor) then false
    else true in
  if valid then
    print_ok ("Python version " +:+ pretty major_installed +:+ "."
              +:+ pretty minor_installed +:+ ".")
  else
    log2die_safe 1095
      ("Required python version must be >= " +:+ pretty major +:+ "."
       +:+ pretty minor +:+ ". Python version " +:+ pretty major_installed
       +:+ "." +:+ pretty minor_installed +:+ " installed").

(** [_PreCheck.validate]. *)
Definition validate : prog unit := _python;; _pip.

End WithHost.

Definition is_die (a : action) : bool :=
  match a with Die _ _ => true | _ => false end.

(** An interpreter older than 3.5. *)
Definition too_old (H : host) : Prop :=
  fst (version_info H) < 3 \/
  (fst (version_info H) = 3 /\ snd (version_info H) < 5).

(** A machine with Python 3.[minor] and a pip3 that reports [version],
    lists the modules named in [listed] and installs what it is asked
    to. *)
Definition demo_host (minor : Z) (version : string) (listed : list string)
  : host :=
  {| version_info := (3, minor);
     returncode := fun _ _ => 0;
     read := fun _ cli =>
       if String.eqb cli "pip3 --version"
       then "pip " +:+ version +:+ " from /usr/lib/python3/dist-packages"
       else if existsb (fun module => endswith cli module) listed
            then "found" else EmptyString |}.

End Precheck.

(** ** The start of the daemons ([maintenance/install.py], [_Daemon]) *)

Module Daemons.
Import Py Precheck.
Local Open Scope inst_scope.

(** The machine as [_Daemon] sees it: its shell, the user who installs
    ([getpass.getuser()]), [general.root_directory()], whether the PID file
    of a daemon is there after the actions done so far
    ([daemon_lib.pid_file_exists]), and what the user types at a prompt,
    [None] when the input is at its end.  [log.log2see_safe] is not part of
    the sources at hand: it is taken to log the message and to return, as
    its use in a loop that goes on says. *)
Record machine : Type := {
  shell : host;
  username : string;
  root_directory : string;
  pid_file_exists : list action -> string -> bool;
  typed : list action -> string -> option string
}.

(** [c.lower()] for a code point below 256. *)
Definition lower (c : ascii) : ascii :=
  let n := nat_of_ascii c in
  if ((65 <=? n) && (n <=? 90)
      || (192 <=? n) && (n <=? 222) && negb (n =? 215))%nat
  then ascii_of_nat (n + 32)
  else c.

Definition newline : string := String (ascii_of_nat 10) EmptyString.

(** The question asked about a daemon that runs. *)
Definition restart_prompt (daemon : string) : string :=
  newline +:+ "INPUT - Daemon " +:+ daemon +:+ " is running. Restart? [Y/n] ".

Section WithMachine.
Variable Mc : machine.

Definition log2see_safe (code : Z) (message : string) : prog unit :=
  fun history => (Returns tt, See code message :: history).

(** [input(prompt)]: the prompt is shown; at the end of the input
    [EOFError] is raised. *)
Definition input (prompt : string) : prog string :=
  fun history =>
    match typed Mc history prompt with
    | Some answer => (Returns answer, Input prompt :: history)
    | None => (EOFError, Input prompt :: history)
    end.

(** [_Daemon._running]. *)
Definition _running (daemon : string) : prog bool :=
  fun history => (Returns (pid_file_exists Mc history daemon), history).

(** The command of [_Daemon._start], lines 209-223. *)
Definition script_name (daemon : string) (restart : bool) : string :=
  if negb restart then
    if String.eqb (username Mc) "root"
    then "/bin/systemctl start " +:+ daemon +:+ ".service"
    else root_directory Mc +:+ "/bin/" +:+ daemon +:+ " --start"
  else
    if String.eqb (username Mc) "root"
    then "/bin/systemctl restart " +:+ daemon +:+ ".service"
    else root_directory Mc +:+ "/bin/" +:+ daemon +:+ " --restart --force".

(** [_Daemon._start]. *)
Definition _start (daemon : string) (restart : bool) : prog bool :=
  let attempt := if restart then "restart" else "start" in
  let* returncode := run_script (shell Mc) (script_name daemon restart) in
  (if negb (returncode =? 0)
   then log2see_safe 1012
          ("Could not " +:+ attempt +:+ " daemon " +:+ daemon +:+ ".")
   else ret tt);;
  _running daemon.

(** [_Daemon._restart]. *)
Definition _restart (daemon : string) : prog bool := _start daemon true.

(** Lines 151-154 and 156-159. *)
Definition restart_and_report (daemon : string) : prog bool :=
  let* success := _restart daemon in
  (if success
   then print_ok ("Successfully restarted daemon " +:+ daemon +:+ ".")
   else ret tt);;
  ret success.

(** The body of the loop of [_Daemon.start], lines 141-173. *)
Definition start_daemon (daemon : string) : prog unit :=
  let* running := _running daemon in
  let* success :=
    if running then
      let* restart := input (restart_prompt daemon) in
      match restart with
      | EmptyString => restart_and_report daemon
      | String first _ =>
          if negb (Ascii.eqb (lower first) "n")
          then restart_and_report daemon
          else
            print_ok ("Leaving daemon " +:+ daemon +:+ " unchanged.");;
            ret true
      end
    else
      let* success := _start daemon false in
      (if success
       then print_ok ("Successfully started daemon " +:+ daemon +:+ ".")
       else ret tt);;
      ret success in
  if negb success
  then log2see_safe 1001 ("Failed to start daemon " +:+ daemon +:+ ".")
  else ret tt.

(** [_Daemon.start]. *)
Definition start : prog unit :=
  for_each start_daemon ["switchmap-ng-api"; "switchmap-ng-poller"].

End WithMachine.

(** An answer that starts with [n] or [N]. *)
Definition declines (answer : string) : Prop :=
  exists rest, answer = String "n" rest \/ answer = String "N" rest.

(** A machine of the user [user] on which every command returns [code],
    the PID files are there when [pids] says so, and the user answers
    [answer] to every question; [unattended] is the same machine with the
    input at its end. *)
Definition demo_machine (user : string) (code : Z)
  (pids : list action -> string -> bool) (answer : string) : machine :=
  {| shell := {| version_info := (3, 5);
                 returncode := fun _ _ => code;
                 read := fun _ _ => EmptyString |};
     username := user;
     root_directory := "/opt/switchmap-ng";
     pid_file_exists := pids;
     typed := fun _ _ => Some answer |}.

Definition unattended (Mc : machine) : machine :=
  {| shell := shell Mc;
     username := username Mc;
     root_directory := root_directory Mc;
     pid_file_exists := pid_file_exists Mc;
     typed := fun _ _ => None |}.

(** The PID file of a daemon appears once a command was run. *)
Definition pid_after_script (history : list action) (daemon : string) : bool :=
  existsb (fun a => match a with Script _ => true | _ => false end) history.

End Daemons.

(** * Facts *)

(** ** The configuration merge *)

Module InstallFacts.
Import Py Install.
Local Open Scope res_scope.

(** *** Dictionaries *)

Lemma dict_get_set_eq k v d : dict_get k (dict_set k v d) = Some v.
Proof.
  induction d as [|[k' v'] d IH]; simpl.
  - by rewrite String.eqb_refl.
  - destruct (String.eqb k' k) eqn:Hk; simpl.
    + by rewrite String.eqb_refl.
    + by rewrite Hk.
Qed.

Lemma dict_get_set_ne k k' v d :
  k <> k' -> dict_get k (dict_set k' v d) = dict_get k d.
Proof.
  intros Hne. induction d as [|[k0 v0] d IH]; simpl.
  - destruct (String.eqb k' k) eqn:Hk; [|done].
    apply String.eqb_eq in Hk. congruence.
  - destruct (String.eqb k0 k') eqn:Hk0; simpl.
    + apply String.eqb_eq in Hk0. subst k0.
      destruct (String.eqb k' k) eqn:Hk; [|done].
      apply String.eqb_eq in Hk. congruence.
    + by rewrite IH.
Qed.

(** *** [==] on scalars is an equivalence *)

Lemma py_eq_scalar_refl a : is_scalar a = true -> py_eq a a = true.
Proof.
  destruct a as [|[]|n|s|l|d]; cbn [py_eq is_scalar]; try done; intros _.
  - apply Z.eqb_refl.
  - apply String.eqb_refl.
Qed.

Lemma py_eq_scalar_sym a b :
  is_scalar a = true -> is_scalar b = true -> py_eq a b = py_eq b a.
Proof.
  destruct a as [|x|n|s|l|d], b as [|y|n'|s'|l'|d'];
    cbn [py_eq is_scalar]; try done; intros _ _.
  - by destruct x, y.
  - apply Z.eqb_sym.
  - apply Z.eqb_sym.
  - apply Z.eqb_sym.
  - apply String.eqb_sym.
Qed.

Lemma py_eq_scalar_trans a b c :
  is_scalar a = true -> is_scalar b = true -> is_scalar c = true ->
  py_eq a b = true -> py_eq b c = true -> py_eq a c = true.
Proof.
  destruct a as [|x|n|s|l|d], b as [|y|n'|s'|l'|d'], c as [|z|n''|s''|l''|d''];
    cbn [py_eq is_scalar]; try done; intros _ _ _;
    rewrite ?Z.eqb_eq, ?String.eqb_eq;
    try (destruct x); try (destruct y); try (destruct z);
    cbn [Bool.eqb]; try done; congruence.
Qed.

(** *** First-occurrence-wins on lists *)

Section FirstSeen.
Variable key : value -> value.

Lemma shares_app seen seen' x :
  shares key (seen ++ seen') x = shares key seen x || shares key seen' x.
Proof. unfold shares. apply existsb_app. Qed.

Lemma shares_one e x : shares key [e] x = py_eq (key e) (key x).
Proof. unfold shares. simpl. apply orb_false_r. Qed.

(** An item that shares the key of [x] passes for [x]. *)
Lemma shares_trans seen x y :
  keyed key seen -> is_scalar (key x) = true -> is_scalar (key y) = true ->
  shares key seen x = true -> py_eq (key x) (key y) = true ->
  shares key seen y = true.
Proof.
  intros Hseen Hx Hy Hsx Hxy. unfold shares in *.
  apply existsb_exists in Hsx as (e & He & Hex).
  apply existsb_exists. exists e. split; [done|].
  apply (py_eq_scalar_trans _ (key x)); try done.
  by apply (proj1 (List.Forall_forall _ _) Hseen).
Qed.

Lemma keep_new_app acc found found' :
  keep_new key acc (found ++ found') =
  keep_new key (keep_new key acc found) found'.
Proof.
  revert acc. induction found as [|x rest IH]; intros acc; simpl; [done|].
  destruct (shares key acc x); apply IH.
Qed.

Lemma keep_new_keyed acc found :
  keyed key acc -> keyed key found -> keyed key (keep_new key acc found).
Proof.
  revert acc. induction found as [|x rest IH]; intros acc Hacc Hfound;
    simpl; [done|].
  inversion Hfound; subst.
  destruct (shares key acc x); apply IH; try done.
  apply Forall_app; split; [done|]. by constructor.
Qed.

(** The loops check an item against the list built so far, the spec against
    everything met so far; with keys that are scalars both keep the same
    items. *)
Lemma keep_new_first_seen found : forall acc seen,
  keyed key acc -> keyed key seen -> keyed key found ->
  (forall y, is_scalar (key y) = true ->
             shares key seen y = shares key acc y) ->
  keep_new key acc found = acc ++ first_seen key seen found.
Proof.
  induction found as [|x rest IH]; intros acc seen Hacc Hseen Hfound Hsame;
    simpl.
  - by rewrite app_nil_r.
  - inversion Hfound as [|? ? Hx Hrest]; subst.
    rewrite (Hsame x Hx).
    destruct (shares key acc x) eqn:Hs; simpl.
    + apply IH; try done.
      * apply Forall_app; split; [done|]. by constructor.
      * intros y Hy. rewrite shares_app, shares_one, (Hsame y Hy).
        destruct (py_eq (key x) (key y)) eqn:Hxy; [|apply orb_false_r].
        rewrite (shares_trans acc x y); done.
    + rewrite (IH (acc ++ [x]) (seen ++ [x])).
      * by rewrite <- app_assoc.
      * apply Forall_app; split; [done|]. by constructor.
      * apply Forall_app; split; [done|]. by constructor.
      * done.
      * intros y Hy. by rewrite !shares_app, (Hsame y Hy).
Qed.

Lemma keep_new_is_first_seen seen found :
  keyed key seen -> keyed key found ->
  keep_new key seen found = seen ++ first_seen key seen found.
Proof. intros. by apply keep_new_first_seen. Qed.

(** No kept item has the key of an item seen before the walk. *)
Lemma first_seen_fresh found : forall seen x,
  In x (first_seen key seen found) -> shares key seen x = false.
Proof.
  induction found as [|y rest IH]; intros seen x Hin; simpl in Hin; [done|].
  apply in_app_or in Hin as [Hin|Hin].
  - destruct (shares key seen y) eqn:Hs; simpl in Hin; [done|].
    by destruct Hin as [<-|[]].
  - apply IH in Hin. rewrite shares_app in Hin.
    by apply orb_false_iff in Hin as [? _].
Qed.

(** The kept items have pairwise different keys: a later one never shares
    the key of an earlier one. *)
Lemma first_seen_distinct found : forall seen i j x y,
  (i < j)%nat ->
  first_seen key seen found !! i = Some x ->
  first_seen key seen found !! j = Some y ->
  py_eq (key x) (key y) = false.
Proof.
  induction found as [|z rest IH]; intros seen i j x y Hij Hi Hj;
    simpl in Hi, Hj; [done|].
  destruct (shares key seen z) eqn:Hs; simpl in Hi, Hj.
  - by apply (IH (seen ++ [z]) i j).
  - destruct i as [|i]; simpl in Hi.
    + injection Hi as <-. destruct j as [|j]; [lia|]. simpl in Hj.
      apply list_elem_of_lookup_2, list_elem_of_In, first_seen_fresh in Hj.
      rewrite shares_app, shares_one in Hj.
      by apply orb_false_iff in Hj as [_ ?].
    + destruct j as [|j]; [lia|]. simpl in Hj.
      apply (IH (seen ++ [z]) i j); [lia|done|done].
Qed.

End FirstSeen.

(** *** The loops of [_Config.__init__] *)

Lemma add_hostnames_list found : forall existing,
  add_hostnames (VList existing) found =
  Ok (VList (keep_new id existing found)).
Proof.
  induction found as [|h rest IH]; intros existing; simpl; [done|].
  change (existsb (fun item => py_eq item h) existing)
    with (shares id existing h).
  destruct (shares id existing h); simpl; apply IH.
Qed.

Lemma named_group_name g :
  named_group g = true ->
  getitem g "group_name" = Ok (group_name g) /\
  is_scalar (group_name g) = true.
Proof.
  destruct g as [| | | | |d]; simpl; try done.
  by destruct (dict_get "group_name" d).
Qed.

Lemma _snmp_group_found_from_named listing : forall found item,
  Forall (fun g => named_group g = true) listing ->
  named_group item = true ->
  _snmp_group_found_from found item listing =
  Ok (found || shares group_name listing item).
Proof.
  induction listing as [|g rest IH]; intros found item Hl Hi.
  - simpl. by rewrite orb_false_r.
  - inversion Hl as [|? ? Hg Hrest]; subst.
    cbn [_snmp_group_found_from].
    destruct (named_group_name g Hg) as [-> _].
    destruct (named_group_name item Hi) as [-> _].
    cbn [res_bind]. rewrite IH by done.
    unfold shares. cbn [existsb].
    by destruct (py_eq (group_name g) (group_name item)), found.
Qed.

Lemma _snmp_group_found_named listing item :
  Forall (fun g => named_group g = true) listing ->
  named_group item = true ->
  _snmp_group_found item (VList listing) =
  Ok (shares group_name listing item).
Proof.
  intros Hl Hi. unfold _snmp_group_found. cbn [py_iter res_bind].
  by rewrite _snmp_group_found_from_named.
Qed.

Lemma shape_seed username : shape (seed username) seed_hostnames seed_groups.
Proof. unfold shape, seed. eexists _, _. by repeat split. Qed.

Lemma store_main config H G sub_key x :
  shape config H G ->
  exists config',
    store config "main" sub_key x = Ok config' /\
    forall H',
      (if String.eqb sub_key "hostnames" then x = VList H' else H' = H) ->
      shape config' H' G.
Proof.
  intros (top & m & -> & Hmain & Hhosts & Hgroups).
  unfold store. cbn [getitem]. rewrite Hmain. cbn [res_bind setitem].
  eexists. split; [done|]. intros H' HH'.
  exists (dict_set "main" (VDict (dict_set sub_key x m)) top),
         (dict_set sub_key x m).
  split; [done|]. split; [apply dict_get_set_eq|]. split.
  - destruct (String.eqb sub_key "hostnames") eqn:Hk.
    + apply String.eqb_eq in Hk. subst. apply dict_get_set_eq.
    + apply String.eqb_neq in Hk. subst.
      rewrite dict_get_set_ne; [done|congruence].
  - rewrite dict_get_set_ne; [done|discriminate].
Qed.

Lemma merge_sub_key_main config H G kv :
  shape config H G -> wf_sub_key kv = true ->
  exists config',
    merge_sub_key "main" config kv = Ok config' /\
    shape config' (keep_new id H (sub_key_hostnames kv)) G.
Proof.
  intros Hshape Hwf. destruct kv as [sub_key v].
  unfold wf_sub_key, sub_key_hostnames in *. cbn [fst snd] in *.
  unfold merge_sub_key.
  destruct v as [| | | |l|d];
    try (match goal with
         | |- context [store _ _ _ ?x] =>
             destruct (store_main config H G sub_key x Hshape) as (c & Hc & Hs)
         end;
         exists c; split; [done|]; apply Hs;
         apply negb_true_iff in Hwf; by rewrite Hwf).
  apply andb_true_iff in Hwf as [Hk Hl]. rewrite Hk.
  apply String.eqb_eq in Hk. subst sub_key.
  destruct Hshape as (top & m & -> & Hmain & Hhosts & Hgroups).
  cbn [getitem]. rewrite Hmain. cbn [res_bind getitem]. rewrite Hhosts.
  cbn [res_bind]. rewrite add_hostnames_list. cbn [res_bind].
  destruct (store_main (VDict top) H G "hostnames"
              (VList (keep_new id H l))) as (c & -> & Hc).
  { by exists top, m. }
  exists c. split; [done|]. by apply Hc.
Qed.

Lemma merge_sub_keys_main sub : forall config H G,
  shape config H G -> forallb wf_sub_key sub = true ->
  exists config',
    foldM (merge_sub_key "main") config sub = Ok config' /\
    shape config' (keep_new id H (flat_map sub_key_hostnames sub)) G.
Proof.
  induction sub as [|kv rest IH]; intros config H G Hshape Hwf.
  - exists config. by split.
  - cbn [forallb] in Hwf. apply andb_true_iff in Hwf as [Hkv Hrest].
    destruct (merge_sub_key_main config H G kv Hshape Hkv) as (c & Hc & Hs).
    destruct (IH c _ G Hs Hrest) as (c' & Hc' & Hs').
    exists c'. cbn [foldM flat_map]. rewrite Hc. cbn [res_bind].
    split; [done|]. by rewrite keep_new_app.
Qed.

Lemma all_named_keyed l : all_named l -> keyed group_name l.
Proof.
  intros Hl. eapply List.Forall_impl; [|exact Hl].
  intros g Hg. by destruct (named_group_name g Hg).
Qed.

Lemma keep_new_named acc found :
  all_named acc -> all_named found -> all_named (keep_new group_name acc found).
Proof.
  revert acc. induction found as [|x rest IH]; intros acc Hacc Hfound;
    simpl; [done|].
  inversion Hfound; subst.
  destruct (shares group_name acc x); apply IH; try done.
  apply Forall_app; split; [done|]. by constructor.
Qed.

Lemma merge_snmp_group_named config H G item :
  shape config H G -> all_named G -> named_group item = true ->
  exists config',
    merge_snmp_group "snmp_groups" config item = Ok config' /\
    shape config' H (keep_new group_name G [item]).
Proof.
  intros (top & m & -> & Hmain & Hhosts & Hgroups) HG Hitem.
  unfold merge_snmp_group. cbn [getitem]. rewrite Hgroups. cbn [res_bind].
  rewrite _snmp_group_found_named by done. cbn [res_bind keep_new].
  destruct (shares group_name G item).
  - eexists. split; [done|]. by exists top, m.
  - cbn [py_append res_bind setitem]. eexists. split; [done|].
    exists (dict_set "snmp_groups" (VList (G ++ [item])) top), m.
    split; [done|]. split; [|split; [done|apply dict_get_set_eq]].
    rewrite dict_get_set_ne; [done|discriminate].
Qed.

Lemma merge_snmp_groups_named items : forall config H G,
  shape config H G -> all_named G -> all_named items ->
  exists config',
    foldM (merge_snmp_group "snmp_groups") config items = Ok config' /\
    shape config' H (keep_new group_name G items).
Proof.
  induction items as [|item rest IH]; intros config H G Hshape HG Hitems.
  - exists config. by split.
  - inversion Hitems as [|? ? Hitem Hrest]; subst.
    destruct (merge_snmp_group_named config H G item Hshape HG Hitem)
      as (c & Hc & Hs).
    destruct (IH c H _ Hs) as (c' & Hc' & Hs'); [|done|].
    { apply keep_new_named; [done|]. by constructor. }
    exists c'. cbn [foldM]. rewrite Hc. cbn [res_bind]. split; [done|].
    change (item :: rest) with ([item] ++ rest). by rewrite keep_new_app.
Qed.

Lemma merge_file_key_wf config H G kv :
  shape config H G -> all_named G -> wf_file_key kv = true ->
  exists config',
    merge_file_key config kv = Ok config' /\
    shape config' (keep_new id H (file_key_hostnames kv))
      (keep_new group_name G (file_key_groups kv)) /\
    all_named (keep_new group_name G (file_key_groups kv)).
Proof.
  intros Hshape HG Hwf. destruct kv as [file_key file_value].
  unfold wf_file_key, file_key_hostnames, file_key_groups in *.
  cbn [fst snd] in *. unfold merge_file_key.
  destruct file_value as [| | | |items|sub];
    try (exists config; by repeat split).
  - apply andb_true_iff in Hwf as [Hk Hitems]. rewrite Hk.
    apply String.eqb_eq in Hk. subst file_key.
    assert (all_named items) as Hnamed.
    { apply List.Forall_forall. intros g Hg.
      by apply (proj1 (forallb_forall _ _) Hitems). }
    destruct (merge_snmp_groups_named items config H G Hshape HG Hnamed)
      as (c & Hc & Hs).
    exists c. split; [done|]. split; [done|]. by apply keep_new_named.
  - apply andb_true_iff in Hwf as [Hk Hsub]. rewrite Hk.
    apply String.eqb_eq in Hk. subst file_key.
    destruct (merge_sub_keys_main sub config H G Hshape Hsub) as (c & Hc & Hs).
    exists c. by repeat split.
Qed.

Lemma merge_directory_dict_wf fragment : forall config H G,
  shape config H G -> all_named G -> wf_fragment fragment = true ->
  exists config',
    merge_directory_dict config fragment = Ok config' /\
    shape config' (keep_new id H (fragment_hostnames fragment))
      (keep_new group_name G (fragment_groups fragment)) /\
    all_named (keep_new group_name G (fragment_groups fragment)).
Proof.
  unfold merge_directory_dict, wf_fragment, fragment_hostnames, fragment_groups.
  induction fragment as [|kv rest IH]; intros config H G Hshape HG Hwf.
  - exists config. by repeat split.
  - cbn [forallb] in Hwf. apply andb_true_iff in Hwf as [Hkv Hrest].
    destruct (merge_file_key_wf config H G kv Hshape HG Hkv)
      as (c & Hc & Hs & Hn).
    destruct (IH c _ _ Hs Hn Hrest) as (c' & Hc' & Hs' & Hn').
    exists c'. cbn [foldM flat_map]. rewrite Hc. cbn [res_bind].
    by rewrite !keep_new_app.
Qed.

Lemma resolve_from_wf fragments : forall config H G,
  shape config H G -> all_named G -> forallb wf_fragment fragments = true ->
  exists config',
    foldM merge_directory_dict config fragments = Ok config' /\
    shape config' (keep_new id H (flat_map fragment_hostnames fragments))
      (keep_new group_name G (flat_map fragment_groups fragments)).
Proof.
  induction fragments as [|fragment rest IH]; intros config H G Hshape HG Hwf.
  - exists config. by split.
  - cbn [forallb] in Hwf. apply andb_true_iff in Hwf as [Hf Hrest].
    destruct (merge_directory_dict_wf fragment config H G Hshape HG Hf)
      as (c & Hc & Hs & Hn).
    destruct (IH c _ _ Hs Hn Hrest) as (c' & Hc' & Hs').
    exists c'. cbn [foldM flat_map]. rewrite Hc. cbn [res_bind].
    by rewrite !keep_new_app.
Qed.

Lemma seed_groups_named : all_named seed_groups.
Proof. by repeat constructor. Qed.

Lemma seed_hostnames_keyed : keyed id seed_hostnames.
Proof. by repeat constructor. Qed.

Lemma wf_hostnames_keyed fragments :
  forallb wf_fragment fragments = true ->
  keyed id (flat_map fragment_hostnames fragments).
Proof.
  intros Hwf. apply List.Forall_forall. intros h Hh.
  apply in_flat_map in Hh as (fragment & Hfragment & Hh).
  apply (proj1 (forallb_forall _ _) Hwf) in Hfragment.
  apply in_flat_map in Hh as ([file_key file_value] & Hkv & Hh).
  apply (proj1 (forallb_forall _ _) Hfragment) in Hkv.
  unfold file_key_hostnames, wf_file_key in *. cbn [fst snd] in *.
  destruct file_value as [| | | |items|sub]; try done.
  apply andb_true_iff in Hkv as [_ Hsub].
  destruct (String.eqb file_key "main"); [|done].
  apply in_flat_map in Hh as ([sub_key v] & Hv & Hh).
  apply (proj1 (forallb_forall _ _) Hsub) in Hv.
  unfold sub_key_hostnames, wf_sub_key in *. cbn [fst snd] in *.
  destruct v as [| | | |l|d]; try done.
  apply andb_true_iff in Hv as [_ Hl].
  destruct (String.eqb sub_key "hostnames"); [|done].
  by apply (proj1 (forallb_forall _ _) Hl).
Qed.

Lemma wf_groups_named fragments :
  forallb wf_fragment fragments = true ->
  all_named (flat_map fragment_groups fragments).
Proof.
  intros Hwf. apply List.Forall_forall. intros g Hg.
  apply in_flat_map in Hg as (fragment & Hfragment & Hg).
  apply (proj1 (forallb_forall _ _) Hwf) in Hfragment.
  apply in_flat_map in Hg as ([file_key file_value] & Hkv & Hg).
  apply (proj1 (forallb_forall _ _) Hfragment) in Hkv.
  unfold file_key_groups, wf_file_key in *. cbn [fst snd] in *.
  destruct file_value as [| | | |items|sub]; try done.
  apply andb_true_iff in Hkv as [_ Hitems].
  destruct (String.eqb file_key "snmp_groups"); [|done].
  by apply (proj1 (forallb_forall _ _) Hitems).
Qed.

(** Resolution of well-formed fragments returns, and both lists are the
    seed followed by the first occurrences among the fragments. *)
Lemma resolve_wf username fragments :
  forallb wf_fragment fragments = true ->
  exists config,
    resolve username fragments = Ok config /\
    shape config
      (seed_hostnames
         ++ first_seen id seed_hostnames
              (flat_map fragment_hostnames fragments))
      (seed_groups
         ++ first_seen group_name seed_groups
              (flat_map fragment_groups fragments)).
Proof.
  intros Hwf.
  destruct (resolve_from_wf fragments (seed username) _ _
              (shape_seed username) seed_groups_named Hwf) as (c & Hc & Hs).
  exists c. split; [done|].
  rewrite <- (keep_new_is_first_seen id), <- (keep_new_is_first_seen group_name);
    auto using seed_hostnames_keyed, wf_hostnames_keyed, all_named_keyed,
      seed_groups_named, wf_groups_named.
Qed.

Lemma shape_resolved config H G :
  shape config H G ->
  resolved_hostnames config = Ok (VList H) /\
  resolved_snmp_groups config = Ok (VList G).
Proof.
  intros (top & m & -> & Hmain & Hhosts & Hgroups).
  unfold resolved_hostnames, resolved_snmp_groups. cbn [getitem].
  rewrite Hmain, Hgroups. cbn [res_bind getitem]. by rewrite Hhosts.
Qed.

(** With one fragment, resolution is [_Config.__init__] on it. *)
Lemma resolve_one username directory_dict :
  resolve username [directory_dict] = _Config_init username directory_dict.
Proof.
  unfold resolve, _Config_init. cbn [foldM].
  by destruct (merge_directory_dict (seed username) directory_dict).
Qed.

(** *** Counting hostnames *)

Lemma occurrences_app h l l' :
  occurrences h (l ++ l') = (occurrences h l + occurrences h l')%nat.
Proof. unfold occurrences. by rewrite filter_app, length_app. Qed.

Lemma occurrences_first_seen found : forall seen h,
  keyed id seen -> keyed id found -> is_scalar h = true ->
  occurrences h (first_seen id seen found) =
  if shares id seen h then 0%nat
  else if shares id found h then 1%nat else 0%nat.
Proof.
  induction found as [|x rest IH]; intros seen h Hseen Hfound Hh.
  - cbn. by destruct (shares id seen h).
  - inversion Hfound as [|? ? Hx Hrest]; subst. cbn [first_seen].
    rewrite occurrences_app, (IH (seen ++ [x]) h); try done.
    2:{ apply Forall_app; split; [done|]. by constructor. }
    rewrite shares_app, shares_one.
    change (shares id (x :: rest) h)
      with (py_eq (id x) (id h) || shares id rest h).
    change (py_eq (id x) (id h)) with (py_eq x h).
    assert (forall b : bool, occurrences h (if b then [] else [x]) =
                             if b then 0%nat
                             else if py_eq x h then 1%nat else 0%nat) as ->.
    { intros []; [done|]. unfold occurrences. cbn.
      destruct (py_eq x h); by case_decide. }
    destruct (shares id seen x) eqn:Hsx, (py_eq x h) eqn:Hxh,
      (shares id seen h) eqn:Hsh; cbn [orb]; try done.
    + by rewrite (shares_trans id seen x h) in Hsh.
    + rewrite (shares_trans id seen h x) in Hsx; try done.
      unfold id. by rewrite py_eq_scalar_sym.
Qed.

(** *** Pairwise different keys *)

Lemma distinct_keys_first_seen key seen found :
  distinct_keys key seen ->
  distinct_keys key (seen ++ first_seen key seen found).
Proof.
  intros Hseen i j x y Hij Hi Hj.
  apply lookup_app_Some in Hi as [Hi|[Hlen Hi]];
    apply lookup_app_Some in Hj as [Hj|[Hlen' Hj]].
  - by apply (Hseen i j).
  - apply list_elem_of_lookup_2, list_elem_of_In, first_seen_fresh in Hj.
    apply list_elem_of_lookup_2, list_elem_of_In in Hi.
    unfold shares in Hj.
    destruct (py_eq (key x) (key y)) eqn:Hxy; [|done].
    assert (existsb (fun e => py_eq (key e) (key y)) seen = true) as Hex.
    { apply existsb_exists. by exists x. }
    congruence.
  - apply lookup_lt_Some in Hj. lia.
  - apply (first_seen_distinct key found seen
             (i - length seen) (j - length seen)); [lia|done|done].
Qed.

Lemma seed_groups_distinct : distinct_keys group_name seed_groups.
Proof.
  intros i j x y Hij Hi Hj.
  destruct i as [|[|i]], j as [|[|j]]; try lia; try done.
  cbn in Hi, Hj. by simplify_eq.
Qed.

(** *** The claims about the resolved configuration *)

(** C2, as the claim states it, fails on the fragments [a, b] and [b, c]:
    the resolved [hostnames] list is [None, None, a, b, c]; it holds the
    placeholder of the seed twice and is not [a, b, c]. *)
Lemma hostnames_not_duplicate_free :
  exists resolved,
    res_bind (resolve VNone fragments_ab_bc) resolved_hostnames
      = Ok (VList resolved) /\
    ~ NoDup resolved /\
    resolved <> [VStr "a"; VStr "b"; VStr "c"].
Proof.
  exists [VStr "None"; VStr "None"; VStr "a"; VStr "b"; VStr "c"].
  split; [reflexivity|]. split; [|discriminate].
  intros Hnodup. apply NoDup_cons in Hnodup as [Hnotin _].
  apply Hnotin. apply list_elem_of_here.
Qed.

(** C2 (as amended): for well-formed fragments resolution returns, and the
    resolved [hostnames] list is the two placeholders of the seed followed
    by the hostnames of the fragments, in the order of their first
    appearance, those equal to the placeholder being left out; every
    hostname of a fragment occurs exactly once in it, the placeholder
    twice; appending a hostname that is already present leaves a list
    unchanged. *)
Theorem hostnames_seed_then_first_seen username fragments :
  forallb wf_fragment fragments = true ->
  exists config resolved,
    resolve username fragments = Ok config /\
    resolved_hostnames config = Ok (VList resolved) /\
    resolved = seed_hostnames
                 ++ first_seen id seed_hostnames
                      (flat_map fragment_hostnames fragments) /\
    (forall h, In h (flat_map fragment_hostnames fragments) ->
               occurrences h resolved =
               if py_eq (VStr "None") h then 2%nat else 1%nat) /\
    (forall existing h,
        py_in h (VList existing) = Ok true ->
        add_hostnames (VList existing) [h] = Ok (VList existing)).
Proof.
  intros Hwf. destruct (resolve_wf username fragments Hwf) as (c & Hc & Hs).
  apply shape_resolved in Hs as [Hh _].
  eexists c, _. split; [done|]. split; [done|]. split; [done|]. split.
  - intros h Hin.
    pose proof (wf_hostnames_keyed fragments Hwf) as Hkeyed.
    assert (is_scalar h = true) as Hh'
      by apply (proj1 (List.Forall_forall _ _) Hkeyed h Hin).
    rewrite occurrences_app, occurrences_first_seen;
      [|apply seed_hostnames_keyed|done|done].
    assert (shares id (flat_map fragment_hostnames fragments) h = true) as ->.
    { apply existsb_exists. exists h. split; [done|].
      by apply py_eq_scalar_refl. }
    unfold occurrences, shares, seed_hostnames, id. cbn [existsb filter].
    destruct h as [| | |s| |]; try done.
    cbn [py_eq]. rewrite !filter_cons, filter_nil. cbn [py_eq].
    destruct (String.eqb "None" s); repeat case_decide; done.
  - intros existing h Hin. cbn in Hin. cbn [add_hostnames py_in res_bind].
    injection Hin as ->. done.
Qed.

Lemma hostnames_seed_then_first_seen_witness :
  forallb wf_fragment fragments_ab_bc = true /\
  exists config resolved,
    resolve VNone fragments_ab_bc = Ok config /\
    resolved_hostnames config = Ok (VList resolved) /\
    resolved = seed_hostnames
                 ++ first_seen id seed_hostnames
                      (flat_map fragment_hostnames fragments_ab_bc) /\
    (forall h, In h (flat_map fragment_hostnames fragments_ab_bc) ->
               occurrences h resolved =
               if py_eq (VStr "None") h then 2%nat else 1%nat) /\
    (forall existing h,
        py_in h (VList existing) = Ok true ->
        add_hostnames (VList existing) [h] = Ok (VList existing)).
Proof.
  split; [reflexivity|].
  apply (hostnames_seed_then_first_seen VNone fragments_ab_bc). reflexivity.
Defined.

(** On the fragments [a, b] and [b, c] the list of the theorem is
    [None, None, a, b, c]. *)
Example hostnames_ab_bc :
  seed_hostnames
    ++ first_seen id seed_hostnames
         (flat_map fragment_hostnames fragments_ab_bc)
  = [VStr "None"; VStr "None"; VStr "a"; VStr "b"; VStr "c"].
Proof. reflexivity. Qed.

(** C3, as the claim states it, fails on a single fragment with one group
    named [SAMPLE_SNMPv2]: the group is the first occurrence of its name
    across all fragments, no group of a fragment was processed before it,
    and yet it is not in the resolved list. *)
Lemma first_fragment_group_can_lose :
  exists resolved,
    fragment_groups fragment_live_v2 = [live_group_v2] /\
    res_bind (resolve VNone [fragment_live_v2]) resolved_snmp_groups
      = Ok (VList resolved) /\
    ~ In live_group_v2 resolved.
Proof.
  exists seed_groups. split; [reflexivity|]. split; [reflexivity|].
  intros [H|[H|[]]]; discriminate H.
Qed.

(** C3 (as amended): for well-formed fragments resolution returns, and the
    resolved [snmp_groups] list is the two seed groups followed by the
    groups of the fragments of which neither a seed group nor a group
    processed earlier shares the [group_name]; no two groups of the list
    share a [group_name]; one group is appended exactly when no group of
    the list so far shares its name, and is dropped without error
    otherwise. *)
Theorem snmp_groups_seed_then_first_by_name username fragments :
  forallb wf_fragment fragments = true ->
  exists config resolved,
    resolve username fragments = Ok config /\
    resolved_snmp_groups config = Ok (VList resolved) /\
    resolved = seed_groups
                 ++ first_seen group_name seed_groups
                      (flat_map fragment_groups fragments) /\
    distinct_keys group_name resolved /\
    (forall config H listing item,
        shape config H listing -> all_named listing ->
        named_group item = true ->
        merge_snmp_group "snmp_groups" config item =
        if shares group_name listing item then Ok config
        else setitem config "snmp_groups" (VList (listing ++ [item]))).
Proof.
  intros Hwf. destruct (resolve_wf username fragments Hwf) as (c & Hc & Hs).
  apply shape_resolved in Hs as [_ Hg].
  eexists c, _. split; [done|]. split; [done|]. split; [done|]. split.
  - apply distinct_keys_first_seen, seed_groups_distinct.
  - intros config H listing item (top & m & -> & Hmain & Hhosts & Hgroups)
      Hlisting Hitem.
    unfold merge_snmp_group. cbn [getitem]. rewrite Hgroups. cbn [res_bind].
    rewrite _snmp_group_found_named by done. cbn [res_bind].
    by destruct (shares group_name listing item).
Qed.

Lemma snmp_groups_seed_then_first_by_name_witness :
  forallb wf_fragment [fragment_live_v2; fragment_two_cores] = true /\
  exists config resolved,
    resolve VNone [fragment_live_v2; fragment_two_cores] = Ok config /\
    resolved_snmp_groups config = Ok (VList resolved) /\
    resolved = seed_groups
                 ++ first_seen group_name seed_groups
                      (flat_map fragment_groups
                         [fragment_live_v2; fragment_two_cores]) /\
    distinct_keys group_name resolved /\
    (forall config H listing item,
        shape config H listing -> all_named listing ->
        named_group item = true ->
        merge_snmp_group "snmp_groups" config item =
        if shares group_name listing item then Ok config
        else setitem config "snmp_groups" (VList (listing ++ [item]))).
Proof.
  split; [reflexivity|].
  apply (snmp_groups_seed_then_first_by_name VNone
           [fragment_live_v2; fragment_two_cores]).
  reflexivity.
Defined.

(** On these two fragments the list of the theorem is the two seed groups,
    the first [core] group and the [edge] group. *)
Example snmp_groups_live_v2_two_cores :
  seed_groups
    ++ first_seen group_name seed_groups
         (flat_map fragment_groups [fragment_live_v2; fragment_two_cores])
  = [seed_group_v2; seed_group_v3;
     VDict [("group_name", VStr "core"); ("snmp_version", VInt 2)];
     VDict [("group_name", VStr "edge"); ("snmp_version", VInt 3)]].
Proof. reflexivity. Qed.

(** C10, as the claim states it, fails already without any fragment: the
    resolved [hostnames] list does not begin with two null entries; the
    placeholders are the string [None]. *)
Lemma seed_placeholders_are_not_null :
  exists resolved,
    res_bind (resolve VNone []) resolved_hostnames = Ok (VList resolved) /\
    resolved = [VStr "None"; VStr "None"] /\
    forall rest, resolved <> VNone :: VNone :: rest.
Proof.
  exists seed_hostnames. split; [reflexivity|]. split; [reflexivity|].
  intros rest H. discriminate H.
Qed.

(** C10 (as amended): resolution starts from the seed template, not from an
    empty configuration: without fragments the result is the seed; for
    well-formed fragments the resolved [hostnames] list begins with two
    placeholder entries, each the string [None], and the resolved
    [snmp_groups] list begins with the two seed groups, which are disabled
    and named [SAMPLE_SNMPv2] and [SAMPLE_SNMPv3]; a group of a fragment
    that bears one of these names is dropped without error: resolution
    returns and the group is not among the groups that follow the seed
    groups. *)
Theorem resolution_starts_from_seed username fragments :
  forallb wf_fragment fragments = true ->
  resolve username [] = Ok (seed username) /\
  getitem seed_group_v2 "group_name" = Ok (VStr "SAMPLE_SNMPv2") /\
  getitem seed_group_v2 "enabled" = Ok (VBool false) /\
  getitem seed_group_v3 "group_name" = Ok (VStr "SAMPLE_SNMPv3") /\
  getitem seed_group_v3 "enabled" = Ok (VBool false) /\
  exists config hosts groups,
    resolve username fragments = Ok config /\
    resolved_hostnames config
      = Ok (VList (VStr "None" :: VStr "None" :: hosts)) /\
    resolved_snmp_groups config
      = Ok (VList (seed_group_v2 :: seed_group_v3 :: groups)) /\
    (forall g,
        In g (flat_map fragment_groups fragments) ->
        py_eq (VStr "SAMPLE_SNMPv2") (group_name g)
          || py_eq (VStr "SAMPLE_SNMPv3") (group_name g) = true ->
        ~ In g groups).
Proof.
  intros Hwf. repeat (split; [reflexivity|]).
  destruct (resolve_wf username fragments Hwf) as (c & Hc & Hs).
  apply shape_resolved in Hs as [Hh Hg].
  eexists c, _, _. split; [done|]. split; [exact Hh|]. split; [exact Hg|].
  intros g _ Hname Hin. apply first_seen_fresh in Hin.
  unfold shares, seed_groups in Hin. cbn [existsb] in Hin.
  change (group_name seed_group_v2) with (VStr "SAMPLE_SNMPv2") in Hin.
  change (group_name seed_group_v3) with (VStr "SAMPLE_SNMPv3") in Hin.
  rewrite orb_false_r in Hin. congruence.
Qed.

Lemma resolution_starts_from_seed_witness :
  forallb wf_fragment [fragment_live_v2; fragment_of_hostnames ["sw1"]]
    = true /\
  resolve VNone [] = Ok (seed VNone) /\
  getitem seed_group_v2 "group_name" = Ok (VStr "SAMPLE_SNMPv2") /\
  getitem seed_group_v2 "enabled" = Ok (VBool false) /\
  getitem seed_group_v3 "group_name" = Ok (VStr "SAMPLE_SNMPv3") /\
  getitem seed_group_v3 "enabled" = Ok (VBool false) /\
  exists config hosts groups,
    resolve VNone [fragment_live_v2; fragment_of_hostnames ["sw1"]]
      = Ok config /\
    resolved_hostnames config
      = Ok (VList (VStr "None" :: VStr "None" :: hosts)) /\
    resolved_snmp_groups config
      = Ok (VList (seed_group_v2 :: seed_group_v3 :: groups)) /\
    (forall g,
        In g (flat_map fragment_groups
                [fragment_live_v2; fragment_of_hostnames ["sw1"]]) ->
        py_eq (VStr "SAMPLE_SNMPv2") (group_name g)
          || py_eq (VStr "SAMPLE_SNMPv3") (group_name g) = true ->
        ~ In g groups).
Proof.
  split; [reflexivity|].
  apply (resolution_starts_from_seed VNone
           [fragment_live_v2; fragment_of_hostnames ["sw1"]]).
  reflexivity.
Defined.

(** *** What every resolution keeps *)

(** A fold that returns went through states that all satisfy what its steps
    preserve. *)
Lemma foldM_keeps {A B} (P : A -> Prop) (f : A -> B -> res A) l :
  (forall a b a', P a -> f a b = Ok a' -> P a') ->
  forall a a', P a -> foldM f a l = Ok a' -> P a'.
Proof.
  intros Hstep. induction l as [|b l IH]; intros a a' Ha Hrun.
  - by injection Hrun as <-.
  - cbn [foldM] in Hrun. destruct (f a b) as [a1|e] eqn:Hf; [|done].
    cbn [res_bind] in Hrun. eapply IH; [|exact Hrun]. by eapply Hstep.
Qed.

(** A fold raises as soon as one of its items makes the step raise. *)
Lemma foldM_stuck {A B} (P : A -> Prop) (bad : B -> bool)
  (f : A -> B -> res A) l :
  (forall a b a', P a -> f a b = Ok a' -> P a') ->
  (forall a b, P a -> bad b = true -> is_ok (f a b) = false) ->
  existsb bad l = true ->
  forall a, P a -> is_ok (foldM f a l) = false.
Proof.
  intros Hstep Hbad. induction l as [|b l IH]; intros Hex a Ha; [done|].
  cbn [foldM]. cbn [existsb] in Hex.
  destruct (f a b) as [a1|e] eqn:Hf; [|done]. cbn [res_bind].
  destruct (bad b) eqn:Hb.
  - specialize (Hbad a b Ha Hb). by rewrite Hf in Hbad.
  - apply IH; [done|]. by eapply Hstep.
Qed.

Lemma seeded_seed username : is_list username = false -> seeded (seed username).
Proof.
  intros Hu. eexists _, _. split; [reflexivity|].
  split; [|by repeat constructor]. intros k v Hk Hv.
  revert Hk. cbn [dict_get].
  repeat match goal with
         | |- context [String.eqb ?a k] =>
             destruct (String.eqb a k) eqn:?;
             [intros [= <-]; try congruence; try (by cbn in Hv);
              symmetry; by apply String.eqb_eq|]
         end.
  done.
Qed.

Lemma flat_main_set m k v :
  flat_main m -> (is_list v = true -> k = "hostnames") ->
  flat_main (dict_set k v m).
Proof.
  intros Hm Hv k' v' Hget Hlist.
  destruct (String.eqb k k') eqn:Hk.
  - apply String.eqb_eq in Hk. subst k'.
    rewrite dict_get_set_eq in Hget. injection Hget as <-. by apply Hv.
  - apply String.eqb_neq in Hk. rewrite dict_get_set_ne in Hget by done.
    by eapply Hm.
Qed.

(** Storing a setting works in [main] and nowhere else. *)
Lemma store_seeded m G fk k x config' :
  store (VDict [("main", VDict m); ("snmp_groups", VList G)]) fk k x
    = Ok config' ->
  fk = "main" /\
  config' = VDict [("main", VDict (dict_set k x m)); ("snmp_groups", VList G)].
Proof.
  unfold store. cbn [getitem dict_get].
  destruct (String.eqb "main" fk) eqn:Hmain.
  - apply String.eqb_eq in Hmain. subst fk. cbn. by intros [= <-].
  - destruct (String.eqb "snmp_groups" fk) eqn:Hgroups; [done|done].
Qed.

Lemma add_hostnames_is_list found : forall existing merged,
  add_hostnames existing found = Ok merged ->
  is_list merged = true -> is_list existing = true.
Proof.
  induction found as [|h rest IH]; intros existing merged Hrun Hlist.
  - by injection Hrun as ->.
  - cbn [add_hostnames] in Hrun.
    destruct (py_in h existing) as [[]|e]; cbn [res_bind] in Hrun; [eauto| |done].
    destruct existing; try done.
Qed.

Lemma dict_get_set_some k k' v m :
  dict_get k m <> None -> dict_get k (dict_set k' v m) <> None.
Proof.
  intros H. destruct (String.eqb k' k) eqn:Hk.
  - apply String.eqb_eq in Hk. subst. by rewrite dict_get_set_eq.
  - apply String.eqb_neq in Hk. rewrite dict_get_set_ne; [done|congruence].
Qed.

Lemma merge_sub_key_seeded fk config kv config' :
  seeded config -> merge_sub_key fk config kv = Ok config' ->
  seeded config' /\ fk = "main" /\ stray_sub_key kv = false.
Proof.
  intros (m & G & -> & Hflat & Hkeys) Hrun. destruct kv as [k v].
  unfold merge_sub_key, stray_sub_key in *. cbn [fst snd].
  assert (forall x, (is_list x = true -> k = "hostnames") ->
            store (VDict [("main", VDict m); ("snmp_groups", VList G)]) fk k x
              = Ok config' ->
            seeded config' /\ fk = "main") as Hstore.
  { intros x Hx Hs. apply store_seeded in Hs as [-> ->]. split; [|done].
    eexists _, _. split; [done|]. split; [by apply flat_main_set|].
    eapply List.Forall_impl; [|exact Hkeys].
    intros k0 Hk0. by apply dict_get_set_some. }
  destruct v as [| | | |l|d]; try (by apply Hstore in Hrun as [? ?]).
  cbn [is_list andb].
  destruct (String.eqb k "hostnames") eqn:Hk.
  - apply String.eqb_eq in Hk. subst k. cbn [negb].
    destruct (getitem _ fk) as [section|e]; [|done]. cbn [res_bind] in Hrun.
    destruct (getitem section "hostnames") as [existing|e]; [|done].
    cbn [res_bind] in Hrun.
    destruct (add_hostnames existing l) as [merged|e]; [|done].
    cbn [res_bind] in Hrun. by apply Hstore in Hrun as [? ?].
  - exfalso. cbn [getitem dict_get] in Hrun.
    destruct (String.eqb "main" fk) eqn:Hmain.
    + cbn [res_bind getitem] in Hrun.
      destruct (dict_get k m) as [target|] eqn:Hget; [|done].
      cbn [res_bind] in Hrun.
      destruct target as [| | | |l'|d']; try done.
      apply String.eqb_neq in Hk. apply Hk. by eapply Hflat.
    + destruct (String.eqb "snmp_groups" fk); [|done]. done.
Qed.

Lemma merge_snmp_group_seeded fk config item config' :
  seeded config -> merge_snmp_group fk config item = Ok config' ->
  fk = "snmp_groups" -> seeded config'.
Proof.
  intros (m & G & -> & Hflat & Hkeys) Hrun ->. unfold merge_snmp_group in Hrun.
  cbn [getitem dict_get String.eqb Ascii.eqb Bool.eqb res_bind] in Hrun.
  destruct (_snmp_group_found item (VList G)) as [[]|e];
    cbn [res_bind] in Hrun; [| |done].
  - injection Hrun as <-. by eexists _, _.
  - cbn in Hrun. injection Hrun as <-. by eexists _, _.
Qed.

Lemma merge_file_key_seeded config kv config' :
  seeded config -> merge_file_key config kv = Ok config' ->
  seeded config' /\ stray_file_key kv = false.
Proof.
  intros Hseeded Hrun. destruct kv as [fk fv].
  unfold merge_file_key, stray_file_key in *. cbn [fst snd].
  destruct fv as [| | | |items|sub]; try (injection Hrun as <-; by split).
  - destruct (String.eqb fk "snmp_groups") eqn:Hfk.
    + apply String.eqb_eq in Hfk. subst fk. split; [|done].
      revert Hrun. apply foldM_keeps; [|done].
      intros a b a' Ha Hstep. by eapply merge_snmp_group_seeded.
    + exfalso. destruct Hseeded as (m & G & -> & _).
      cbn [getitem dict_get] in Hrun.
      destruct (String.eqb "main" fk); [done|].
      apply String.eqb_neq in Hfk.
      destruct (String.eqb "snmp_groups" fk) eqn:Hg; [|done].
      apply String.eqb_eq in Hg. congruence.
  - assert (seeded config' /\ (sub <> [] -> fk = "main") /\
            existsb stray_sub_key sub = false) as (? & Hfk & Hstray).
    { revert config Hseeded Hrun.
      induction sub as [|kv rest IH]; intros config Hseeded Hrun.
      - injection Hrun as <-. by repeat split.
      - cbn [foldM] in Hrun.
        destruct (merge_sub_key fk config kv) as [c1|e] eqn:Hstep; [|done].
        cbn [res_bind] in Hrun.
        apply merge_sub_key_seeded in Hstep as (Hc1 & -> & Hkv); [|done].
        destruct (IH c1 Hc1 Hrun) as (? & _ & ?).
        split; [done|]. split; [done|]. cbn [existsb]. by rewrite Hkv. }
    split; [done|].
    destruct (String.eqb fk "main") eqn:Hmain; [done|].
    destruct sub; [done|]. apply String.eqb_neq in Hmain.
    exfalso. by apply Hmain, Hfk.
Qed.

Lemma merge_directory_dict_seeded config fragment config' :
  seeded config -> merge_directory_dict config fragment = Ok config' ->
  seeded config' /\ stray_fragment fragment = false.
Proof.
  unfold merge_directory_dict, stray_fragment. revert config.
  induction fragment as [|kv rest IH]; intros config Hseeded Hrun.
  - injection Hrun as <-. by split.
  - cbn [foldM] in Hrun.
    destruct (merge_file_key config kv) as [c1|e] eqn:Hstep; [|done].
    cbn [res_bind] in Hrun.
    apply merge_file_key_seeded in Hstep as (Hc1 & Hkv); [|done].
    destruct (IH c1 Hc1 Hrun) as (? & ?).
    split; [done|]. cbn [existsb]. by rewrite Hkv.
Qed.

(** X1: whatever the configuration files hold, a constructor that returns
    yields exactly the two sections of the seed, in its order: [main], a
    mapping in which no setting of the seed is missing and only
    [hostnames] can be a list, and [snmp_groups], a list.  The merge loop
    adds, removes or retypes no section. *)
Theorem constructor_keeps_the_two_sections username directory_dict config :
  is_list username = false ->
  _Config_init username directory_dict = Ok config ->
  exists m G,
    config = VDict [("main", VDict m); ("snmp_groups", VList G)] /\
    flat_main m /\
    Forall (fun k => dict_get k m <> None) seed_settings.
Proof.
  intros Hu Hrun. unfold _Config_init in Hrun.
  by apply merge_directory_dict_seeded in Hrun as [? _]; [|apply seeded_seed].
Qed.

Lemma constructor_keeps_the_two_sections_witness :
  is_list (VStr "switchmap") = false /\
  _Config_init (VStr "switchmap") settings_and_cores
    = Ok settings_and_cores_config /\
  exists m G,
    settings_and_cores_config
    = VDict [("main", VDict m); ("snmp_groups", VList G)] /\
    flat_main m /\
    Forall (fun k => dict_get k m <> None) seed_settings.
Proof.
  split; [reflexivity|]. split; [reflexivity|].
  apply (constructor_keeps_the_two_sections (VStr "switchmap")
           settings_and_cores);
    reflexivity.
Defined.

(** X2: the merge loop has no working branch for a list outside
    [main]/[hostnames] and [snmp_groups]: when the configuration files
    hold a top-level list under another key, a list in [main] under
    another setting, or a mapping with entries under a key other than
    [main], the constructor raises, whatever else the files hold. *)
Theorem stray_lists_make_the_constructor_raise username directory_dict :
  is_list username = false ->
  stray_fragment directory_dict = true ->
  is_ok (_Config_init username directory_dict) = false.
Proof.
  intros Hu Hstray. unfold _Config_init.
  destruct (merge_directory_dict (seed username) directory_dict)
    as [config|e] eqn:Hrun; [|done].
  apply merge_directory_dict_seeded in Hrun as [_ Hnone];
    [|by apply seeded_seed].
  congruence.
Qed.

Lemma stray_lists_make_the_constructor_raise_witness :
  is_list (VStr "switchmap") = false /\
  stray_fragment fragment_stray_list = true /\
  is_ok (_Config_init (VStr "switchmap") fragment_stray_list) = false.
Proof.
  split; [reflexivity|]. split; [reflexivity|].
  apply (stray_lists_make_the_constructor_raise (VStr "switchmap")
           fragment_stray_list);
    reflexivity.
Defined.

(** *** Merging a fragment twice *)

Lemma dict_set_same k v d : dict_get k d = Some v -> dict_set k v d = d.
Proof.
  induction d as [|[k' v'] d IH]; [done|]. cbn [dict_get dict_set].
  destruct (String.eqb k' k) eqn:Hk.
  - apply String.eqb_eq in Hk. by intros [= ->]; subst.
  - intros H. by rewrite IH.
Qed.

Lemma keep_new_prefix key found : forall acc,
  exists added, keep_new key acc found = acc ++ added.
Proof.
  induction found as [|x rest IH]; intros acc; cbn [keep_new].
  - exists []. by rewrite app_nil_r.
  - destruct (shares key acc x); [apply IH|].
    destruct (IH (acc ++ [x])) as (added & ->).
    exists (x :: added). by rewrite <- app_assoc.
Qed.

(** Every item met is shared by the list that results. *)
Lemma keep_new_shares key found : forall acc x,
  keyed key found -> In x found ->
  shares key (keep_new key acc found) x = true.
Proof.
  induction found as [|y rest IH]; intros acc x Hkeyed Hin; [done|].
  inversion Hkeyed as [|? ? Hy Hrest]; subst. cbn [keep_new].
  destruct Hin as [->|Hin].
  - destruct (shares key acc x) eqn:Hs.
    + destruct (keep_new_prefix key rest acc) as (added & ->).
      by rewrite shares_app, Hs.
    + destruct (keep_new_prefix key rest (acc ++ [x])) as (added & ->).
      rewrite !shares_app, shares_one, py_eq_scalar_refl by done.
      by rewrite orb_true_r.
  - destruct (shares key acc y); by apply IH.
Qed.

(** A list that shares every item of [found] takes none of them. *)
Lemma keep_new_absorbed key found : forall acc,
  (forall x, In x found -> shares key acc x = true) ->
  keep_new key acc found = acc.
Proof.
  induction found as [|x rest IH]; intros acc Hall; [done|].
  cbn [keep_new]. rewrite Hall by by left.
  apply IH. intros y Hy. apply Hall. by right.
Qed.

Lemma keep_new_twice key acc found :
  keyed key found ->
  keep_new key (keep_new key acc found) found = keep_new key acc found.
Proof.
  intros Hkeyed. apply keep_new_absorbed. intros x Hx.
  by apply keep_new_shares.
Qed.

Lemma fold_left_absorbed {A B} (f : A -> B -> A) l a :
  (forall b, In b l -> f a b = a) -> fold_left f l a = a.
Proof.
  induction l as [|b l IH]; intros Hall; [done|].
  cbn [fold_left]. rewrite Hall by by left.
  apply IH. intros b' Hb'. apply Hall. by right.
Qed.

(** The merge of a well-formed [main] section, computed. *)
Lemma merge_sub_key_computed m G H kv :
  dict_get "hostnames" m = Some (VList H) ->
  wf_sub_key kv = true ->
  merge_sub_key "main" (two_sections m G) kv
    = Ok (two_sections (merged_setting m kv) G) /\
  exists H', dict_get "hostnames" (merged_setting m kv) = Some (VList H').
Proof.
  intros Hm Hwf. destruct kv as [k v]. unfold wf_sub_key in Hwf.
  cbn [fst snd] in Hwf. unfold merge_sub_key, merged_setting. cbn [fst snd].
  assert (forall x, store (two_sections m G) "main" k x
                    = Ok (two_sections (dict_set k x m) G)) as Hstore by done.
  assert (is_list v = false ->
          exists H', dict_get "hostnames" (dict_set k v m) = Some (VList H'))
    as Hkeep.
  { intros Hv. exists H. rewrite dict_get_set_ne; [done|].
    intros <-. destruct v; try done; by rewrite String.eqb_refl in Hwf. }
  destruct v as [| | | |l|d]; try (split; [apply Hstore|by apply Hkeep]).
  apply andb_true_iff in Hwf as [Hk _]. rewrite Hk.
  apply String.eqb_eq in Hk. subst k. rewrite Hm.
  unfold two_sections at 1. cbn [getitem dict_get String.eqb Ascii.eqb Bool.eqb res_bind].
  rewrite Hm. cbn [res_bind]. rewrite add_hostnames_list. cbn [res_bind].
  split; [apply Hstore|]. eexists. apply dict_get_set_eq.
Qed.

Lemma merge_sub_keys_computed sub : forall m G H,
  dict_get "hostnames" m = Some (VList H) ->
  forallb wf_sub_key sub = true ->
  foldM (merge_sub_key "main") (two_sections m G) sub
    = Ok (two_sections (fold_left merged_setting sub m) G) /\
  exists H', dict_get "hostnames" (fold_left merged_setting sub m)
             = Some (VList H').
Proof.
  induction sub as [|kv rest IH]; intros m G H Hm Hwf.
  - split; [done|]. by exists H.
  - cbn [forallb] in Hwf. apply andb_true_iff in Hwf as [Hkv Hrest].
    destruct (merge_sub_key_computed m G H kv Hm Hkv) as (Hstep & H' & Hm').
    cbn [foldM fold_left]. rewrite Hstep. cbn [res_bind].
    by apply (IH _ G H').
Qed.

Lemma merge_snmp_groups_computed items : forall m G,
  all_named G -> all_named items ->
  foldM (merge_snmp_group "snmp_groups") (two_sections m G) items
    = Ok (two_sections m (keep_new group_name G items)).
Proof.
  induction items as [|item rest IH]; intros m G HG Hitems; [done|].
  inversion Hitems as [|? ? Hitem Hrest]; subst.
  cbn [foldM keep_new]. unfold merge_snmp_group at 1.
  unfold two_sections at 1.
  cbn [getitem dict_get String.eqb Ascii.eqb Bool.eqb res_bind].
  rewrite _snmp_group_found_named by done. cbn [res_bind].
  destruct (shares group_name G item).
  - by apply IH.
  - cbn [py_append res_bind setitem dict_set String.eqb Ascii.eqb Bool.eqb].
    apply IH; [|done]. apply Forall_app. split; [done|]. by constructor.
Qed.

Lemma merge_file_key_computed m G H kv :
  dict_get "hostnames" m = Some (VList H) -> all_named G ->
  wf_file_key kv = true ->
  merge_file_key (two_sections m G) kv
    = Ok (two_sections (fst (merged_section (m, G) kv))
            (snd (merged_section (m, G) kv))) /\
  (exists H', dict_get "hostnames" (fst (merged_section (m, G) kv))
              = Some (VList H')) /\
  all_named (snd (merged_section (m, G) kv)).
Proof.
  intros Hm HG Hwf. destruct kv as [fk fv]. unfold wf_file_key in Hwf.
  cbn [fst snd] in Hwf. unfold merge_file_key, merged_section. cbn [fst snd].
  destruct fv as [| | | |items|sub]; try (split; [done|]; split; [by exists H|done]).
  - apply andb_true_iff in Hwf as [Hk Hitems]. rewrite Hk.
    apply String.eqb_eq in Hk. subst fk.
    assert (all_named items) as Hnamed.
    { apply List.Forall_forall. intros g Hg.
      by apply (proj1 (forallb_forall _ _) Hitems). }
    rewrite merge_snmp_groups_computed by done.
    split; [done|]. split; [by exists H|]. by apply keep_new_named.
  - apply andb_true_iff in Hwf as [Hk Hsub].
    apply String.eqb_eq in Hk. subst fk.
    destruct (merge_sub_keys_computed sub m G H Hm Hsub) as (-> & HH').
    by split.
Qed.

Lemma merge_directory_dict_computed fragment : forall m G H,
  dict_get "hostnames" m = Some (VList H) -> all_named G ->
  wf_fragment fragment = true ->
  merge_directory_dict (two_sections m G) fragment
    = Ok (two_sections (fst (fold_left merged_section fragment (m, G)))
            (snd (fold_left merged_section fragment (m, G)))) /\
  (exists H', dict_get "hostnames"
                (fst (fold_left merged_section fragment (m, G)))
              = Some (VList H')) /\
  all_named (snd (fold_left merged_section fragment (m, G))).
Proof.
  unfold merge_directory_dict, wf_fragment.
  induction fragment as [|kv rest IH]; intros m G H Hm HG Hwf.
  - split; [done|]. split; [by exists H|done].
  - cbn [forallb] in Hwf. apply andb_true_iff in Hwf as [Hkv Hrest].
    destruct (merge_file_key_computed m G H kv Hm HG Hkv)
      as (Hstep & (H' & Hm') & HG').
    cbn [foldM fold_left]. rewrite Hstep. cbn [res_bind].
    destruct (merged_section (m, G) kv) as [m1 G1]. cbn [fst snd] in *.
    by apply (IH m1 G1 H').
Qed.

(** A well-formed entry changes the setting it names and no other. *)
Lemma merged_setting_frame m kv k :
  wf_sub_key kv = true -> fst kv <> k ->
  dict_get k (merged_setting m kv) = dict_get k m.
Proof.
  destruct kv as [k0 v]. unfold wf_sub_key, merged_setting. cbn [fst snd].
  intros Hwf Hk.
  destruct v as [| | | |l|d]; try (rewrite dict_get_set_ne; [done|congruence]).
  apply andb_true_iff in Hwf as [Hk0 _]. apply String.eqb_eq in Hk0. subst k0.
  destruct (dict_get "hostnames" m) as [[| | | |H|]|]; try done.
  rewrite dict_get_set_ne; [done|congruence].
Qed.

Lemma merged_settings_frame sub : forall m k,
  forallb wf_sub_key sub = true -> ~ In k (map fst sub) ->
  dict_get k (fold_left merged_setting sub m) = dict_get k m.
Proof.
  induction sub as [|kv rest IH]; intros m k Hwf Hk; [done|].
  cbn [forallb] in Hwf. apply andb_true_iff in Hwf as [Hkv Hrest].
  cbn [fold_left]. rewrite IH; [|done|].
  - apply merged_setting_frame; [done|]. intros <-. apply Hk. by left.
  - intros Hin. apply Hk. by right.
Qed.

(** After the merge of a section with distinct keys, a setting given as
    anything but a list has the value given. *)
Lemma merged_settings_get sub : forall m k v,
  NoDup (map fst sub) -> forallb wf_sub_key sub = true ->
  In (k, v) sub -> is_list v = false ->
  dict_get k (fold_left merged_setting sub m) = Some v.
Proof.
  induction sub as [|kv rest IH]; intros m k v Hnodup Hwf Hin Hv; [done|].
  cbn [forallb] in Hwf. apply andb_true_iff in Hwf as [Hkv Hrest].
  apply NoDup_cons in Hnodup as [Hfresh Hnodup]. cbn [fold_left].
  destruct Hin as [->|Hin].
  - rewrite merged_settings_frame; [|done|].
    + unfold merged_setting. cbn [fst snd].
      destruct v; try done; apply dict_get_set_eq.
    + intros Hin. apply Hfresh. by apply list_elem_of_In.
  - by apply IH.
Qed.

(** And [hostnames] is the list before it, grown by the hostnames given. *)
Lemma merged_settings_hostnames sub : forall m H k l,
  NoDup (map fst sub) -> forallb wf_sub_key sub = true ->
  dict_get "hostnames" m = Some (VList H) ->
  In (k, VList l) sub ->
  k = "hostnames" /\
  dict_get "hostnames" (fold_left merged_setting sub m)
    = Some (VList (keep_new id H l)).
Proof.
  induction sub as [|kv rest IH]; intros m H k l Hnodup Hwf Hm Hin; [done|].
  cbn [forallb] in Hwf. apply andb_true_iff in Hwf as [Hkv Hrest].
  apply NoDup_cons in Hnodup as [Hfresh Hnodup]. cbn [fold_left].
  destruct Hin as [->|Hin].
  - unfold wf_sub_key in Hkv. cbn [fst snd] in Hkv.
    apply andb_true_iff in Hkv as [Hk _]. apply String.eqb_eq in Hk. subst k.
    split; [done|]. rewrite merged_settings_frame; [|done|].
    + unfold merged_setting. cbn [fst snd]. rewrite Hm.
      apply dict_get_set_eq.
    + intros Hin. apply Hfresh. by apply list_elem_of_In.
  - assert (k = "hostnames") as ->.
    { apply (proj1 (forallb_forall _ _) Hrest) in Hin.
      unfold wf_sub_key in Hin. cbn [fst snd] in Hin.
      apply andb_true_iff in Hin as [Hk _]. by apply String.eqb_eq in Hk. }
    eapply IH; [done|done| |exact Hin].
    rewrite merged_setting_frame; [done|done|].
    intros Hk. apply Hfresh. rewrite Hk. apply list_elem_of_In.
    apply in_map_iff. by exists ("hostnames", VList l).
Qed.

Lemma wf_sub_key_scalars k l :
  wf_sub_key (k, VList l) = true -> keyed id l.
Proof.
  unfold wf_sub_key. cbn [fst snd]. intros Hwf.
  apply andb_true_iff in Hwf as [_ Hl]. apply List.Forall_forall.
  intros x Hx. by apply (proj1 (forallb_forall _ _) Hl).
Qed.

(** Merging a section with distinct keys a second time changes nothing. *)
Lemma merged_settings_twice sub m H :
  NoDup (map fst sub) -> forallb wf_sub_key sub = true ->
  dict_get "hostnames" m = Some (VList H) ->
  fold_left merged_setting sub (fold_left merged_setting sub m)
    = fold_left merged_setting sub m.
Proof.
  intros Hnodup Hwf Hm. apply fold_left_absorbed. intros [k v] Hin.
  pose proof (proj1 (forallb_forall _ _) Hwf _ Hin) as Hkv.
  destruct (is_list v) eqn:Hv.
  - destruct v as [| | | |l|d]; try done.
    destruct (merged_settings_hostnames sub m H k l Hnodup Hwf Hm Hin)
      as [-> Hget].
    unfold merged_setting at 1. cbn [fst snd]. rewrite Hget.
    rewrite keep_new_twice by by eapply wf_sub_key_scalars.
    by apply dict_set_same.
  - pose proof (merged_settings_get sub m k v Hnodup Hwf Hin Hv) as Hget.
    unfold merged_setting at 1. cbn [fst snd].
    destruct v; try done; by apply dict_set_same.
Qed.

(** Entries that are not mappings leave the settings alone, entries that
    are not lists the groups. *)
Lemma merged_sections_settings fragment : forall mG,
  (forall fk sub, ~ In (fk, VDict sub) fragment) ->
  fst (fold_left merged_section fragment mG) = fst mG.
Proof.
  induction fragment as [|[fk fv] rest IH]; intros mG Hnone; [done|].
  cbn [fold_left]. rewrite IH.
  - unfold merged_section. cbn [snd].
    destruct fv; try done. exfalso. eapply Hnone. by left.
  - intros fk' sub Hin. eapply Hnone. right. exact Hin.
Qed.

Lemma merged_sections_groups fragment : forall mG,
  (forall fk items, ~ In (fk, VList items) fragment) ->
  snd (fold_left merged_section fragment mG) = snd mG.
Proof.
  induction fragment as [|[fk fv] rest IH]; intros mG Hnone; [done|].
  cbn [fold_left]. rewrite IH.
  - unfold merged_section. cbn [snd].
    destruct fv; try done. exfalso. eapply Hnone. by left.
  - intros fk' items Hin. eapply Hnone. right. exact Hin.
Qed.

Lemma wf_mapping_is_main fragment fk sub :
  wf_fragment fragment = true -> In (fk, VDict sub) fragment ->
  fk = "main" /\ forallb wf_sub_key sub = true.
Proof.
  intros Hwf Hin. apply (proj1 (forallb_forall _ _) Hwf) in Hin.
  unfold wf_file_key in Hin. cbn [fst snd] in Hin.
  apply andb_true_iff in Hin as [Hk ?]. by apply String.eqb_eq in Hk.
Qed.

Lemma wf_list_is_groups fragment fk items :
  wf_fragment fragment = true -> In (fk, VList items) fragment ->
  fk = "snmp_groups" /\ all_named items.
Proof.
  intros Hwf Hin. apply (proj1 (forallb_forall _ _) Hwf) in Hin.
  unfold wf_file_key in Hin. cbn [fst snd] in Hin.
  apply andb_true_iff in Hin as [Hk Hitems]. apply String.eqb_eq in Hk.
  split; [done|]. apply List.Forall_forall. intros g Hg.
  by apply (proj1 (forallb_forall _ _) Hitems).
Qed.

(** With distinct keys, the settings after a fragment are those after its
    one mapping, and the groups those after its one list. *)
Lemma merged_sections_main fragment : forall mG fk sub,
  NoDup (map fst fragment) -> wf_fragment fragment = true ->
  In (fk, VDict sub) fragment ->
  fst (fold_left merged_section fragment mG)
    = fold_left merged_setting sub (fst mG).
Proof.
  induction fragment as [|kv rest IH]; intros mG fk sub Hnodup Hwf Hin; [done|].
  pose proof (wf_mapping_is_main _ _ _ Hwf Hin) as [-> _].
  assert (wf_file_key kv = true /\ wf_fragment rest = true) as [Hkv Hrest].
  { unfold wf_fragment in *. cbn [forallb] in Hwf.
    by apply andb_true_iff in Hwf. }
  cbn [map] in Hnodup. apply NoDup_cons in Hnodup as [Hfresh Hnodup].
  cbn [fold_left]. destruct Hin as [->|Hin].
  - rewrite merged_sections_settings; [done|].
    intros fk' sub' Hin'.
    pose proof (wf_mapping_is_main _ _ _ Hrest Hin') as [-> _].
    apply Hfresh. apply list_elem_of_In, in_map_iff.
    by exists ("main", VDict sub').
  - rewrite (IH _ "main" sub) by done. f_equal.
    destruct kv as [k v]. unfold merged_section. cbn [fst snd].
    destruct v; try done.
    exfalso. unfold wf_file_key in Hkv. cbn [fst snd] in Hkv.
    apply andb_true_iff in Hkv as [Hk _]. apply String.eqb_eq in Hk. subst k.
    apply Hfresh. apply list_elem_of_In, in_map_iff.
    by exists ("main", VDict sub).
Qed.

Lemma merged_sections_list fragment : forall mG fk items,
  NoDup (map fst fragment) -> wf_fragment fragment = true ->
  In (fk, VList items) fragment ->
  snd (fold_left merged_section fragment mG)
    = keep_new group_name (snd mG) items.
Proof.
  induction fragment as [|kv rest IH]; intros mG fk items Hnodup Hwf Hin;
    [done|].
  pose proof (wf_list_is_groups _ _ _ Hwf Hin) as [-> _].
  assert (wf_file_key kv = true /\ wf_fragment rest = true) as [Hkv Hrest].
  { unfold wf_fragment in *. cbn [forallb] in Hwf.
    by apply andb_true_iff in Hwf. }
  cbn [map] in Hnodup. apply NoDup_cons in Hnodup as [Hfresh Hnodup].
  cbn [fold_left]. destruct Hin as [->|Hin].
  - rewrite merged_sections_groups; [done|].
    intros fk' items' Hin'.
    pose proof (wf_list_is_groups _ _ _ Hrest Hin') as [-> _].
    apply Hfresh. apply list_elem_of_In, in_map_iff.
    by exists ("snmp_groups", VList items').
  - rewrite (IH _ "snmp_groups" items) by done. f_equal.
    destruct kv as [k v]. unfold merged_section. cbn [fst snd].
    destruct v; try done.
    exfalso. unfold wf_file_key in Hkv. cbn [fst snd] in Hkv.
    apply andb_true_iff in Hkv as [Hk _]. apply String.eqb_eq in Hk. subst k.
    apply Hfresh. apply list_elem_of_In, in_map_iff.
    by exists ("snmp_groups", VList items).
Qed.

(** Merging a fragment with the keys of a dictionary a second time changes
    nothing. *)
Lemma merged_sections_twice fragment m G H :
  dict_like fragment -> wf_fragment fragment = true ->
  dict_get "hostnames" m = Some (VList H) ->
  fold_left merged_section fragment (fold_left merged_section fragment (m, G))
    = fold_left merged_section fragment (m, G).
Proof.
  intros [Hnodup Hsubs] Hwf Hm. apply fold_left_absorbed. intros [fk fv] Hin.
  unfold merged_section at 1. cbn [snd].
  destruct fv as [| | | |items|sub]; try done.
  - pose proof (wf_list_is_groups _ _ _ Hwf Hin) as [-> Hitems].
    pose proof (merged_sections_list fragment (m, G) _ items Hnodup Hwf Hin)
      as Hlist.
    cbn [snd] in Hlist. rewrite Hlist at 1.
    rewrite keep_new_twice by by apply all_named_keyed.
    rewrite <- Hlist.
    by destruct (fold_left merged_section fragment (m, G)).
  - pose proof (wf_mapping_is_main _ _ _ Hwf Hin) as [-> Hsub].
    pose proof (merged_sections_main fragment (m, G) _ sub Hnodup Hwf Hin)
      as Hmain.
    cbn [fst] in Hmain. rewrite Hmain at 1.
    rewrite (merged_settings_twice sub m H); [|by eapply Hsubs|done|done].
    rewrite <- Hmain.
    by destruct (fold_left merged_section fragment (m, G)).
Qed.

Lemma mapping_entry_or_none (fragment : list (string * value)) :
  (exists fk sub, In (fk, VDict sub) fragment) \/
  (forall fk sub, ~ In (fk, VDict sub) fragment).
Proof.
  induction fragment as [|[fk fv] rest [(fk' & sub & Hin)|Hnone]].
  - right. by intros ? ? [].
  - left. exists fk', sub. by right.
  - destruct fv as [| | | |items|sub];
      try (right; intros fk' sub' [[=]|Hin]; by eapply Hnone).
    left. exists fk, sub. by left.
Qed.

Lemma one_value_per_key {A} (l : list (string * A)) k v v' :
  NoDup (map fst l) -> In (k, v) l -> In (k, v') l -> v = v'.
Proof.
  induction l as [|[k0 v0] l IH]; [done|]. cbn [map fst].
  intros Hnd Hin Hin'. inversion Hnd as [|? ? Hk0 Hl]; subst.
  destruct Hin as [Hin|Hin], Hin' as [Hin'|Hin'].
  - congruence.
  - injection Hin as -> ->. exfalso. apply Hk0.
    apply list_elem_of_In. exact (in_map fst _ _ Hin').
  - injection Hin' as -> ->. exfalso. apply Hk0.
    apply list_elem_of_In. exact (in_map fst _ _ Hin).
  - by apply IH.
Qed.

Lemma setting_two_sections m G k :
  setting (two_sections m G) k = getitem (VDict m) k.
Proof. done. Qed.

(** X3: for well-formed configuration files whose keys are those of a
    dictionary the constructor returns, and in its result every setting
    that the files give in [main] as anything but a list has the value of
    the files, while every setting that the files' [main] does not
    mention keeps the default of the seed. *)
Theorem file_settings_replace_seed_defaults username directory_dict :
  wf_fragment directory_dict = true -> dict_like directory_dict ->
  exists config,
    _Config_init username directory_dict = Ok config /\
    (forall sub k v,
        In ("main", VDict sub) directory_dict -> In (k, v) sub ->
        is_list v = false -> setting config k = Ok v) /\
    (forall k,
        (forall sub, In ("main", VDict sub) directory_dict ->
                     ~ In k (map fst sub)) ->
        setting config k = setting (seed username) k).
Proof.
  intros Hwf [Hkeys Hsubs]. unfold _Config_init.
  change (seed username) with (two_sections (seed_main username) seed_groups).
  destruct (merge_directory_dict_computed directory_dict (seed_main username)
              seed_groups seed_hostnames eq_refl seed_groups_named Hwf)
    as (Hrun & _). rewrite Hrun. eexists. split; [done|].
  destruct (mapping_entry_or_none directory_dict) as [(fk & sub & Hin)|Hnone].
  - destruct (wf_mapping_is_main _ _ _ Hwf Hin) as [-> Hsub].
    pose proof (merged_sections_main directory_dict
                  (seed_main username, seed_groups) _ _ Hkeys Hwf Hin) as Hmain.
    cbn [fst] in Hmain. rewrite Hmain.
    assert (forall sub', In ("main", VDict sub') directory_dict -> sub' = sub)
      as Hone.
    { intros sub' Hin'.
      assert (VDict sub' = VDict sub) as [= ->]; [|done].
      by eapply one_value_per_key. }
    split.
    + intros sub' k v Hin' Hkv Hv. apply Hone in Hin' as ->.
      rewrite setting_two_sections. cbn [getitem].
      by rewrite (merged_settings_get sub _ k v (Hsubs _ _ Hin) Hsub Hkv Hv).
    + intros k Hk. rewrite !setting_two_sections. cbn [getitem].
      by rewrite (merged_settings_frame sub _ k Hsub (Hk _ Hin)).
  - rewrite (merged_sections_settings directory_dict _ Hnone). cbn [fst].
    split; [|done]. intros sub k v Hin. by apply Hnone in Hin.
Qed.

Lemma main_and_groups_dict_like : dict_like main_and_groups.
Proof.
  split.
  - cbn. apply (bool_decide_unpack _). by vm_compute.
  - intros fk sub [H|[H|[]]]; [|discriminate H].
    injection H as _ <-. cbn. apply (bool_decide_unpack _). by vm_compute.
Defined.

Lemma file_settings_replace_seed_defaults_witness :
  wf_fragment main_and_groups = true /\ dict_like main_and_groups /\
  exists config,
    _Config_init (VStr "switchmap") main_and_groups = Ok config /\
    (forall sub k v,
        In ("main", VDict sub) main_and_groups -> In (k, v) sub ->
        is_list v = false -> setting config k = Ok v) /\
    (forall k,
        (forall sub, In ("main", VDict sub) main_and_groups ->
                     ~ In k (map fst sub)) ->
        setting config k = setting (seed (VStr "switchmap")) k).
Proof.
  split; [reflexivity|]. split; [exact main_and_groups_dict_like|].
  apply (file_settings_replace_seed_defaults (VStr "switchmap")
           main_and_groups);
    [reflexivity|exact main_and_groups_dict_like].
Defined.

(** X4: the merge loop is idempotent: for well-formed configuration files
    whose keys are those of a dictionary, running the loop over the same
    files a second time, on the configuration that the constructor made
    of them, leaves that configuration exactly as it is, settings,
    hostnames and groups. *)
Theorem merge_loop_is_idempotent username directory_dict :
  wf_fragment directory_dict = true -> dict_like directory_dict ->
  exists config,
    _Config_init username directory_dict = Ok config /\
    merge_directory_dict config directory_dict = Ok config.
Proof.
  intros Hwf Hdict. unfold _Config_init.
  change (seed username) with (two_sections (seed_main username) seed_groups).
  destruct (merge_directory_dict_computed directory_dict (seed_main username)
              seed_groups seed_hostnames eq_refl seed_groups_named Hwf)
    as (Hstep & (H1 & Hm1) & HG1).
  rewrite Hstep. eexists. split; [done|].
  set (mG := fold_left merged_section directory_dict
               (seed_main username, seed_groups)) in *.
  destruct (merge_directory_dict_computed directory_dict (fst mG) (snd mG) H1
              Hm1 HG1 Hwf) as (Hstep2 & _).
  rewrite Hstep2.
  replace (fst mG, snd mG) with mG by by destruct mG.
  subst mG.
  by rewrite (merged_sections_twice directory_dict _ _ seed_hostnames).
Qed.

Lemma merge_loop_is_idempotent_witness :
  wf_fragment main_and_groups = true /\ dict_like main_and_groups /\
  exists config,
    _Config_init VNone main_and_groups = Ok config /\
    merge_directory_dict config main_and_groups = Ok config.
Proof.
  split; [reflexivity|]. split; [exact main_and_groups_dict_like|].
  apply (merge_loop_is_idempotent VNone main_and_groups);
    [reflexivity|exact main_and_groups_dict_like].
Defined.

(** *** [_snmp_group_found] *)

Lemma shares_exists key listing x :
  shares key listing x = true <->
  exists g, In g listing /\ py_eq (key g) (key x) = true.
Proof. unfold shares. apply existsb_exists. Qed.

(** X5: on a listing of named groups and a named item,
    [_snmp_group_found] returns, and it returns [True] exactly when some
    group of the listing has the [group_name] of the item; the other
    fields of the groups play no part. *)
Theorem snmp_group_found_iff_name_shared item listing :
  all_named listing -> named_group item = true ->
  exists found,
    _snmp_group_found item (VList listing) = Ok found /\
    (found = true <->
     exists g, In g listing /\ py_eq (group_name g) (group_name item) = true).
Proof.
  intros Hl Hi. exists (shares group_name listing item).
  split; [by apply _snmp_group_found_named|apply shares_exists].
Qed.

Lemma snmp_group_found_iff_name_shared_witness :
  all_named seed_groups /\ named_group live_group_v2 = true /\
  exists found,
    _snmp_group_found live_group_v2 (VList seed_groups) = Ok found /\
    (found = true <->
     exists g, In g seed_groups /\
               py_eq (group_name g) (group_name live_group_v2) = true).
Proof.
  split; [apply seed_groups_named|]. split; [reflexivity|].
  apply (snmp_group_found_iff_name_shared live_group_v2 seed_groups);
    [apply seed_groups_named|reflexivity].
Defined.

Lemma _snmp_group_found_from_nameless listing : forall found item d,
  all_named listing -> named_group item = true ->
  dict_get "group_name" d = None ->
  _snmp_group_found_from found item (listing ++ [VDict d]) = Raise KeyError.
Proof.
  induction listing as [|g rest IH]; intros found item d Hl Hi Hd.
  - cbn. by rewrite Hd.
  - inversion Hl as [|? ? Hg Hrest]; subst.
    cbn [app _snmp_group_found_from].
    destruct (named_group_name g Hg) as [-> _].
    destruct (named_group_name item Hi) as [-> _].
    cbn [res_bind]. by apply IH.
Qed.

(** X6: the edges of [_snmp_group_found].  On an empty listing it returns
    [False] without looking at the item, even one that has no
    [group_name].  On a listing that is not empty an item without
    [group_name] raises [KeyError].  The loop has no early exit: a group
    without [group_name] at the end of the listing raises [KeyError] even
    when a group before it has the name of the item. *)
Theorem snmp_group_found_edges :
  (forall item, _snmp_group_found item (VList []) = Ok false) /\
  (forall d g listing,
      dict_get "group_name" d = None -> named_group g = true ->
      _snmp_group_found (VDict d) (VList (g :: listing)) = Raise KeyError) /\
  (forall item listing d,
      all_named listing -> named_group item = true ->
      dict_get "group_name" d = None ->
      _snmp_group_found item (VList (listing ++ [VDict d])) = Raise KeyError).
Proof.
  split; [done|]. split.
  - intros d g listing Hd Hg. unfold _snmp_group_found.
    cbn [py_iter res_bind _snmp_group_found_from].
    destruct (named_group_name g Hg) as [-> _]. cbn. by rewrite Hd.
  - intros item listing d Hl Hi Hd. unfold _snmp_group_found.
    cbn [py_iter res_bind]. by apply _snmp_group_found_from_nameless.
Qed.

(** A listing whose first group shares the name of the item and whose last
    group has no name: the search raises. *)
Example snmp_group_found_no_early_exit :
  _snmp_group_found live_group_v2
    (VList [seed_group_v2; VDict [("snmp_version", VInt 2)]])
  = Raise KeyError.
Proof. reflexivity. Qed.

(** *** The directory scan *)

Lemma endswith_suffix s suffix :
  endswith s suffix = true <-> exists p, s = p +:+ suffix.
Proof.
  split.
  - induction s as [|c s IH]; cbn [endswith].
    + rewrite orb_false_r. intros Heq%String.eqb_eq. by exists "".
    + intros [Heq%String.eqb_eq|Hrest]%orb_true_iff; [by exists ""|].
      destruct (IH Hrest) as [p ->]. by exists (String c p).
  - intros [p ->]. induction p as [|c p IH].
    + change ("" +:+ suffix) with suffix.
      destruct suffix; cbn [endswith]; apply orb_true_iff; left;
        apply String.eqb_refl.
    + change (String c p +:+ suffix) with (String c (p +:+ suffix)).
      cbn [endswith]. rewrite IH. apply orb_true_r.
Qed.

Section Scan.
Variable isdir : string -> bool.
Variable listdir : string -> res (list string).
Variable read_yaml_files : list string -> res value.

Lemma scan_files_repeat config_directory filenames : forall valid,
  scan_files config_directory filenames valid
  = valid ++ repeat config_directory
               (length (List.filter (fun f => endswith f ".yaml") filenames)).
Proof.
  induction filenames as [|f rest IH]; intros valid; cbn [scan_files].
  - cbn. by rewrite app_nil_r.
  - rewrite IH. cbn [List.filter]. destruct (endswith f ".yaml"); [|done].
    cbn [length repeat]. by rewrite <- app_assoc.
Qed.

Lemma scan_directories_repeat directories : forall valid found,
  scan_directories isdir listdir directories valid = Ok found ->
  found = valid ++
          flat_map (fun d => if isdir d
                             then repeat d (yaml_files listdir d) else [])
            directories.
Proof.
  induction directories as [|d rest IH]; intros valid found Hrun;
    cbn [scan_directories flat_map] in *.
  - injection Hrun as <-. by rewrite app_nil_r.
  - destruct (isdir d).
    + unfold yaml_files. destruct (listdir d) as [filenames|e]; [|done].
      cbn [res_bind] in Hrun. apply IH in Hrun as ->.
      by rewrite scan_files_repeat, <- app_assoc.
    + by apply IH in Hrun.
Qed.

(** X7: the scan lists a directory once for every file in it whose name
    ends in [.yaml], not once per directory: what
    [general.read_yaml_files] receives is, for each existing directory in
    the order given, as many copies of it as it holds such files, and
    nothing for directories that do not exist.  The whole scan raises when
    [os.listdir] raises on an existing directory. *)
Theorem scan_lists_a_directory_per_yaml_file directories :
  (forall found,
      scan_directories isdir listdir directories [] = Ok found ->
      found = flat_map (fun d => if isdir d
                                 then repeat d (yaml_files listdir d) else [])
                directories) /\
  (forall d e,
      In d directories -> isdir d = true -> listdir d = Raise e ->
      is_ok (scan_directories isdir listdir directories []) = false).
Proof.
  split.
  - intros found Hrun. by apply scan_directories_repeat in Hrun.
  - intros d e Hin Hdir Hlist. generalize (@nil string).
    induction directories as [|d' rest IH]; [done|]. intros valid.
    cbn [scan_directories].
    destruct Hin as [->|Hin].
    + by rewrite Hdir, Hlist.
    + destruct (isdir d'); [|by apply IH].
      destruct (listdir d'); [|done]. cbn [res_bind]. by apply IH.
Qed.

Lemma scan_files_none config_directory filenames valid :
  (forall f, In f filenames -> endswith f ".yaml" = false) ->
  scan_files config_directory filenames valid = valid.
Proof.
  revert valid. induction filenames as [|f rest IH]; intros valid Hno; [done|].
  cbn [scan_files]. rewrite (Hno f) by by left.
  apply IH. intros f' Hf'. apply Hno. by right.
Qed.

(** X8: when no existing configuration directory holds a file whose name
    ends in [.yaml] (and every existing one can be listed), the
    constructor yields the seed unchanged and never calls
    [general.read_yaml_files]: the result is the same whatever that
    function would do. *)
Theorem no_yaml_file_gives_the_seed username directories :
  (forall d, In d directories -> isdir d = true ->
     exists filenames,
       listdir d = Ok filenames /\
       forall f, In f filenames -> endswith f ".yaml" = false) ->
  _Config_from_directories isdir listdir read_yaml_files username directories
  = Ok (seed username).
Proof.
  intros Hno. unfold _Config_from_directories.
  assert (scan_directories isdir listdir directories [] = Ok []) as ->; [|done].
  induction directories as [|d rest IH]; [done|]. cbn [scan_directories].
  destruct (isdir d) eqn:Hdir.
  - destruct (Hno d (or_introl eq_refl) Hdir) as (filenames & -> & Hfiles).
    cbn [res_bind]. rewrite scan_files_none by done.
    apply IH. intros d' Hd'. apply Hno. by right.
  - apply IH. intros d' Hd'. apply Hno. by right.
Qed.

End Scan.

Lemma no_yaml_file_gives_the_seed_witness :
  (forall d, In d ["/etc/switchmap"; "/opt/switchmap/etc"] ->
     demo_isdir d = true ->
     exists filenames,
       bare_listdir d = Ok filenames /\
       forall f, In f filenames -> endswith f ".yaml" = false) /\
  _Config_from_directories demo_isdir bare_listdir
    (fun _ => Raise OSError) (VStr "switchmap")
    ["/etc/switchmap"; "/opt/switchmap/etc"]
  = Ok (seed (VStr "switchmap")).
Proof.
  assert (forall d, In d ["/etc/switchmap"; "/opt/switchmap/etc"] ->
     demo_isdir d = true ->
     exists filenames,
       bare_listdir d = Ok filenames /\
       forall f, In f filenames -> endswith f ".yaml" = false) as Hno.
  { intros d [<-|[<-|[]]] Hdir; [|discriminate Hdir].
    exists ["config.yaml~"; "README"]. split; [reflexivity|].
    by intros f [<-|[<-|[]]]. }
  split; [exact Hno|].
  exact (no_yaml_file_gives_the_seed demo_isdir bare_listdir
           (fun _ => Raise OSError) (VStr "switchmap")
           ["/etc/switchmap"; "/opt/switchmap/etc"] Hno).
Defined.

(** A directory with two YAML files is handed over twice, a missing one
    not at all, and a backup file does not count. *)
Example scan_of_two_yaml_files :
  scan_directories demo_isdir demo_listdir
    ["/opt/switchmap/etc"; "/etc/switchmap"] []
  = Ok ["/etc/switchmap"; "/etc/switchmap"].
Proof. reflexivity. Qed.

End InstallFacts.

(** ** The poller *)

Module TopologyFacts.
Import Py Topology.
Local Open Scope io_scope.

(** *** Strings written in pieces *)

Lemma append_assoc (a b c : string) : (a +:+ b) +:+ c = a +:+ (b +:+ c).
Proof.
  induction a as [|x a IH]; [done|].
  change (String x ((a +:+ b) +:+ c) = String x (a +:+ (b +:+ c))).
  by rewrite IH.
Qed.

Lemma append_empty_r (a : string) : a +:+ "" = a.
Proof.
  induction a as [|x a IH]; [done|].
  change (String x (a +:+ "") = String x a). by rewrite IH.
Qed.

Lemma split_at_append n s : fst (split_at n s) +:+ snd (split_at n s) = s.
Proof.
  revert s. induction n as [|n IH]; intros s; [done|].
  destruct s as [|c s]; [done|]. cbn [split_at].
  specialize (IH s). destruct (split_at n s) as [a b]. cbn [fst snd] in *.
  change (String c (a +:+ b) = String c s). by rewrite IH.
Qed.

(** The pieces of a string, put together again, are the string. *)
Lemma join_pieces sizes : forall s, join (pieces sizes s) = s.
Proof.
  induction sizes as [|n rest IH]; intros s; simpl.
  - apply append_empty_r.
  - pose proof (split_at_append n s) as Hs.
    destruct (split_at n s) as [a b]. simpl in *. by rewrite IH.
Qed.

(** *** Statements and the states they leave *)

Lemma extends_refl P w : extends P w w.
Proof. exists []. by split. Qed.

Lemma extends_trans P w1 w2 w3 :
  extends P w1 w2 -> extends P w2 w3 -> extends P w1 w3.
Proof.
  intros (n1 & H1 & F1) (n2 & H2 & F2). exists (n2 ++ n1). split.
  - by rewrite H2, H1, app_assoc.
  - by apply Forall_app.
Qed.

Lemma extends_weaken (P Q : fs -> Prop) w w' :
  (forall d, P d -> Q d) -> extends P w w' -> extends Q w w'.
Proof.
  intros HPQ (news & H & F). exists news. split; [done|].
  eapply List.Forall_impl; [exact HPQ|done].
Qed.

Lemma bind_ok {A B} (m : M A) (k : A -> M B) w a w1 :
  m w = (Ok a, w1) -> bind m k w = k a w1.
Proof. intros H. unfold bind. by rewrite H. Qed.

Lemma bind_raise {A B} (m : M A) (k : A -> M B) w e w1 :
  m w = (Raise e, w1) -> bind m k w = (Raise e, w1).
Proof. intros H. unfold bind. by rewrite H. Qed.

Lemma bind_inv {A B} (m : M A) (k : A -> M B) w r w' :
  bind m k w = (r, w') ->
  (exists e, m w = (Raise e, w') /\ r = Raise e) \/
  (exists a w1, m w = (Ok a, w1) /\ k a w1 = (r, w')).
Proof.
  unfold bind. destruct (m w) as [[a|e] w1]; intros H.
  - right. by exists a, w1.
  - left. exists e. by injection H as <- <-.
Qed.

Section WithEnv.
Variable E : Env.

(** A system call either raises and changes nothing, or is carried out and
    leaves the state before it to the past. *)
Lemma sys_inv c w :
  sys E c w = (Raise OSError, w) \/
  exists d', perform c (disk w) = Some d' /\
             sys E c w = (Ok tt, {| disk := d'; past := disk w :: past w;
                                    events := events w |}).
Proof.
  unfold sys. destruct (os_refuses E c (disk w)); [by left|].
  destruct (perform c (disk w)) as [d'|]; [|by left].
  right. by exists d'.
Qed.

Lemma sys_cases c w r w' :
  sys E c w = (r, w') ->
  (r = Raise OSError /\ w' = w) \/
  exists d', perform c (disk w) = Some d' /\ r = Ok tt /\
             w' = {| disk := d'; past := disk w :: past w;
                     events := events w |}.
Proof.
  intros H. destruct (sys_inv c w) as [Hs|(d' & Hp & Hs)];
    rewrite Hs in H; injection H as <- <-; [by left|].
  right. by exists d'.
Qed.

Lemma mkdtemp_inv w r w' :
  mkdtemp E w = (r, w') ->
  (r = Raise OSError /\ w' = w) \/
  (r = Ok (mkdtemp_name E (disk w)) /\
   exists d', perform (Mkdir (mkdtemp_name E (disk w))) (disk w) = Some d' /\
              w' = {| disk := d'; past := disk w :: past w;
                      events := events w |}).
Proof.
  unfold mkdtemp. cbv zeta. intros H.
  apply bind_inv in H as [(e & Hm & ->)|([] & w1 & Hm & H)].
  - apply sys_cases in Hm as [[? ->]|(d' & _ & ? & _)]; [|done].
    left. split; [congruence|done].
  - apply sys_cases in Hm as [[? _]|(d' & Hp & _ & ->)]; [done|].
    injection H as <- <-. right. split; [done|]. by exists d'.
Qed.

Lemma extends_step (P : fs -> Prop) w d' :
  P d' ->
  extends P w {| disk := d'; past := disk w :: past w; events := events w |}.
Proof. intros HP. exists [d']. split; [done|]. by constructor. Qed.

(** Writing the pieces touches the written file only. *)
Lemma write_pieces_spec path perm old ps : forall w content r w',
  path <> perm ->
  files (disk w) !! path = Some content ->
  files (disk w) !! perm = old ->
  write_pieces E path ps w = (r, w') ->
  extends (fun d => files d !! perm = old) w w' /\
  files (disk w') !! perm = old /\
  dirs (disk w') = dirs (disk w) /\
  (r = Ok tt -> files (disk w') !! path = Some (content +:+ join ps)).
Proof.
  induction ps as [|p rest IH]; intros w content r w' Hne Hpath Hperm Hrun.
  - cbn in Hrun. injection Hrun as <- <-.
    split; [apply extends_refl|]. rewrite append_empty_r. done.
  - cbn [write_pieces] in Hrun.
    destruct (sys_inv (WriteTo path p) w) as [Hs|(d' & Hp & Hs)].
    + rewrite (bind_raise _ _ _ _ _ Hs) in Hrun. injection Hrun as <- <-.
      split; [apply extends_refl|]. done.
    + rewrite (bind_ok _ _ _ _ _ Hs) in Hrun.
      cbn [perform] in Hp. rewrite Hpath in Hp. injection Hp as <-.
      eapply IH in Hrun as (Hext & Hperm' & Hdirs & Hok); try done.
      * split; [|split; [done|split; [done|]]].
        -- eapply extends_trans; [|exact Hext].
           apply extends_step. cbn. by rewrite lookup_insert_ne.
        -- intros Hr. rewrite (Hok Hr). cbn [join fold_right].
           by rewrite append_assoc.
      * cbn. apply lookup_insert_eq.
      * cbn. by rewrite lookup_insert_ne.
Qed.

(** Provided the temporary file is not the cache file itself, every state
    the disk goes through during [_create_yaml], whether the call returns,
    raises, or is interrupted between two system calls, shows in the slot
    of the host either what was there before (the prior snapshot or no
    file) or the complete new snapshot, never a part of it; when the call
    returns, the slot holds the new snapshot and the temporary file and
    directory are gone. *)
Lemma create_yaml_slot_never_partial (self : Poller) (w : world) :
  let temp_dir := mkdtemp_name E (disk w) in
  let temp_file := temp_dir +:+ "/" +:+ hostname self +:+ ".yaml" in
  let perm_file := topology_device_file E (server_config self) (hostname self) in
  let slot := fun d : fs => files d !! perm_file in
  let complete := fun d : fs =>
    exists data,
      everything E (hostname self) (snmp_params self) = Ok data /\
      slot d = Some (dict2yaml E data) in
  temp_file <> perm_file ->
  extends (fun d => slot d = slot (disk w) \/ complete d)
    w (snd (_create_yaml E self w)) /\
  (fst (_create_yaml E self w) = Ok tt ->
   complete (disk (snd (_create_yaml E self w))) /\
   files (disk (snd (_create_yaml E self w))) !! temp_file = None /\
   temp_dir ∉ dirs (disk (snd (_create_yaml E self w)))).
Proof.
  intros temp_dir temp_file perm_file slot complete Hne.
  set (good := fun d => slot d = slot (disk w) \/ complete d).
  assert (forall w1 w2, extends (fun d => slot d = slot (disk w)) w1 w2 ->
                        extends good w1 w2) as Hweak.
  { intros w1 w2. apply extends_weaken. intros d Hd. by left. }
  destruct (_create_yaml E self w) as [r w'] eqn:Hrun. cbn [fst snd].
  unfold _create_yaml in Hrun.
  (* mkdtemp *)
  apply bind_inv in Hrun as [(e & Hm & ->)|(dir & w1 & Hm & Hrun)].
  { apply mkdtemp_inv in Hm as [[_ ->]|(? & _)]; [|done].
    split; [apply extends_refl|done]. }
  apply mkdtemp_inv in Hm as [[? _]|(Hdir & d1 & Hp1 & ->)]; [done|].
  injection Hdir as ->. fold temp_dir in Hrun.
  fold temp_file perm_file in Hrun.
  set (w1 := {| disk := d1; past := disk w :: past w; events := events w |})
    in *.
  assert (extends good w w1 /\ slot d1 = slot (disk w)) as [Hext1 Hslot1].
  { cbn [perform] in Hp1. case_decide; [done|]. injection Hp1 as <-.
    split; [|done]. apply extends_step. by left. }
  (* the first log line and the collection *)
  apply bind_inv in Hrun as [(e & Hm & ->)|([] & w2 & Hm & Hrun)]; [done|].
  injection Hm as <-.
  apply bind_inv in Hrun as [(e & Hm & ->)|(data & w2 & Hm & Hrun)].
  { injection Hm as _ <-. split; [exact Hext1|done]. }
  injection Hm as Hdata <-.
  match type of Hrun with _ ?x = _ => set (w2 := x) in * end.
  (* open *)
  apply bind_inv in Hrun as [(e & Hm & ->)|([] & w3 & Hm & Hrun)].
  { apply sys_cases in Hm as [[_ ->]|(d3 & _ & ? & _)]; [|done].
    split; [exact Hext1|done]. }
  apply sys_cases in Hm as [[? _]|(d3 & Hp3 & _ & ->)]; [done|].
  set (w3 := {| disk := d3; past := disk w2 :: past w2; events := events w2 |})
    in *.
  cbn [perform] in Hp3. injection Hp3 as Hd3.
  assert (slot d3 = slot (disk w)) as Hslot3.
  { rewrite <- Hd3. unfold slot. cbn. by rewrite lookup_insert_ne. }
  assert (extends good w w3) as Hext3.
  { eapply extends_trans; [exact Hext1|].
    apply (extends_step good w2 d3). by left. }
  (* write *)
  assert (forall r4 w4,
             write_pieces E temp_file
               (pieces (write_sizes E (dict2yaml E data)) (dict2yaml E data))
               w3 = (r4, w4) ->
             extends good w w4 /\ slot (disk w4) = slot (disk w) /\
             (r4 = Ok tt ->
              files (disk w4) !! temp_file = Some (dict2yaml E data)))
    as Hwrite.
  { intros r4 w4 Hw.
    eapply (write_pieces_spec temp_file perm_file (slot (disk w))) in Hw
      as (Hext4 & Hslot4 & _ & Hok4); [|done| |done].
    2:{ cbn. rewrite <- Hd3. cbn. apply lookup_insert_eq. }
    split; [|split; [done|]].
    - eapply extends_trans; [exact Hext3|]. by apply Hweak.
    - intros Hr. rewrite (Hok4 Hr), join_pieces. done. }
  apply bind_inv in Hrun as [(e & Hm & ->)|([] & w4 & Hm & Hrun)].
  { apply Hwrite in Hm as (? & _ & _). split; [done|done]. }
  apply Hwrite in Hm as (Hext4 & Hslot4 & Hok4). specialize (Hok4 eq_refl).
  (* the second log line and the rename *)
  apply bind_inv in Hrun as [(e & Hm & ->)|([] & w5 & Hm & Hrun)]; [done|].
  injection Hm as <-.
  match type of Hrun with _ ?x = _ => set (w5 := x) in * end.
  apply bind_inv in Hrun as [(e & Hm & ->)|([] & w6 & Hm & Hrun)].
  { apply sys_cases in Hm as [[_ ->]|(d6 & _ & ? & _)]; [|done].
    split; [exact Hext4|done]. }
  apply sys_cases in Hm as [[? _]|(d6 & Hp6 & _ & ->)]; [done|].
  set (w6 := {| disk := d6; past := disk w5 :: past w5; events := events w5 |})
    in *.
  cbn [perform] in Hp6. change (disk w5) with (disk w4) in Hp6.
  rewrite Hok4 in Hp6. injection Hp6 as Hd6.
  assert (complete d6) as Hc6.
  { exists data. split; [done|]. rewrite <- Hd6. unfold slot. cbn.
    apply lookup_insert_eq. }
  assert (extends good w w6) as Hext6.
  { eapply extends_trans; [exact Hext4|].
    apply (extends_step good w5 d6). by right. }
  (* rmdir *)
  apply sys_cases in Hrun as [[-> ->]|(d7 & Hp7 & -> & ->)].
  { split; [exact Hext6|done]. }
  cbn [perform] in Hp7. case_decide; [|done]. injection Hp7 as Hd7.
  assert (complete d7) as Hc7.
  { destruct Hc6 as (data' & ? & Hslot6). exists data'. split; [done|].
    rewrite <- Hd7. exact Hslot6. }
  split.
  - eapply extends_trans; [exact Hext6|].
    apply (extends_step good w6 d7). by right.
  - intros _. cbn [disk]. split; [done|]. rewrite <- Hd7. cbn. split.
    + rewrite <- Hd6. cbn. rewrite lookup_insert_ne by done.
      apply lookup_delete_eq.
    + apply not_elem_of_difference. right. by apply elem_of_singleton.
Qed.

(** *** What a task logs *)

Lemma sys_events c w r w' : sys E c w = (r, w') -> events w' = events w.
Proof.
  intros H. by apply sys_cases in H as [[_ ->]|(d' & _ & _ & ->)].
Qed.

Lemma write_pieces_events path ps : forall w r w',
  write_pieces E path ps w = (r, w') -> events w' = events w.
Proof.
  induction ps as [|p rest IH]; intros w r w' H.
  - by injection H as _ <-.
  - cbn [write_pieces] in H.
    apply bind_inv in H as [(e & Hm & _)|([] & w1 & Hm & H)].
    + by apply sys_events in Hm.
    + apply IH in H. apply sys_events in Hm. congruence.
Qed.

(** Whether it returns or raises, [_create_yaml] logs nothing but its
    progress lines. *)
Lemma create_yaml_events self w r w' :
  _create_yaml E self w = (r, w') ->
  exists evs, events w' = events w ++ evs /\ Forall progress_line evs.
Proof.
  unfold _create_yaml. intros Hrun.
  apply bind_inv in Hrun as [(e & Hm & ->)|(dir & w1 & Hm & Hrun)].
  { exists []. rewrite app_nil_r. split; [|done].
    by apply mkdtemp_inv in Hm as [[_ ->]|(_ & d1 & _ & ->)]. }
  assert (events w1 = events w) as Hev1
    by by apply mkdtemp_inv in Hm as [[_ ->]|(_ & d1 & _ & ->)].
  apply bind_inv in Hrun as [(e & Hm2 & ->)|([] & w2 & Hm2 & Hrun)]; [done|].
  injection Hm2 as <-. set (line1 := Log 1125 _) in *.
  assert (Forall progress_line [line1]) as Hline1.
  { constructor; [|done]. eexists. by left. }
  apply bind_inv in Hrun as [(e & Hm3 & ->)|(data & w3 & Hm3 & Hrun)].
  { injection Hm3 as _ <-. exists [line1]. cbn. by rewrite Hev1. }
  injection Hm3 as _ <-.
  apply bind_inv in Hrun as [(e & Hm4 & ->)|([] & w4 & Hm4 & Hrun)].
  { apply sys_events in Hm4. exists [line1]. rewrite Hm4. cbn.
    by rewrite Hev1. }
  apply sys_events in Hm4. cbn in Hm4.
  apply bind_inv in Hrun as [(e & Hm5 & ->)|([] & w5 & Hm5 & Hrun)].
  { apply write_pieces_events in Hm5. exists [line1].
    rewrite Hm5, Hm4. by rewrite Hev1. }
  apply write_pieces_events in Hm5.
  apply bind_inv in Hrun as [(e & Hm6 & ->)|([] & w6 & Hm6 & Hrun)]; [done|].
  injection Hm6 as <-. set (line2 := Log 1019 _) in *.
  assert (Forall progress_line [line1; line2]) as Hlines.
  { constructor; [eexists; by left|].
    constructor; [eexists; by right|done]. }
  assert (events w' = (events w ++ [line1]) ++ [line2]) as ->.
  { apply bind_inv in Hrun as [(e & Hm7 & ->)|([] & w7 & Hm7 & Hrun)].
    - apply sys_events in Hm7. rewrite Hm7. cbn. congruence.
    - apply sys_events in Hm7. apply sys_events in Hrun.
      rewrite Hrun, Hm7. cbn. congruence. }
  exists [line1; line2]. by rewrite <- app_assoc.
Qed.

(** *** The pool *)

Lemma chunked_concat {A} size fuel : forall l : list A,
  (length l <= fuel)%nat -> concat (chunked fuel size l) = l.
Proof.
  induction fuel as [|fuel IH]; intros l Hlen.
  - destruct l; [done|]. cbn in Hlen. lia.
  - destruct l as [|x l]; [done|]. cbn [chunked concat].
    rewrite IH.
    + apply take_drop.
    + rewrite length_drop. cbn in *. lia.
Qed.

Section Pool.
Variable func : string -> M unit.

Lemma run_chunk_app a b w :
  run_chunk func (a ++ b) w =
  bind (run_chunk func a) (fun _ => run_chunk func b) w.
Proof.
  revert w. induction a as [|x a IH]; intros w; [done|].
  cbn [app run_chunk]. unfold bind. cbn beta.
  destruct (func x w) as [[[]|e] w1]; [|done]. by rewrite IH.
Qed.

Lemma run_chunks_failed chunks : forall e w,
  fst (run_chunks func chunks (Some e) w) = Some e.
Proof.
  induction chunks as [|c rest IH]; intros e w; [done|].
  cbn [run_chunks]. destruct (run_chunk func c w) as [[[]|e'] w1]; apply IH.
Qed.

(** When the calls of the whole batch, taken in a row, all return, so do
    the chunks, and they leave the same world. *)
Lemma run_chunks_ok chunks : forall failure w w',
  run_chunk func (concat chunks) w = (Ok tt, w') ->
  run_chunks func chunks failure w = (failure, w').
Proof.
  induction chunks as [|c rest IH]; intros failure w w' H.
  - by injection H as <-.
  - cbn [concat] in H. rewrite run_chunk_app in H.
    apply bind_inv in H as [(e & _ & ?)|([] & w1 & Hc & H)]; [done|].
    cbn [run_chunks]. rewrite Hc. by apply IH.
Qed.

(** When one of them raises, the chunks end with a failure. *)
Lemma run_chunks_raise chunks : forall failure w e w',
  run_chunk func (concat chunks) w = (Raise e, w') ->
  exists e', fst (run_chunks func chunks failure w) = Some e'.
Proof.
  induction chunks as [|c rest IH]; intros failure w e w' H; [done|].
  cbn [concat] in H. rewrite run_chunk_app in H. cbn [run_chunks].
  apply bind_inv in H as [(e1 & Hc & _)|([] & w1 & Hc & H)]; rewrite Hc.
  - destruct failure as [e0|]; eexists; apply run_chunks_failed.
  - by eapply IH.
Qed.

Lemma pool_map_ok processes iterable w w' :
  1 <= processes ->
  run_chunk func iterable w = (Ok tt, w') ->
  pool_map E processes func iterable w = (Ok tt, w').
Proof.
  intros Hn H. unfold pool_map.
  destruct (processes <? 1) eqn:Hlt; [apply Z.ltb_lt in Hlt; lia|].
  rewrite (run_chunks_ok _ None w w'); [done|].
  by rewrite chunked_concat.
Qed.

Lemma pool_map_raise processes iterable w e w' :
  run_chunk func iterable w = (Raise e, w') ->
  is_ok (fst (pool_map E processes func iterable w)) = false.
Proof.
  intros H. unfold pool_map. destruct (processes <? 1); [done|].
  rewrite <- (chunked_concat (chunksize E) (length iterable) iterable) in H
    by done.
  eapply (run_chunks_raise _ None) in H as [e' He'].
  destruct (run_chunks _ _ _ _) as [[e0|] w1]; [done|]. by cbn in He'.
Qed.

End Pool.

(** C5: when the credentials found for a host are falsy, its task logs the
    fact and returns: it raises nothing and carries out no system call, so
    nothing is written for the host; and when the hosts before it and the
    hosts after it in the batch are polled without an exception, the cycle
    returns normally, having polled them all. *)
Theorem no_credentials_no_write (h : string) :
  truthy (credentials E h) = false ->
  (forall w, poll_single_device E h w = (Ok tt, skipped h w)) /\
  (forall pre post w w1 w2,
      hostnames E (config E) = pre ++ h :: post ->
      1 <= agent_threads E (config E) ->
      run_chunk (poll_single_device E) pre w = (Ok tt, w1) ->
      run_chunk (poll_single_device E) post (skipped h w1) = (Ok tt, w2) ->
      poll_devices E w = (Ok tt, w2)).
Proof.
  intros Hfalsy.
  assert (forall w, poll_single_device E h w = (Ok tt, skipped h w)) as Hskip.
  { intros w. unfold poll_single_device, Poller_query, Poller_init.
    cbn [snmp_params hostname]. by rewrite Hfalsy. }
  split; [exact Hskip|].
  intros pre post w w1 w2 Hhosts Hthreads Hpre Hpost.
  unfold poll_devices. rewrite Hhosts. apply pool_map_ok; [done|].
  rewrite run_chunk_app. rewrite (bind_ok _ _ _ _ _ Hpre).
  cbn [run_chunk]. by rewrite (bind_ok _ _ _ _ _ (Hskip w1)).
Qed.


(** *** The sleeps of the polling loop *)

Lemma sleeps_app evs evs' : sleeps (evs ++ evs') = sleeps evs ++ sleeps evs'.
Proof. unfold sleeps. apply flat_map_app. Qed.

Lemma sleeps_progress evs : Forall progress_line evs -> sleeps evs = [].
Proof.
  induction 1 as [|ev evs [message [-> | ->]] _ IH]; [done| |]; exact IH.
Qed.

Lemma poll_single_device_sleeps h w :
  sleeps (events (snd (poll_single_device E h w))) = sleeps (events w).
Proof.
  unfold poll_single_device, Poller_query.
  destruct (truthy (snmp_params (Poller_init E h))).
  - destruct (_create_yaml E (Poller_init E h) w) as [r w'] eqn:Hrun.
    apply create_yaml_events in Hrun as (evs & Hev & Hevs). cbn [snd].
    by rewrite Hev, sleeps_app, (sleeps_progress evs Hevs), app_nil_r.
  - cbn. by rewrite sleeps_app, app_nil_r.
Qed.

Lemma run_chunk_sleeps chunk : forall w,
  sleeps (events (snd (run_chunk (poll_single_device E) chunk w)))
  = sleeps (events w).
Proof.
  induction chunk as [|h rest IH]; intros w; [done|].
  cbn [run_chunk]. unfold bind.
  pose proof (poll_single_device_sleeps h w) as Hh.
  destruct (poll_single_device E h w) as [[[]|e] w1]; cbn [snd] in *.
  - by rewrite IH.
  - done.
Qed.

Lemma run_chunks_sleeps chunks : forall failure w,
  sleeps (events (snd (run_chunks (poll_single_device E) chunks failure w)))
  = sleeps (events w).
Proof.
  induction chunks as [|chunk rest IH]; intros failure w; [done|].
  cbn [run_chunks].
  pose proof (run_chunk_sleeps chunk w) as Hc.
  destruct (run_chunk (poll_single_device E) chunk w) as [[[]|e] w1];
    cbn [snd] in *; by rewrite IH.
Qed.

Lemma poll_devices_sleeps w :
  sleeps (events (snd (poll_devices E w))) = sleeps (events w).
Proof.
  unfold poll_devices, pool_map.
  destruct (agent_threads E (config E) <? 1); [done|].
  pose proof (run_chunks_sleeps
                (chunked (length (hostnames E (config E))) (chunksize E)
                   (hostnames E (config E))) None w) as Hc.
  by destruct (run_chunks _ _ _ _) as [[e|] w1].
Qed.

(** Whatever the environment, the loop sleeps 3600 seconds after each cycle
    that it completes. *)
Lemma query_sleeps self cycles : forall w,
  exists completed,
    (completed <= cycles)%nat /\
    sleeps (events (snd (PollingAgent_query E cycles self w)))
      = sleeps (events w) ++ repeat (name self, 3600) completed /\
    (fst (PollingAgent_query E cycles self w) = Ok tt -> completed = cycles).
Proof.
  induction cycles as [|cycles IH]; intros w.
  - exists 0%nat. cbn. by rewrite app_nil_r.
  - destruct (PollingAgent_query E (S cycles) self w) as [r w'] eqn:Hrun.
    cbn [PollingAgent_query] in Hrun. cbn [fst snd].
    pose proof (poll_devices_sleeps w) as Hp.
    apply bind_inv in Hrun as [(e & Hm & ->)|([] & w1 & Hm & Hrun)];
      rewrite Hm in Hp; cbn [snd] in Hp.
    { exists 0%nat. cbn [repeat]. rewrite app_nil_r. split; [lia|]. by split. }
    apply bind_inv in Hrun as [(e & Hm2 & ->)|([] & w2 & Hm2 & Hrun)];
      [done|].
    injection Hm2 as <-.
    match type of Hrun with _ ?x = _ => set (w2 := x) in * end.
    destruct (IH w2) as (k & Hk & Hs & Hok). rewrite Hrun in Hs, Hok.
    cbn [fst snd] in Hs, Hok.
    exists (S k). split; [lia|]. split.
    + rewrite Hs. subst w2. cbn [events]. rewrite sleeps_app, Hp.
      cbn [sleeps flat_map app repeat]. by rewrite <- app_assoc.
    + intros Hr. by rewrite (Hok Hr).
Qed.

End WithEnv.

(** *** The small installation *)

(** In the small installation the write of [sw1] returns and leaves the
    snapshot in the cache and nothing in the temporary directory. *)
Example create_yaml_sw1 :
  let E := demo_env None false in
  let w' := snd (_create_yaml E (Poller_init E "sw1") empty_cache) in
  fst (_create_yaml E (Poller_init E "sw1") empty_cache) = Ok tt /\
  map_to_list (files (disk w')) = [("/cache/sw1.yaml", "hostname: sw1")] /\
  elements (dirs (disk w')) = ["/cache"].
Proof. by vm_compute. Qed.

(** While [sw1] is written, a part of the snapshot is on the disk, in the
    temporary directory, and the slot of the host is still empty. *)
Example partial_file_only_in_scratch :
  let E := demo_env None false in
  let w' := snd (_create_yaml E (Poller_init E "sw1") empty_cache) in
  exists d,
    In d (observable w') /\
    files d !! "/tmp/tmp0/sw1.yaml" = Some "host" /\
    files d !! "/cache/sw1.yaml" = None.
Proof.
  cbv zeta.
  exists {| files := {["/tmp/tmp0/sw1.yaml" := "host"]};
            dirs := {["/tmp/tmp0"]} ∪ {["/cache"]} |}.
  split; [|by vm_compute].
  do 3 right. left. by vm_compute.
Qed.

Lemma no_credentials_no_write_witness :
  let E := demo_env None false in
  truthy (credentials E "None") = false /\
  (forall w, poll_single_device E "None" w = (Ok tt, skipped "None" w)) /\
  (forall pre post w w1 w2,
      hostnames E (config E) = pre ++ "None" :: post ->
      1 <= agent_threads E (config E) ->
      run_chunk (poll_single_device E) pre w = (Ok tt, w1) ->
      run_chunk (poll_single_device E) post (skipped "None" w1) = (Ok tt, w2) ->
      poll_devices E w = (Ok tt, w2)).
Proof.
  cbv zeta. split; [reflexivity|].
  apply (no_credentials_no_write (demo_env None false) "None"). reflexivity.
Defined.

(** In the small installation the two placeholder hosts have no
    credentials: the cycle returns, writes the two switches and logs the
    two skips. *)
Example cycle_with_skipped_hosts :
  let E := demo_env None false in
  hostnames E (config E) = ["None"; "None"; "sw1"; "sw2"] /\
  fst (poll_devices E empty_cache) = Ok tt /\
  map_to_list (files (disk (snd (poll_devices E empty_cache)))) =
    [("/cache/sw1.yaml", "hostname: sw1"); ("/cache/sw2.yaml", "hostname: sw2")].
Proof. by vm_compute. Qed.

(** C8, evaluated where it fails: the effective configuration of the small
    installation sets [polling_interval] to 60, and the polling loop sleeps
    3600 seconds after each of its cycles.  It does so in every
    environment, whatever the configuration holds: the delay of
    [PollingAgent.query] is the constant 3600. *)
Theorem polling_interval_is_ignored :
  let E := demo_env None false in
  main_setting (config E) "polling_interval" = Ok (VInt 60) /\
  fst (PollingAgent_query E 2 (PollingAgent_init E) empty_cache) = Ok tt /\
  sleeps (events (snd (PollingAgent_query E 2 (PollingAgent_init E) empty_cache)))
    = [("topology", 3600); ("topology", 3600)] /\
  (forall (E0 : Env) cycles w,
      exists completed,
        (completed <= cycles)%nat /\
        sleeps (events (snd (PollingAgent_query E0 cycles
                               (PollingAgent_init E0) w)))
          = sleeps (events w) ++ repeat ("topology", 3600) completed /\
        (fst (PollingAgent_query E0 cycles (PollingAgent_init E0) w) = Ok tt ->
         completed = cycles)).
Proof.
  cbv zeta. split; [by vm_compute|]. split; [by vm_compute|].
  split; [by vm_compute|].
  intros E0 cycles w. apply (query_sleeps E0 (PollingAgent_init E0)).
Qed.

(** *** The system calls of a snapshot *)

Section Calls.
Variable E : Env.

Lemma carry_app a : forall b seen,
  carry (a ++ b) seen
  = match carry a seen with Some seen' => carry b seen' | None => None end.
Proof.
  induction a as [|c a IH]; intros b seen; cbn [app carry].
  - by destruct seen.
  - destruct seen as [|d past]; [done|]. destruct (perform c d); [apply IH|done].
Qed.

Lemma carry_snoc a c seen seen' d' :
  carry a seen = Some (d' :: seen') ->
  forall d'', perform c d' = Some d'' ->
  carry (a ++ [c]) seen = Some (d'' :: d' :: seen').
Proof. intros Ha d'' Hc. rewrite carry_app, Ha. cbn. by rewrite Hc. Qed.

(** What every call keeps is kept by all of them, in every state on the
    way. *)
Lemma carry_invariant (P : fs -> Prop) calls : forall d past seen',
  (forall c d1 d2, In c calls -> P d1 -> perform c d1 = Some d2 -> P d2) ->
  P d -> carry calls (d :: past) = Some seen' ->
  exists news d' past',
    seen' = news ++ d :: past /\ Forall P news /\
    seen' = d' :: past' /\ P d'.
Proof.
  induction calls as [|c calls IH]; intros d past seen' Hkeep Hd Hrun.
  - injection Hrun as <-. by exists [], d, past.
  - cbn [carry] in Hrun. destruct (perform c d) as [d1|] eqn:Hc; [|done].
    assert (P d1) as Hd1 by (eapply Hkeep; [by left|done..]).
    eapply IH in Hrun as (news & d' & past' & -> & Hnews & Heq & Hd');
      [|intros; eapply Hkeep; [by right|done..]|done].
    exists (news ++ [d1]), d', past'.
    split; [by rewrite <- app_assoc|]. split; [|by split].
    apply Forall_app. split; [done|by constructor].
Qed.

Lemma sys_carry c w w' :
  sys E c w = (Ok tt, w') ->
  carry [c] (observable w) = Some (observable w') /\ events w' = events w.
Proof.
  intros Hs. apply sys_cases in Hs as [[? _]|(d' & Hp & _ & ->)]; [done|].
  unfold observable. cbn. by rewrite Hp.
Qed.

Lemma write_pieces_carry path ps : forall w r w',
  write_pieces E path ps w = (r, w') ->
  exists done rest,
    ps = done ++ rest /\
    carry (map (WriteTo path) done) (observable w) = Some (observable w') /\
    (r = Ok tt -> rest = []) /\
    (is_ok r = false -> rest <> [] /\ r = Raise OSError).
Proof.
  induction ps as [|p ps IH]; intros w r w' Hrun.
  - injection Hrun as <- <-. by exists [], [].
  - cbn [write_pieces] in Hrun.
    apply bind_inv in Hrun as [(e & Hs & ->)|([] & w1 & Hs & Hrun)].
    + apply sys_cases in Hs as [[-> ->]|(? & _ & ? & _)]; [|done].
      exists [], (p :: ps). by repeat split.
    + apply sys_carry in Hs as [Hs _].
      apply IH in Hrun as (done & rest & -> & Hc & Hok & Hraise).
      exists (p :: done), rest. split; [done|]. split; [|done].
      change (map (WriteTo path) (p :: done))
        with ([WriteTo path p] ++ map (WriteTo path) done).
      by rewrite carry_app, Hs.
Qed.

(** [_create_yaml] carries out a first part of its calls, all of them when
    it returns; what it raises is an [OSError] or the exception of the
    collection. *)
Lemma create_yaml_carry self w r w' :
  _create_yaml E self w = (r, w') ->
  exists done rest,
    create_yaml_calls E self (disk w) = done ++ rest /\
    carry done (observable w) = Some (observable w') /\
    (done = [] -> w' = w) /\
    (r = Ok tt ->
     rest = [] /\ is_ok (everything E (hostname self) (snmp_params self)) = true) /\
    (forall e, r = Raise e ->
       (rest <> [] /\ e = OSError /\
        (is_ok (everything E (hostname self) (snmp_params self)) = true
         \/ done = [])) \/
       (everything E (hostname self) (snmp_params self) = Raise e /\
        done = [Mkdir (mkdtemp_name E (disk w))])).
Proof.
  intros Hrun. unfold _create_yaml in Hrun. unfold create_yaml_calls.
  set (temp_dir := mkdtemp_name E (disk w)).
  set (temp_file := temp_dir +:+ "/" +:+ hostname self +:+ ".yaml").
  set (perm_file :=
         topology_device_file E (server_config self) (hostname self)).
  (* mkdtemp *)
  apply bind_inv in Hrun as [(e & Hm & ->)|(dir & w1 & Hm & Hrun)].
  { apply mkdtemp_inv in Hm as [[[= ->] ->]|(? & _)]; [|done].
    exists [], (Mkdir temp_dir ::
                match everything E (hostname self) (snmp_params self) with
                | Ok data =>
                    OpenW temp_file ::
                    map (WriteTo temp_file)
                      (pieces (write_sizes E (dict2yaml E data))
                         (dict2yaml E data))
                    ++ [Rename temp_file perm_file; Rmdir temp_dir]
                | Raise _ => []
                end).
    split; [done|]. split; [done|]. split; [done|]. split; [done|].
    intros e [= <-]. left. split; [done|]. split; [done|]. by right. }
  apply mkdtemp_inv in Hm as [[? _]|(Hdir & d1 & Hp1 & ->)]; [done|].
  injection Hdir as ->. fold temp_dir temp_file perm_file in Hrun, Hp1.
  assert (carry [Mkdir temp_dir] (observable w)
          = Some (d1 :: disk w :: past w)) as Hc1.
  { unfold observable. cbn [carry]. by rewrite Hp1. }
  (* the first log line and the collection *)
  apply bind_inv in Hrun as [(e & Hm & ->)|([] & w2 & Hm & Hrun)]; [done|].
  injection Hm as <-.
  apply bind_inv in Hrun as [(e & Hm & ->)|(data & w2 & Hm & Hrun)].
  { injection Hm as Hdata <-. rewrite Hdata.
    exists [Mkdir temp_dir], []. split; [done|]. split; [exact Hc1|].
    split; [done|]. split; [done|]. intros e' [= <-]. by right. }
  injection Hm as Hdata <-. rewrite Hdata. cbn [is_ok].
  set (ps := pieces (write_sizes E (dict2yaml E data)) (dict2yaml E data))
    in *.
  match type of Hrun with _ ?x = _ => set (w2 := x) in * end.
  assert (observable w2 = d1 :: disk w :: past w) as Hobs2 by done.
  (* open *)
  apply bind_inv in Hrun as [(e & Hm & ->)|([] & w3 & Hm & Hrun)].
  { apply sys_cases in Hm as [[[= ->] ->]|(? & _ & ? & _)]; [|done].
    exists [Mkdir temp_dir],
      (OpenW temp_file :: map (WriteTo temp_file) ps
         ++ [Rename temp_file perm_file; Rmdir temp_dir]).
    split; [done|]. split; [by rewrite Hobs2|]. split; [done|].
    split; [done|]. intros e [= <-]. left. split; [done|]. split; [done|].
    by left. }
  apply sys_carry in Hm as [Hc3 _]. rewrite Hobs2 in Hc3.
  assert (carry [Mkdir temp_dir; OpenW temp_file] (observable w)
          = Some (observable w3)) as Hc3'.
  { change [Mkdir temp_dir; OpenW temp_file]
      with ([Mkdir temp_dir] ++ [OpenW temp_file]).
    by rewrite carry_app, Hc1. }
  clear Hc3.
  (* write *)
  apply bind_inv in Hrun as [(e & Hm & ->)|([] & w4 & Hm & Hrun)].
  { apply write_pieces_carry in Hm as (done & rest & Hps & Hc4 & _ & Hraise).
    destruct (Hraise eq_refl) as [Hrest [= ->]].
    exists ([Mkdir temp_dir; OpenW temp_file] ++ map (WriteTo temp_file) done),
      (map (WriteTo temp_file) rest
         ++ [Rename temp_file perm_file; Rmdir temp_dir]).
    split; [by rewrite Hps, map_app, <- !app_assoc|].
    split; [by rewrite carry_app, Hc3'|]. split; [done|]. split; [done|].
    intros e [= <-]. left. split; [|split; [done|by left]].
    by destruct rest. }
  apply write_pieces_carry in Hm as (done & rest & Hps & Hc4 & Hok & _).
  rewrite (Hok eq_refl), app_nil_r in Hps. subst done. clear Hok rest.
  assert (carry ([Mkdir temp_dir; OpenW temp_file]
                   ++ map (WriteTo temp_file) ps) (observable w)
          = Some (observable w4)) as Hc4'.
  { by rewrite carry_app, Hc3'. }
  clear Hc4.
  (* the second log line and the rename *)
  apply bind_inv in Hrun as [(e & Hm & ->)|([] & w5 & Hm & Hrun)]; [done|].
  injection Hm as <-.
  match type of Hrun with _ ?x = _ => set (w5 := x) in * end.
  assert (observable w5 = observable w4) as Hobs5 by done.
  apply bind_inv in Hrun as [(e & Hm & ->)|([] & w6 & Hm & Hrun)].
  { apply sys_cases in Hm as [[[= ->] ->]|(? & _ & ? & _)]; [|done].
    exists ([Mkdir temp_dir; OpenW temp_file] ++ map (WriteTo temp_file) ps),
      [Rename temp_file perm_file; Rmdir temp_dir].
    split; [by rewrite <- !app_assoc|]. split; [by rewrite Hobs5|].
    split; [done|]. split; [done|]. intros e [= <-]. left.
    split; [done|]. split; [done|]. by left. }
  apply sys_carry in Hm as [Hc6 _]. rewrite Hobs5 in Hc6.
  assert (carry (([Mkdir temp_dir; OpenW temp_file]
                    ++ map (WriteTo temp_file) ps)
                   ++ [Rename temp_file perm_file]) (observable w)
          = Some (observable w6)) as Hc6'.
  { by rewrite carry_app, Hc4'. }
  clear Hc6.
  (* rmdir *)
  destruct r as [[]|e].
  - apply sys_carry in Hrun as [Hc7 _].
    exists ((([Mkdir temp_dir; OpenW temp_file]
                ++ map (WriteTo temp_file) ps)
               ++ [Rename temp_file perm_file]) ++ [Rmdir temp_dir]), [].
    split; [by rewrite app_nil_r, <- !app_assoc|].
    split; [by rewrite carry_app, Hc6'|]. split; [done|]. split; [done|].
    intros e [=].
  - apply sys_cases in Hrun as [[[= ->] ->]|(? & _ & ? & _)]; [|done].
    exists (([Mkdir temp_dir; OpenW temp_file]
               ++ map (WriteTo temp_file) ps)
              ++ [Rename temp_file perm_file]), [Rmdir temp_dir].
    split; [by rewrite <- !app_assoc|]. split; [done|]. split; [done|].
    split; [done|]. intros e [= <-]. left. split; [done|]. split; [done|].
    by left.
Qed.

End Calls.

(** *** What a snapshot touches, leaves behind, and achieves *)

Section Snapshots.
Variable E : Env.

(** The calls of [_create_yaml] are about its temporary directory, its
    temporary file and the cache file of the host. *)
Lemma create_yaml_calls_kinds self d c :
  In c (create_yaml_calls E self d) ->
  c = Mkdir (mkdtemp_name E d) \/
  c = OpenW (temp_file_of E (hostname self) d) \/
  (exists piece, c = WriteTo (temp_file_of E (hostname self) d) piece) \/
  c = Rename (temp_file_of E (hostname self) d)
        (topology_device_file E (server_config self) (hostname self)) \/
  c = Rmdir (mkdtemp_name E d).
Proof.
  unfold create_yaml_calls, temp_file_of. intros [<-|Hin]; [by left|].
  destruct (everything E (hostname self) (snmp_params self)); [|done].
  destruct Hin as [<-|Hin]; [by right; left|].
  apply in_app_iff in Hin as [Hin|[<-|[<-|[]]]].
  - apply in_map_iff in Hin as (piece & <- & _). right. right. left.
    by exists piece.
  - by right; right; right; left.
  - by right; right; right; right.
Qed.

(** What each of its calls keeps, [_create_yaml] keeps in every state that
    the disk goes through, whether it returns or raises. *)
Lemma create_yaml_keeps (P : fs -> Prop) self w :
  (forall c d1 d2,
      In c (create_yaml_calls E self (disk w)) ->
      P d1 -> perform c d1 = Some d2 -> P d2) ->
  P (disk w) ->
  extends P w (snd (_create_yaml E self w)) /\
  P (disk (snd (_create_yaml E self w))).
Proof.
  intros Hkeep Hw.
  destruct (_create_yaml E self w) as [r w'] eqn:Hrun. cbn [snd].
  apply create_yaml_carry in Hrun as (done & rest & Hcalls & Hc & _).
  unfold observable in Hc.
  apply (carry_invariant P) in Hc
    as (news & d' & past' & Hseen & Hnews & [= <- <-] & Hd'); [| |done].
  - split; [by exists news|done].
  - intros c d1 d2 Hin. apply Hkeep. rewrite Hcalls. apply in_app_iff.
    by left.
Qed.

(** X12: [_create_yaml] touches nothing but its own paths.  In every state
    that the disk goes through during the call, whether it returns or
    raises, every file other than its temporary file and the cache file of
    its host is as it was before (there or not, with the same contents),
    and so is every directory other than its temporary directory. *)
Theorem create_yaml_touches_its_own_paths_only self w :
  let temp_dir := mkdtemp_name E (disk w) in
  let temp_file := temp_dir +:+ "/" +:+ hostname self +:+ ".yaml" in
  let perm_file := topology_device_file E (server_config self) (hostname self) in
  extends
    (fun d =>
       (forall p, p <> temp_file -> p <> perm_file ->
                  files d !! p = files (disk w) !! p) /\
       (forall q, q <> temp_dir -> q ∈ dirs d <-> q ∈ dirs (disk w)))
    w (snd (_create_yaml E self w)).
Proof.
  intros temp_dir temp_file perm_file.
  apply create_yaml_keeps; [|done].
  intros c d1 d2 Hin [Hfiles Hdirs] Hc.
  apply create_yaml_calls_kinds in Hin
    as [-> | [-> | [[piece ->] | [-> | ->]]]];
    fold temp_dir in Hc; unfold temp_file_of in Hc;
    fold temp_dir temp_file perm_file in Hc; cbn [perform] in Hc.
  - case_decide; [done|]. injection Hc as <-. cbn. split; [done|].
    intros q Hq. rewrite <- (Hdirs q Hq), elem_of_union, elem_of_singleton.
    tauto.
  - injection Hc as <-. cbn. split; [|done]. intros p Hp Hp'.
    rewrite lookup_insert_ne by congruence. by apply Hfiles.
  - destruct (files d1 !! temp_file); [|done]. injection Hc as <-. cbn.
    split; [|done]. intros p Hp Hp'. rewrite lookup_insert_ne by congruence.
    by apply Hfiles.
  - destruct (files d1 !! temp_file); [|done]. injection Hc as <-. cbn.
    split; [|done]. intros p Hp Hp'.
    rewrite lookup_insert_ne, lookup_delete_ne by congruence. by apply Hfiles.
  - case_decide; [|done]. injection Hc as <-. cbn. split; [done|].
    intros q Hq.
    rewrite <- (Hdirs q Hq), elem_of_difference, elem_of_singleton. tauto.
Qed.

Lemma app_last_split {A} (done rest front : list A) x :
  done ++ rest = front ++ [x] -> rest <> [] ->
  exists rest', front = done ++ rest'.
Proof.
  intros Heq Hrest. destruct (exists_last Hrest) as (rest' & y & ->).
  rewrite app_assoc in Heq. apply app_inj_tail in Heq as [<- _].
  by exists rest'.
Qed.

(** X13: nothing cleans up after a failed snapshot.  When [_create_yaml]
    raises, the exception is an [OSError] or the one that the collection
    raised, and either nothing happened at all (the temporary directory
    could not be made) or the temporary directory, which was not there
    before, is still there after the call. *)
Theorem failed_snapshot_leaves_its_directory self w e :
  fst (_create_yaml E self w) = Raise e ->
  (e = OSError \/ everything E (hostname self) (snmp_params self) = Raise e) /\
  (snd (_create_yaml E self w) = w \/
   ((mkdtemp_name E (disk w) ∉ dirs (disk w)) /\
    (mkdtemp_name E (disk w) ∈ dirs (disk (snd (_create_yaml E self w)))))).
Proof.
  destruct (_create_yaml E self w) as [r w'] eqn:Hrun. cbn [fst snd].
  intros ->.
  apply create_yaml_carry in Hrun as (done & rest & Hcalls & Hc & Hnil & _ & He).
  specialize (He e eq_refl).
  split; [destruct He as [(_ & -> & _)|[? _]]; [by left|by right]|].
  destruct done as [|c done]; [left; by apply Hnil|]. right.
  set (temp_dir := mkdtemp_name E (disk w)) in *.
  assert (c = Mkdir temp_dir /\
          forall c', In c' done -> forall q, c' <> Rmdir q) as [-> Hdone].
  { unfold create_yaml_calls in Hcalls. fold temp_dir in Hcalls.
    cbn [app] in Hcalls. injection Hcalls as <- Htail. split; [done|].
    destruct He as [(Hrest & _ & [Hok|[=]])|[_ [= ->]]]; [|by intros ? []].
    destruct (everything E (hostname self) (snmp_params self)) as [data|];
      [|done].
    set (temp_file := temp_dir +:+ "/" +:+ hostname self +:+ ".yaml") in *.
    set (ps := pieces (write_sizes E (dict2yaml E data)) (dict2yaml E data))
      in *.
    change (OpenW temp_file :: map (WriteTo temp_file) ps ++ [_; _])
      with ((OpenW temp_file :: map (WriteTo temp_file) ps)
              ++ [Rename temp_file
                    (topology_device_file E (server_config self)
                       (hostname self))]
              ++ [Rmdir temp_dir]) in Htail.
    rewrite app_assoc in Htail. symmetry in Htail.
    apply app_last_split in Htail as [rest' Hfront]; [|done].
    intros c' Hin q ->.
    assert (In (Rmdir q)
              ((OpenW temp_file :: map (WriteTo temp_file) ps)
               ++ [Rename temp_file
                     (topology_device_file E (server_config self)
                        (hostname self))])) as Hbad.
    { rewrite Hfront. apply in_app_iff. by left. }
    apply in_app_iff in Hbad as [[Hbad|Hbad]|[Hbad|[]]]; try discriminate Hbad.
    apply in_map_iff in Hbad as (? & Hbad & _). discriminate Hbad. }
  unfold observable in Hc. cbn [carry] in Hc.
  destruct (perform (Mkdir temp_dir) (disk w)) as [d1|] eqn:Hp1; [|done].
  cbn [perform] in Hp1. case_decide as Hfresh; [done|]. injection Hp1 as <-.
  split; [done|].
  apply (carry_invariant (fun d => temp_dir ∈ dirs d)) in Hc
    as (_ & d' & past' & _ & _ & [= <- <-] & Hd'); [done| |].
  - intros c d1 d2 Hin Hd1 Hp. specialize (Hdone c Hin).
    destruct c; cbn [perform] in Hp.
    + case_decide; [done|]. injection Hp as <-. cbn.
      apply elem_of_union. by right.
    + by injection Hp as <-.
    + destruct (files d1 !! p); [|done]. by injection Hp as <-.
    + destruct (files d1 !! src); [|done]. by injection Hp as <-.
    + by destruct (Hdone d).
  - cbn. apply elem_of_union. left. by apply elem_of_singleton.
Qed.

Lemma carry_writes path tail seen' : forall ps content d past,
  files d !! path = Some content ->
  carry (map (WriteTo path) ps ++ tail) (d :: past) = Some seen' ->
  exists d1 past1,
    files d1 !! path = Some (content +:+ join ps) /\
    carry tail (d1 :: past1) = Some seen'.
Proof.
  induction ps as [|p ps IH]; intros content d past Hpath Hrun.
  - exists d, past. cbn [join fold_right]. by rewrite append_empty_r.
  - cbn [map app carry perform] in Hrun. rewrite Hpath in Hrun.
    eapply IH in Hrun as (d1 & past1 & Hd1 & Htail);
      [|cbn; apply lookup_insert_eq].
    exists d1, past1. split; [|done]. cbn [join fold_right].
    by rewrite <- append_assoc.
Qed.

(** When [_create_yaml] returns, the collection returned and the cache file
    of the host holds what it returned. *)
Lemma create_yaml_cached self w w' :
  _create_yaml E self w = (Ok tt, w') ->
  exists data,
    everything E (hostname self) (snmp_params self) = Ok data /\
    files (disk w') !! topology_device_file E (server_config self)
                          (hostname self)
    = Some (dict2yaml E data).
Proof.
  intros Hrun.
  apply create_yaml_carry in Hrun as (done & rest & Hcalls & Hc & _ & Hok & _).
  destruct (Hok eq_refl) as [-> Hdata]. rewrite app_nil_r in Hcalls.
  subst done. unfold create_yaml_calls in Hc.
  destruct (everything E (hostname self) (snmp_params self)) as [data|];
    [|done].
  exists data. split; [done|].
  unfold observable in Hc. cbn [carry] in Hc.
  destruct (perform (Mkdir _) (disk w)) as [d1|]; [|done].
  cbn [perform] in Hc.
  eapply (carry_writes _ _ _ _ EmptyString) in Hc
    as (d3 & past3 & Hd3 & Hc); [|cbn; apply lookup_insert_eq].
  rewrite join_pieces in Hd3. change ("" +:+ dict2yaml E data)
    with (dict2yaml E data) in Hd3.
  cbn [carry perform] in Hc. rewrite Hd3 in Hc.
  cbn [dirs] in Hc. case_decide; [|done]. injection Hc as <- _. cbn.
  apply lookup_insert_eq.
Qed.

Lemma poll_single_device_cached h w w' :
  truthy (credentials E h) = true ->
  poll_single_device E h w = (Ok tt, w') -> cached E h (disk w').
Proof.
  unfold poll_single_device, Poller_query, Poller_init. cbn [snmp_params].
  intros -> Hrun. by apply create_yaml_cached in Hrun.
Qed.

(** A task leaves the files that are neither its temporary file nor the
    cache file of its host as they are. *)
Lemma poll_single_device_frame h w p :
  p <> temp_file_of E h (disk w) ->
  p <> topology_device_file E (config E) h ->
  files (disk (snd (poll_single_device E h w))) !! p = files (disk w) !! p.
Proof.
  unfold poll_single_device, Poller_query, Poller_init. cbn [snmp_params].
  intros Htemp Hperm. destruct (truthy (credentials E h)); [|done].
  apply (create_yaml_keeps (fun d => files d !! p = files (disk w) !! p));
    [|done].
  intros c d1 d2 Hin Hd1 Hc.
  apply create_yaml_calls_kinds in Hin
    as [-> | [-> | [[piece ->] | [-> | ->]]]]; cbn [hostname server_config] in Hc;
    cbn [perform] in Hc.
  - case_decide; [done|]. injection Hc as <-. exact Hd1.
  - injection Hc as <-. cbn. rewrite lookup_insert_ne by congruence. exact Hd1.
  - destruct (files d1 !! temp_file_of E h (disk w)); [|done]. injection Hc as <-. cbn.
    rewrite lookup_insert_ne by congruence. exact Hd1.
  - destruct (files d1 !! temp_file_of E h (disk w)); [|done]. injection Hc as <-. cbn.
    rewrite lookup_insert_ne, lookup_delete_ne by congruence. exact Hd1.
  - case_decide; [|done]. injection Hc as <-. exact Hd1.
Qed.

Section Batch.
Variable hosts : list string.
Hypothesis Hinj : forall h h', In h hosts -> In h' hosts ->
  topology_device_file E (config E) h = topology_device_file E (config E) h' ->
  h = h'.
Hypothesis Htemp : forall h h' d, In h hosts -> In h' hosts ->
  temp_file_of E h d <> topology_device_file E (config E) h'.

(** A snapshot in the cache survives the task of any host of the batch. *)
Lemma poll_single_device_keeps_cached h h0 w w1 :
  In h hosts -> In h0 hosts -> truthy (credentials E h) = true ->
  poll_single_device E h0 w = (Ok tt, w1) ->
  cached E h (disk w) -> cached E h (disk w1).
Proof.
  intros Hh Hh0 Hcred Hpoll Hcached.
  destruct (String.string_dec (topology_device_file E (config E) h0)
              (topology_device_file E (config E) h)) as [Heq|Hne].
  - apply Hinj in Heq as ->; [|done..]. by eapply poll_single_device_cached.
  - destruct Hcached as (data & Hdata & Hfile). exists data. split; [done|].
    rewrite <- Hfile.
    pose proof (poll_single_device_frame h0 w
                  (topology_device_file E (config E) h)) as Hframe.
    rewrite Hpoll in Hframe. apply Hframe; [|done].
    intros Heq. by apply (Htemp h0 h (disk w)).
Qed.

Lemma run_chunk_cached h part : forall w w',
  In h hosts -> truthy (credentials E h) = true ->
  (forall h', In h' part -> In h' hosts) ->
  run_chunk (poll_single_device E) part w = (Ok tt, w') ->
  (cached E h (disk w) -> cached E h (disk w')) /\
  (In h part -> cached E h (disk w')).
Proof.
  induction part as [|h0 part IH]; intros w w' Hh Hcred Hsub Hrun.
  - injection Hrun as <-. by split.
  - cbn [run_chunk] in Hrun.
    apply bind_inv in Hrun as [(e & _ & [=])|([] & w1 & Hpoll & Hrun)].
    apply IH in Hrun as [Hkeep Hnew];
      [|done|done|by intros; apply Hsub; right].
    assert (In h0 hosts) as Hh0 by (apply Hsub; by left).
    split.
    + intros Hcached. apply Hkeep.
      by eapply poll_single_device_keeps_cached.
    + intros [->|Hin]; [|by apply Hnew].
      apply Hkeep. by eapply poll_single_device_cached.
Qed.

End Batch.

Lemma pool_map_returns processes func iterable w w' :
  pool_map E processes func iterable w = (Ok tt, w') ->
  run_chunk func iterable w = (Ok tt, w').
Proof.
  intros Hpool.
  assert (1 <= processes) as Hp.
  { unfold pool_map in Hpool. destruct (Z.ltb_spec processes 1); [done|lia]. }
  destruct (run_chunk func iterable w) as [[[]|e] w1] eqn:Hrun.
  - rewrite (pool_map_ok E func processes iterable w w1 Hp Hrun) in Hpool.
    by injection Hpool as <-.
  - pose proof (pool_map_raise E func processes iterable w e w1 Hrun) as Hno.
    by rewrite Hpool in Hno.
Qed.

(** X14: what a cycle achieves.  When the cache files of the hosts are
    pairwise distinct and no temporary file is a cache file, a cycle that
    returns leaves, for every host of the configuration that has
    credentials, the snapshot of that host in its cache file: no task of
    the batch has overwritten or removed the result of another. *)
Theorem cycle_caches_every_polled_host w w' :
  (forall h h', In h (hostnames E (config E)) ->
     In h' (hostnames E (config E)) ->
     topology_device_file E (config E) h = topology_device_file E (config E) h' ->
     h = h') ->
  (forall h h' d, In h (hostnames E (config E)) ->
     In h' (hostnames E (config E)) ->
     temp_file_of E h d <> topology_device_file E (config E) h') ->
  poll_devices E w = (Ok tt, w') ->
  forall h, In h (hostnames E (config E)) ->
            truthy (credentials E h) = true ->
            cached E h (disk w').
Proof.
  intros Hinj Htemp Hrun h Hh Hcred. unfold poll_devices in Hrun.
  apply pool_map_returns in Hrun.
  destruct (run_chunk_cached (hostnames E (config E)) Hinj Htemp h
              (hostnames E (config E)) w w' Hh Hcred (fun _ Hin => Hin) Hrun)
    as [_ Hnew].
  by apply Hnew.
Qed.

Lemma run_chunk_frame p part : forall w,
  (forall h d, In h part ->
     p <> temp_file_of E h d /\ p <> topology_device_file E (config E) h) ->
  files (disk (snd (run_chunk (poll_single_device E) part w))) !! p
  = files (disk w) !! p.
Proof.
  induction part as [|h rest IH]; intros w Hp; [done|].
  cbn [run_chunk]. unfold bind.
  destruct (Hp h (disk w) (or_introl eq_refl)) as [Htemp Hperm].
  pose proof (poll_single_device_frame h w p Htemp Hperm) as Hh.
  destruct (poll_single_device E h w) as [[[]|e] w1]; cbn [snd] in *;
    [|done].
  rewrite IH; [done|]. intros h' d Hin. apply Hp. by right.
Qed.

Lemma run_chunks_frame p chunks : forall failure w,
  (forall h d, In h (concat chunks) ->
     p <> temp_file_of E h d /\ p <> topology_device_file E (config E) h) ->
  files (disk (snd (run_chunks (poll_single_device E) chunks failure w))) !! p
  = files (disk w) !! p.
Proof.
  induction chunks as [|chunk rest IH]; intros failure w Hp; [done|].
  cbn [run_chunks].
  assert (files (disk (snd (run_chunk (poll_single_device E) chunk w))) !! p
          = files (disk w) !! p) as Hc.
  { apply run_chunk_frame. intros h d Hin. apply Hp. cbn [concat].
    apply in_app_iff. by left. }
  assert (forall h d, In h (concat rest) ->
            p <> temp_file_of E h d /\
            p <> topology_device_file E (config E) h) as Hrest.
  { intros h d Hin. apply Hp. cbn [concat]. apply in_app_iff. by right. }
  destruct (run_chunk (poll_single_device E) chunk w) as [[[]|e] w1];
    cbn [snd] in *; by rewrite IH.
Qed.

(** X16: a cycle, whether it returns or raises, leaves every file that is
    neither the cache file nor a temporary file of one of its hosts as it
    was: in particular it never removes or rewrites the cache file of a
    host that is no longer in the configuration. *)
Theorem cycle_leaves_other_files_alone w p :
  (forall h d, In h (hostnames E (config E)) ->
     p <> temp_file_of E h d /\ p <> topology_device_file E (config E) h) ->
  files (disk (snd (poll_devices E w))) !! p = files (disk w) !! p.
Proof.
  intros Hp. unfold poll_devices, pool_map.
  destruct (agent_threads E (config E) <? 1); [done|].
  pose proof (run_chunks_frame p
                (chunked (length (hostnames E (config E))) (chunksize E)
                   (hostnames E (config E))) None w) as Hc.
  rewrite chunked_concat in Hc by done. specialize (Hc Hp).
  by destruct (run_chunks _ _ _ _) as [[e|] w1].
Qed.

End Snapshots.

(** *** The small installation, again *)

Lemma failed_snapshot_leaves_its_directory_witness :
  let E := demo_env (Some "sw1") false in
  let self := Poller_init E "sw1" in
  let w := empty_cache in
  fst (_create_yaml E self w) = Raise CollectionError /\
  (CollectionError = OSError \/
   everything E (hostname self) (snmp_params self) = Raise CollectionError) /\
  (snd (_create_yaml E self w) = w \/
   ((mkdtemp_name E (disk w) ∉ dirs (disk w)) /\
    (mkdtemp_name E (disk w) ∈ dirs (disk (snd (_create_yaml E self w)))))).
Proof.
  cbv zeta. split; [by vm_compute|].
  apply (failed_snapshot_leaves_its_directory (demo_env (Some "sw1") false)
           (Poller_init (demo_env (Some "sw1") false) "sw1") empty_cache
           CollectionError).
  by vm_compute.
Defined.

Lemma demo_device_files_distinct h h' :
  In h (hostnames (demo_env None false) (config (demo_env None false))) ->
  In h' (hostnames (demo_env None false) (config (demo_env None false))) ->
  topology_device_file (demo_env None false) (config (demo_env None false)) h
  = topology_device_file (demo_env None false) (config (demo_env None false)) h' ->
  h = h'.
Proof.
  intros Hh Hh' Heq. vm_compute in Hh, Hh'.
  repeat (destruct Hh as [<-|Hh]); try done;
    repeat (destruct Hh' as [<-|Hh']); try done;
    vm_compute in Heq; discriminate Heq.
Defined.

Lemma demo_temp_files_apart h h' d :
  In h (hostnames (demo_env None false) (config (demo_env None false))) ->
  In h' (hostnames (demo_env None false) (config (demo_env None false))) ->
  temp_file_of (demo_env None false) h d
  <> topology_device_file (demo_env None false)
       (config (demo_env None false)) h'.
Proof.
  intros Hh Hh' Heq. unfold temp_file_of in Heq. cbn [mkdtemp_name demo_env] in Heq.
  vm_compute in Hh, Hh'.
  repeat (destruct Hh as [<-|Hh]); try done;
    repeat (destruct Hh' as [<-|Hh']); try done;
    repeat case_bool_decide; vm_compute in Heq; discriminate Heq.
Defined.

Lemma cycle_caches_every_polled_host_witness :
  let E := demo_env None false in
  (forall h h', In h (hostnames E (config E)) ->
     In h' (hostnames E (config E)) ->
     topology_device_file E (config E) h = topology_device_file E (config E) h' ->
     h = h') /\
  (forall h h' d, In h (hostnames E (config E)) ->
     In h' (hostnames E (config E)) ->
     temp_file_of E h d <> topology_device_file E (config E) h') /\
  poll_devices E empty_cache = (Ok tt, snd (poll_devices E empty_cache)) /\
  In "sw2" (hostnames E (config E)) /\
  truthy (credentials E "sw2") = true /\
  cached E "sw2" (disk (snd (poll_devices E empty_cache))).
Proof.
  cbv zeta. split; [exact demo_device_files_distinct|].
  split; [exact demo_temp_files_apart|].
  assert (In "sw2" (hostnames (demo_env None false)
                      (config (demo_env None false)))) as Hin.
  { vm_compute. right. right. right. left. reflexivity. }
  split; [by vm_compute|]. split; [exact Hin|]. split; [by vm_compute|].
  apply (cycle_caches_every_polled_host (demo_env None false) empty_cache
           (snd (poll_devices (demo_env None false) empty_cache))
           demo_device_files_distinct demo_temp_files_apart);
    [by vm_compute|exact Hin|by vm_compute].
Defined.

Lemma cycle_leaves_other_files_alone_witness :
  let E := demo_env None false in
  let w := {| disk := {| files := {["/cache/old.yaml" := "hostname: old"]};
                         dirs := {["/cache"]} |};
              past := []; events := [] |} in
  (forall h d, In h (hostnames E (config E)) ->
     "/cache/old.yaml" <> temp_file_of E h d /\
     "/cache/old.yaml" <> topology_device_file E (config E) h) /\
  files (disk (snd (poll_devices E w))) !! "/cache/old.yaml"
  = files (disk w) !! "/cache/old.yaml".
Proof.
  cbv zeta.
  assert (forall h d,
             In h (hostnames (demo_env None false)
                     (config (demo_env None false))) ->
             "/cache/old.yaml" <> temp_file_of (demo_env None false) h d /\
             "/cache/old.yaml"
             <> topology_device_file (demo_env None false)
                  (config (demo_env None false)) h) as Hp.
  { intros h d Hh. unfold temp_file_of. cbn [mkdtemp_name demo_env].
    vm_compute in Hh.
    repeat (destruct Hh as [<-|Hh]); try done;
      (split; intros Heq; repeat case_bool_decide; vm_compute in Heq;
       discriminate Heq). }
  split; [exact Hp|].
  exact (cycle_leaves_other_files_alone (demo_env None false) _
           "/cache/old.yaml" Hp).
Defined.

(** When the collection of [sw1] raises, its temporary directory stays
    behind, empty. *)
Example failed_collection_leaves_a_directory :
  let E := demo_env (Some "sw1") false in
  let w' := snd (poll_single_device E "sw1" empty_cache) in
  elements (dirs (disk w')) = ["/cache"; "/tmp/tmp0"] /\
  map_to_list (files (disk w')) = [].
Proof. by vm_compute. Qed.

(** *** A write that goes through, and failures in a batch *)

Section Failures.
Variable E : Env.

Lemma sys_ok c w d' :
  os_refuses E c (disk w) = false -> perform c (disk w) = Some d' ->
  sys E c w = (Ok tt, {| disk := d'; past := disk w :: past w;
                         events := events w |}).
Proof. intros Hfree Hp. unfold sys. by rewrite Hfree, Hp. Qed.

Lemma write_pieces_ok path ps : forall w content,
  (forall p d, In p ps -> os_refuses E (WriteTo path p) d = false) ->
  files (disk w) !! path = Some content ->
  exists w',
    write_pieces E path ps w = (Ok tt, w') /\
    files (disk w') !! path = Some (content +:+ join ps) /\
    dirs (disk w') = dirs (disk w).
Proof.
  induction ps as [|p ps IH]; intros w content Hfree Hpath.
  - exists w. cbn [join fold_right]. by rewrite append_empty_r.
  - cbn [write_pieces].
    erewrite bind_ok;
      [|apply sys_ok; [apply Hfree; by left|cbn [perform]; by rewrite Hpath]].
    edestruct (IH {| disk := {| files := <[path := content +:+ p]>
                                          (files (disk w));
                                dirs := dirs (disk w) |};
                     past := disk w :: past w; events := events w |}
                 (content +:+ p)) as (w' & Hrun & Hfile & Hdirs).
    + intros p' d Hin. apply Hfree. by right.
    + cbn. apply lookup_insert_eq.
    + exists w'. split; [done|]. split; [|done].
      cbn [join fold_right]. by rewrite <- append_assoc.
Qed.

(** When the operating system refuses none of its calls, the directory
    that [mkdtemp] picks is new and the collection returns, so does
    [_create_yaml]. *)
Lemma create_yaml_returns self w :
  (forall c d, In c (create_yaml_calls E self (disk w)) ->
               os_refuses E c d = false) ->
  mkdtemp_name E (disk w) ∉ dirs (disk w) ->
  is_ok (everything E (hostname self) (snmp_params self)) = true ->
  fst (_create_yaml E self w) = Ok tt.
Proof.
  intros Hfree Hfresh Hdata. unfold create_yaml_calls in Hfree.
  unfold _create_yaml.
  set (temp_dir := mkdtemp_name E (disk w)) in *.
  set (temp_file := temp_dir +:+ "/" +:+ hostname self +:+ ".yaml") in *.
  set (perm_file :=
         topology_device_file E (server_config self) (hostname self)) in *.
  destruct (everything E (hostname self) (snmp_params self)) as [data|] eqn:He;
    [|done].
  set (ps := pieces (write_sizes E (dict2yaml E data)) (dict2yaml E data))
    in *.
  (* mkdtemp *)
  assert (mkdtemp E w
          = (Ok temp_dir,
             {| disk := {| files := files (disk w);
                           dirs := {[temp_dir]} ∪ dirs (disk w) |};
                past := disk w :: past w; events := events w |})) as Hmk.
  { unfold mkdtemp. cbv zeta. fold temp_dir.
    erewrite bind_ok; [done|]. apply sys_ok; [apply Hfree; by left|].
    cbn [perform]. by case_decide. }
  rewrite (bind_ok _ _ _ _ _ Hmk).
  fold temp_file perm_file.
  (* the first log line and the collection *)
  unfold bind at 1. unfold log2info at 1. cbv beta iota.
  unfold bind at 1. unfold lift at 1. cbv beta iota. fold ps.
  (* open *)
  erewrite bind_ok;
    [|apply sys_ok; [apply Hfree; right; by left|done]].
  (* write *)
  match goal with
  | |- context [bind (write_pieces E temp_file ps) _ ?w3] =>
      destruct (write_pieces_ok temp_file ps w3 EmptyString)
        as (w4 & Hw & Hfile & Hdirs)
  end.
  { intros p d Hin. apply Hfree. right. right. apply in_app_iff. left.
    by apply in_map. }
  { cbn. apply lookup_insert_eq. }
  rewrite (bind_ok _ _ _ _ _ Hw).
  (* the second log line, the rename and the removal *)
  unfold bind at 1. unfold log2info at 1. cbv beta iota.
  erewrite bind_ok;
    [|apply sys_ok;
      [apply Hfree; right; right; apply in_app_iff; right; by left
      |cbn [perform disk]; by rewrite Hfile]].
  erewrite sys_ok; [done|..].
  - apply Hfree. right. right. apply in_app_iff. right. right. by left.
  - cbn [perform disk dirs]. rewrite Hdirs. cbn [disk dirs].
    case_decide as Hin; [done|].
    exfalso. apply Hin. apply elem_of_union. left. by apply elem_of_singleton.
Qed.

Lemma carry_keeps_directory q calls : forall d past seen',
  (forall c, In c calls -> forall q', c <> Rmdir q') ->
  q ∈ dirs d -> carry calls (d :: past) = Some seen' ->
  exists d' past', seen' = d' :: past' /\ q ∈ dirs d'.
Proof.
  intros d past seen' Hcalls Hq Hrun.
  apply (carry_invariant (fun d => q ∈ dirs d)) in Hrun
    as (_ & d' & past' & _ & _ & -> & Hd'); [by exists d', past'| |done].
  intros c d1 d2 Hin Hd1 Hp. specialize (Hcalls c Hin).
  destruct c; cbn [perform] in Hp.
  - case_decide; [done|]. injection Hp as <-. cbn.
    apply elem_of_union. by right.
  - by injection Hp as <-.
  - destruct (files d1 !! p); [|done]. by injection Hp as <-.
  - destruct (files d1 !! src); [|done]. by injection Hp as <-.
  - by destruct (Hcalls d0).
Qed.

(** When [_create_yaml] raises, either nothing happened or the directory
    it made is still there. *)
Lemma create_yaml_raise_keeps_scratch self w e :
  fst (_create_yaml E self w) = Raise e ->
  snd (_create_yaml E self w) = w \/
  mkdtemp_name E (disk w) ∈ dirs (disk (snd (_create_yaml E self w))).
Proof.
  destruct (_create_yaml E self w) as [r w'] eqn:Hrun. cbn [fst snd].
  intros ->.
  apply create_yaml_carry in Hrun
    as (done & rest & Hcalls & Hc & Hnil & _ & He).
  specialize (He e eq_refl).
  destruct done as [|c done]; [left; by apply Hnil|]. right.
  unfold create_yaml_calls in Hcalls.
  set (temp_dir := mkdtemp_name E (disk w)) in *.
  set (temp_file := temp_dir +:+ "/" +:+ hostname self +:+ ".yaml") in *.
  set (perm_file :=
         topology_device_file E (server_config self) (hostname self)) in *.
  cbn [app] in Hcalls. injection Hcalls as <- Htail.
  unfold observable in Hc. cbn [carry] in Hc.
  destruct (perform (Mkdir temp_dir) (disk w)) as [d1|] eqn:Hp1; [|done].
  cbn [perform] in Hp1. case_decide; [done|]. injection Hp1 as <-.
  eapply (carry_keeps_directory temp_dir) in Hc
    as (d' & past' & [= <- <-] & Hd'); [done| |].
  2: { cbn. apply elem_of_union. left. by apply elem_of_singleton. }
  destruct He as [(Hrest & _ & [Hok|[=]])|[_ [= ->]]]; [|by intros ? []].
  destruct (everything E (hostname self) (snmp_params self)) as [data|];
    [|done].
  set (ps := pieces (write_sizes E (dict2yaml E data)) (dict2yaml E data))
    in *.
  assert (exists rest', OpenW temp_file :: map (WriteTo temp_file) ps
                          ++ [Rename temp_file perm_file] = done ++ rest')
    as [rest' Hfront].
  { destruct (exists_last Hrest) as (rest' & last & ->). exists rest'.
    change (OpenW temp_file :: map (WriteTo temp_file) ps ++ [_; _])
      with ((OpenW temp_file :: map (WriteTo temp_file) ps)
              ++ [Rename temp_file perm_file] ++ [Rmdir temp_dir]) in Htail.
    rewrite app_assoc, (app_assoc done) in Htail.
    apply app_inj_tail in Htail as [Htail _]. exact Htail. }
  intros c Hin q ->.
  assert (In (Rmdir q) (done ++ rest')) as Hbad
    by (apply in_app_iff; by left).
  rewrite <- Hfront in Hbad.
  destruct Hbad as [Hbad|Hbad]; [discriminate Hbad|].
  apply in_app_iff in Hbad as [Hbad|[Hbad|[]]]; [|discriminate Hbad].
  apply in_map_iff in Hbad as (? & Hbad & _). discriminate Hbad.
Qed.

(** C1 (as amended): [Poller._create_yaml] goes through the scratch
    directory.  Whatever happens, the states that the disk goes through
    are those of a first part of its calls, in their order: the temporary
    directory, the temporary file, its pieces, the rename onto the cache
    file of the host, the removal of the directory; all of them when the
    call returns.  Provided the temporary file is not the cache file
    itself, every one of these states, whether the call returns, raises,
    or is interrupted between two system calls, shows in the slot of the
    host either what was there before (the prior snapshot or no file) or
    the complete new snapshot, never a part of it.  When the call returns,
    the slot holds the new snapshot and the temporary file and directory
    are gone; it does return when the operating system refuses none of the
    calls, the directory is new and the collection returns.  When it
    raises, nothing removes the scratch: either nothing happened or the
    temporary directory is still there. *)
Theorem create_yaml_writes_through_scratch (self : Poller) (w : world) :
  let temp_dir := mkdtemp_name E (disk w) in
  let temp_file := temp_dir +:+ "/" +:+ hostname self +:+ ".yaml" in
  let perm_file := topology_device_file E (server_config self) (hostname self) in
  let slot := fun d : fs => files d !! perm_file in
  let complete := fun d : fs =>
    exists data,
      everything E (hostname self) (snmp_params self) = Ok data /\
      slot d = Some (dict2yaml E data) in
  let r := fst (_create_yaml E self w) in
  let w' := snd (_create_yaml E self w) in
  temp_file <> perm_file ->
  extends (fun d => slot d = slot (disk w) \/ complete d) w w' /\
  (exists done rest,
      create_yaml_calls E self (disk w) = done ++ rest /\
      carry done (observable w) = Some (observable w') /\
      (r = Ok tt -> rest = [])) /\
  (r = Ok tt ->
   complete (disk w') /\ files (disk w') !! temp_file = None /\
   temp_dir ∉ dirs (disk w')) /\
  ((forall c d, In c (create_yaml_calls E self (disk w)) ->
                os_refuses E c d = false) ->
   temp_dir ∉ dirs (disk w) ->
   is_ok (everything E (hostname self) (snmp_params self)) = true ->
   r = Ok tt) /\
  (forall e, r = Raise e -> w' = w \/ temp_dir ∈ dirs (disk w')).
Proof.
  intros temp_dir temp_file perm_file slot complete r w' Hne.
  destruct (create_yaml_slot_never_partial E self w Hne) as [Hext Hret].
  split; [exact Hext|]. split; [|split; [exact Hret|split]].
  - destruct (_create_yaml E self w) as [r0 w0] eqn:Hrun.
    apply create_yaml_carry in Hrun
      as (done & rest & Hcalls & Hc & _ & Hok & _).
    exists done, rest. split; [done|]. split; [done|].
    intros Hr. by apply Hok.
  - apply create_yaml_returns.
  - apply create_yaml_raise_keeps_scratch.
Qed.

(** *** The pool, chunk by chunk *)

Section Chunks.
Variable func : string -> M unit.






End Chunks.


Section Batch.
Variable hosts : list string.
Hypothesis Hinj : forall h h', In h hosts -> In h' hosts ->
  topology_device_file E (config E) h = topology_device_file E (config E) h' ->
  h = h'.
Hypothesis Htemp : forall h h' d, In h hosts -> In h' hosts ->
  temp_file_of E h d <> topology_device_file E (config E) h'.




End Batch.


End Failures.

(** *** The small installation, when something fails *)

Lemma create_yaml_writes_through_scratch_witness :
  let E := demo_env None false in
  let self := Poller_init E "sw1" in
  let w := empty_cache in
  let temp_dir := mkdtemp_name E (disk w) in
  let temp_file := temp_dir +:+ "/" +:+ hostname self +:+ ".yaml" in
  let perm_file := topology_device_file E (server_config self) (hostname self) in
  let slot := fun d : fs => files d !! perm_file in
  let complete := fun d : fs =>
    exists data,
      everything E (hostname self) (snmp_params self) = Ok data /\
      slot d = Some (dict2yaml E data) in
  let r := fst (_create_yaml E self w) in
  let w' := snd (_create_yaml E self w) in
  temp_file <> perm_file /\
  (forall c d, In c (create_yaml_calls E self (disk w)) ->
               os_refuses E c d = false) /\
  (temp_dir ∉ dirs (disk w)) /\
  is_ok (everything E (hostname self) (snmp_params self)) = true /\
  extends (fun d => slot d = slot (disk w) \/ complete d) w w' /\
  (exists done rest,
      create_yaml_calls E self (disk w) = done ++ rest /\
      carry done (observable w) = Some (observable w') /\
      (r = Ok tt -> rest = [])) /\
  (r = Ok tt ->
   complete (disk w') /\ files (disk w') !! temp_file = None /\
   temp_dir ∉ dirs (disk w')) /\
  ((forall c d, In c (create_yaml_calls E self (disk w)) ->
                os_refuses E c d = false) ->
   temp_dir ∉ dirs (disk w) ->
   is_ok (everything E (hostname self) (snmp_params self)) = true ->
   r = Ok tt) /\
  (forall e, r = Raise e -> w' = w \/ temp_dir ∈ dirs (disk w')).
Proof.
  cbv zeta. split; [by vm_compute|].
  split; [intros c d _; by destruct c|]. split; [by vm_compute|].
  split; [reflexivity|].
  apply (create_yaml_writes_through_scratch (demo_env None false)
           (Poller_init (demo_env None false) "sw1") empty_cache).
  by vm_compute.
Defined.

(** C1, as the claim states it, fails in the small installation when the
    operating system refuses the rename: the write raises, the slot of the
    host is left without a file, and the scratch is not removed: the
    temporary directory is still there, with the complete snapshot in the
    temporary file.  A writer interrupted while it writes leaves a part of
    the snapshot there. *)
Lemma refused_rename_leaves_the_scratch :
  let E := demo_env None true in
  let w' := snd (_create_yaml E (Poller_init E "sw1") empty_cache) in
  fst (_create_yaml E (Poller_init E "sw1") empty_cache) = Raise OSError /\
  files (disk w') !! "/cache/sw1.yaml" = None /\
  files (disk w') !! "/tmp/tmp0/sw1.yaml" = Some "hostname: sw1" /\
  elements (dirs (disk w')) = ["/cache"; "/tmp/tmp0"] /\
  exists d,
    In d (observable w') /\
    files d !! "/tmp/tmp0/sw1.yaml" = Some "host" /\
    elements (dirs d) = ["/cache"; "/tmp/tmp0"].
Proof.
  cbv zeta. do 4 (split; [by vm_compute|]).
  eexists. split; [right; left; reflexivity|]. by vm_compute.
Qed.


(** With chunks of one host the failure of [sw1] still ends the cycle, but
    [sw2], in a chunk of its own, is polled and written. *)
Example failure_spares_other_chunks :
  let E := demo_env (Some "sw1") false in
  fst (poll_devices E empty_cache) = Raise CollectionError /\
  map_to_list (files (disk (snd (poll_devices E empty_cache))))
  = [("/cache/sw2.yaml", "hostname: sw2")].
Proof. by vm_compute. Qed.

End TopologyFacts.

(** ** The search page *)

Module SearchFacts.
Import SearchPage.

(** *** [strip] *)

Lemma lstrip_list_split l :
  exists spaces,
    l = spaces ++ lstrip_list l /\ forallb is_space spaces = true.
Proof.
  induction l as [|c l (spaces & IH & Hspaces)]; [by exists []|].
  cbn [lstrip_list]. destruct (is_space c) eqn:Hc.
  - exists (c :: spaces). cbn. rewrite Hc, Hspaces. split; [|done].
    by rewrite <- IH.
  - by exists [].
Qed.

Lemma lstrip_list_head l c rest :
  lstrip_list l = c :: rest -> is_space c = false.
Proof.
  induction l as [|x l IH]; [done|]. cbn [lstrip_list].
  destruct (is_space x) eqn:Hx; [done|]. by intros [= <- _].
Qed.

Lemma lstrip_list_fixed l :
  (forall c rest, l = c :: rest -> is_space c = false) -> lstrip_list l = l.
Proof.
  destruct l as [|c rest]; [done|]. intros H. cbn [lstrip_list].
  by rewrite (H c rest).
Qed.

(** The trimmed string is what is left of the string when the white space
    at its two ends is taken away. *)
Lemma strip_list_split l :
  exists left right,
    l = left ++ strip_list l ++ right /\
    forallb is_space left = true /\ forallb is_space right = true.
Proof.
  destruct (lstrip_list_split l) as (left & Hl & Hleft).
  destruct (lstrip_list_split (rev (lstrip_list l))) as (tail & Ht & Htail).
  exists left, (rev tail). split; [|split; [done|]].
  - unfold strip_list. rewrite <- rev_app_distr, <- Ht, rev_involutive. done.
  - rewrite forallb_forall in *. intros c Hc. apply Htail.
    by apply in_rev in Hc.
Qed.

Lemma strip_list_ends l :
  (forall c rest, strip_list l = c :: rest -> is_space c = false) /\
  (forall c rest, rev (strip_list l) = c :: rest -> is_space c = false).
Proof.
  unfold strip_list. split; intros c rest H.
  - destruct (lstrip_list_split (rev (lstrip_list l))) as (tail & Ht & _).
    apply (f_equal (@rev ascii)) in Ht.
    rewrite rev_app_distr, rev_involutive, H in Ht.
    cbn in Ht. by apply lstrip_list_head in Ht.
  - rewrite rev_involutive in H. by apply lstrip_list_head in H.
Qed.

Lemma strip_list_idempotent l : strip_list (strip_list l) = strip_list l.
Proof.
  destruct (strip_list_ends l) as [Hhead Hlast].
  unfold strip_list at 1. rewrite (lstrip_list_fixed (strip_list l)) by done.
  rewrite (lstrip_list_fixed (rev (strip_list l))) by done.
  apply rev_involutive.
Qed.

Lemma strip_idempotent s : strip (strip s) = strip s.
Proof.
  unfold strip. rewrite list_ascii_of_string_of_list_ascii.
  fold (strip_list (list_ascii_of_string s)).
  fold (strip_list (strip_list (list_ascii_of_string s))).
  by rewrite strip_list_idempotent.
Qed.

(** *** The accumulation of the matches *)

Lemma grow_nil o : grow o [] = o.
Proof. destruct o; [|done]. cbn. by rewrite app_nil_r. Qed.

Lemma grow_grow o a b : grow (grow o a) b = grow o (a ++ b).
Proof.
  destruct o as [x|]; cbn.
  - by rewrite app_assoc.
  - by destruct a.
Qed.

Lemma add_ifindex_lookup (devices : gmap string (list Z)) kv h :
  add_ifindex devices kv !! h =
  grow (devices !! h) (if String.eqb (fst kv) h then [snd kv] else []).
Proof.
  destruct kv as [h' i]. unfold add_ifindex. cbn [fst snd].
  destruct (String.eqb h' h) eqn:Hh.
  - apply String.eqb_eq in Hh. subst h'.
    destruct (devices !! h) eqn:Hd; rewrite lookup_insert_eq; by cbn.
  - apply String.eqb_neq in Hh. rewrite grow_nil.
    destruct (devices !! h') eqn:Hd; by rewrite lookup_insert_ne.
Qed.

Lemma add_item_lookup (item : item) : forall (devices : gmap string (list Z)) h,
  fold_left add_ifindex item devices !! h =
  grow (devices !! h)
    (flat_map (fun kv : string * Z =>
       if String.eqb (fst kv) h then [snd kv] else []) item).
Proof.
  induction item as [|kv rest IH]; intros devices h; cbn [fold_left flat_map].
  - by rewrite grow_nil.
  - by rewrite IH, add_ifindex_lookup, grow_grow.
Qed.

Lemma add_result_lookup result : forall (devices : gmap string (list Z)) h,
  add_result devices result !! h = grow (devices !! h) (reported h result).
Proof.
  unfold add_result, reported.
  induction result as [|item rest IH]; intros devices h;
    cbn [fold_left flat_map].
  - by rewrite grow_nil.
  - by rewrite IH, add_item_lookup, grow_grow.
Qed.

Section WithCache.
Variable snapshot : Type.
Variable matches : snapshot -> string -> list Z.
Variable ReadAll : list (string * snapshot).
Variable ports : string -> list Z -> string.

Local Abbreviation Search_find := (Search_find snapshot matches ReadAll).
Local Abbreviation index_step := (index_step snapshot matches ReadAll ports).
Local Abbreviation index := (index snapshot matches ReadAll ports).

(** Only the trimmed term reaches the search. *)
Lemma index_step_strip st value :
  index_step st ("search_term", value)
  = index_step st ("search_term", strip value).
Proof. unfold SearchPage.index_step. cbn. by rewrite strip_idempotent. Qed.

(** C6: the page trims the search term (what is taken away is white space
    at its two ends, and only the trimmed term reaches the search); when
    nothing is left of a term, the mapping of devices stays empty, the cache
    has not been read and the page shows its placeholder.  The check for
    the empty term is that of the search as the spec describes it. *)
Theorem empty_term_no_scan form scans0 :
  (forall value, In ("search_term", value) form -> strip value = "") ->
  devices (index form scans0) = ∅ /\
  scans (index form scans0) = scans0 /\
  results_dict (index form scans0)
    = {["Not Found" := "<h3>&nbsp;Please try again ...</h3>"]} /\
  (forall st value,
      index_step st ("search_term", value)
      = index_step st ("search_term", strip value)) /\
  (forall value,
      exists left right,
        list_ascii_of_string value
          = left ++ list_ascii_of_string (strip value) ++ right /\
        forallb is_space left = true /\ forallb is_space right = true).
Proof.
  intros Hempty. unfold SearchPage.index.
  set (st0 := {| results_dict := _; devices := ∅; scans := scans0 |}).
  assert (forall form st,
            (forall value, In ("search_term", value) form -> strip value = "") ->
            devices st = ∅ ->
            devices (fold_left index_step form st) = ∅ /\
            scans (fold_left index_step form st) = scans st /\
            results_dict (fold_left index_step form st) = results_dict st)
    as Hloop.
  { clear. induction form as [|[key value] rest IH]; intros st Hempty Hd;
      [done|].
    cbn [fold_left].
    assert (devices (index_step st (key, value)) = ∅ /\
            scans (index_step st (key, value)) = scans st /\
            results_dict (index_step st (key, value)) = results_dict st)
      as (Hd' & Hs' & Hr').
    { unfold SearchPage.index_step.
      destruct (String.eqb key "search_term") eqn:Hkey; [|done].
      apply String.eqb_eq in Hkey. subst key.
      unfold SearchPage.Search_find. rewrite strip_idempotent.
      rewrite (Hempty value) by by left. cbn. rewrite Hd.
      by rewrite decide_True. }
    destruct (IH (index_step st (key, value))) as (? & ? & ?); [|done|].
    { intros v Hv. apply Hempty. by right. }
    split; [done|]. split; congruence. }
  destruct (Hloop form st0 Hempty eq_refl) as (Hd & Hs & Hr).
  split; [done|]. split; [done|]. split; [done|]. split.
  - apply index_step_strip.
  - intros value. unfold strip.
    rewrite list_ascii_of_string_of_list_ascii.
    apply strip_list_split.
Qed.

(** C7 (as amended): for each host the page accumulates every index that the
    matches report for it, in the order in which they are first seen, and
    repeats are kept: the list of a host is exactly the list of the indices
    reported for it, so it is free of duplicates exactly when no index is
    reported twice for the host. *)
Theorem ifindexes_accumulate_with_repeats (result : list item) (h : string) :
  add_result ∅ result !! h
    = match reported h result with [] => None | l => Some l end /\
  (forall l, add_result ∅ result !! h = Some l ->
             l = reported h result /\ (NoDup l <-> NoDup (reported h result)))
  /\
  (forall value scans0,
      devices (index [("search_term", value)] scans0)
      = add_result ∅ (fst (Search_find (strip value) scans0))).
Proof.
  assert (add_result ∅ result !! h
          = match reported h result with [] => None | l => Some l end) as Hl.
  { rewrite add_result_lookup, lookup_empty. cbn.
    by destruct (reported h result). }
  split; [done|]. split.
  - intros l Hsome. rewrite Hl in Hsome.
    destruct (reported h result) as [|i rest]; [done|].
    injection Hsome as <-. done.
  - intros value scans0. unfold SearchPage.index, SearchPage.index_step.
    cbn [fold_left String.eqb Ascii.eqb Bool.eqb].
    by destruct (SearchPage.Search_find _ _ _ _ _) as [result' scans'].
Qed.

End WithCache.

Lemma empty_term_no_scan_witness :
  let matches := fun (snap : list Z) (_ : string) => snap in
  let ReadAll := [("sw1", [3; 7])] in
  let ports := fun (_ : string) (_ : list Z) => "" in
  let form := [("csrf", "x"); ("search_term", "  ")] in
  (forall value, In ("search_term", value) form -> strip value = "") /\
  devices (index (list Z) matches ReadAll ports form 0%nat) = ∅ /\
  scans (index (list Z) matches ReadAll ports form 0%nat) = 0%nat /\
  results_dict (index (list Z) matches ReadAll ports form 0%nat)
    = {["Not Found" := "<h3>&nbsp;Please try again ...</h3>"]} /\
  (forall st value,
      index_step (list Z) matches ReadAll ports st ("search_term", value)
      = index_step (list Z) matches ReadAll ports st
          ("search_term", strip value)) /\
  (forall value,
      exists left right,
        list_ascii_of_string value
          = left ++ list_ascii_of_string (strip value) ++ right /\
        forallb is_space left = true /\ forallb is_space right = true).
Proof.
  cbv zeta.
  assert (forall value,
            In ("search_term", value) [("csrf", "x"); ("search_term", "  ")] ->
            strip value = "") as Hform.
  { intros value [H|[H|[]]]; [discriminate H|].
    injection H as <-. reflexivity. }
  split; [exact Hform|].
  apply (empty_term_no_scan (list Z) (fun snap _ => snap) [("sw1", [3; 7])]
           (fun _ _ => "") [("csrf", "x"); ("search_term", "  ")] 0%nat).
  exact Hform.
Defined.

(** A term that is not empty is searched for: the cache is read once. *)
Example uplink_is_searched :
  let matches := fun (snap : list Z) (_ : string) => snap in
  let p := index (list Z) matches [("sw2", []); ("sw1", [7])]
             (fun _ _ => "") [("search_term", " uplink ")] 0%nat in
  map_to_list (devices p) = [("sw1", [7])] /\ scans p = 1%nat.
Proof. by vm_compute. Qed.

(** C7, as the claim states it, fails when the matches of a host yield an
    index twice: the list accumulated for the host holds it twice. *)
Lemma repeated_ifindex_is_kept :
  let matches := fun (snap : list Z) (_ : string) => snap in
  let p := index (list Z) matches [("sw1", [3; 3; 7])]
             (fun _ _ => "") [("search_term", "uplink")] 0%nat in
  add_result ∅ [[("sw1", 3)]; [("sw1", 3)]; [("sw1", 7)]] !! "sw1"
    = Some [3; 3; 7] /\
  devices p !! "sw1" = Some [3; 3; 7] /\
  ~ NoDup [3; 3; 7].
Proof.
  cbv zeta. split; [by vm_compute|]. split; [by vm_compute|].
  intros H. apply NoDup_cons in H as [Hnotin _]. apply Hnotin.
  apply list_elem_of_here.
Qed.

(** *** The port tables *)

Section Tables.
Variable snapshot : Type.
Variable matches : snapshot -> string -> list Z.
Variable ReadAll : list (string * snapshot).
Variable ports : string -> list Z -> string.

Lemma add_result_empty result :
  add_result ∅ result = ∅ <-> forall h, reported h result = [].
Proof.
  split.
  - intros Hempty h.
    pose proof (add_result_lookup result ∅ h) as Hh.
    rewrite Hempty, !lookup_empty in Hh.
    by destruct (reported h result).
  - intros Hnone. apply map_eq. intros h.
    by rewrite add_result_lookup, Hnone, !lookup_empty.
Qed.

(** X15: the tables of the page.  When the search reports no index at all
    the page keeps its placeholder.  As soon as it reports one, the
    placeholder is dropped and the page holds a table for exactly the hosts
    with a reported index, each built by [Device(..).ports()] from all the
    indices reported for that host, in the order of the reports; whatever
    the search reports, no host gets a table of another host's indices. *)
Theorem one_table_per_reported_host value scans0 :
  let result :=
    fst (Search_find snapshot matches ReadAll (strip value) scans0) in
  let shown :=
    results_dict
      (index snapshot matches ReadAll ports [("search_term", value)] scans0) in
  ((forall h, reported h result = []) ->
   shown = {["Not Found" := "<h3>&nbsp;Please try again ...</h3>"]}) /\
  ((exists h, reported h result <> []) ->
   forall h, shown !! h = match reported h result with
                          | [] => None
                          | l => Some (ports h l)
                          end).
Proof.
  cbv zeta. unfold index. cbn [fold_left index_step].
  change (String.eqb "search_term" "search_term") with true. cbv iota.
  cbn [scans devices results_dict].
  destruct (Search_find snapshot matches ReadAll (strip value) scans0)
    as [result scans'].
  cbn [fst results_dict devices]. split.
  - intros Hnone. apply add_result_empty in Hnone. by case_decide.
  - intros [h0 Hh0] h. case_decide as Hempty.
    + exfalso. apply Hh0. by apply add_result_empty.
    + unfold port_tables. rewrite map_lookup_imap, add_result_lookup.
      rewrite lookup_empty. by destruct (reported h result).
Qed.

End Tables.

(** Two hosts are found, one of them through two interfaces: two tables,
    no placeholder. *)
Example tables_of_two_hosts :
  let matches := fun (snap : list Z) (_ : string) => snap in
  let ports := fun (h : string) (l : list Z) =>
    h +:+ ":" +:+ String.concat "," (map pretty l) in
  map_to_list
    (results_dict
       (index (list Z) matches [("sw2", [1]); ("sw1", [3; 7]); ("sw3", [])]
          ports [("search_term", " uplink ")] 0%nat))
  = [("sw1", "sw1:3,7"); ("sw2", "sw2:1")].
Proof. by vm_compute. Qed.

End SearchFacts.

(** ** The pre-check of the installer *)

Module PrecheckFacts.
Import Py Install Precheck.
Local Open Scope inst_scope.

Lemma ltb_first_character c s c' s' :
  (nat_of_ascii c < nat_of_ascii c')%nat ->
  String.ltb (String c s) (String c' s') = true.
Proof.
  intros Hc. unfold String.ltb. cbn [String.compare]. unfold Ascii.compare.
  assert (N_of_ascii c < N_of_ascii c')%N as Hlt.
  { unfold nat_of_ascii in Hc. lia. }
  by rewrite (proj2 (N.compare_lt_iff _ _) Hlt).
Qed.

Section WithHost.
Variable H : host.

(** X9: the version of pip3 is compared with [9.0.0] as text, character by
    character: whenever the second word of [pip3 --version] starts with a
    character below [9], as in 10.0.1 or 21.3, the modules are listed with
    [pip3 list | grep], the command meant for the versions before 9, and
    [--format columns] is not used. *)
Theorem pip_version_is_compared_as_text module history c rest :
  (forall h, returncode H h "which pip3" = 0) ->
  (forall h, nth_error (split (read H h "pip3 --version")) 1
             = Some (String c rest)) ->
  (nat_of_ascii c < nat_of_ascii "9")%nat ->
  exists e new,
    _pip3_install H module history = (e, new ++ history) /\
    In (Popen ("pip3 list | grep " +:+ module)) new /\
    ~ In (Popen ("pip3 list --format columns | grep " +:+ module)) new.
Proof.
  intros Hwhich Hversion Hc.
  assert (Popen ("pip3 list --format columns | grep " +:+ module)
          <> Popen ("pip3 list | grep " +:+ module)) as Hne.
  { intros Heq. vm_compute in Heq. discriminate Heq. }
  unfold _pip3_install, bind, run_script, popen_read, list_item, print_ok,
    log2die_safe.
  rewrite Hwhich. cbn [Z.eqb negb]. rewrite Hversion.
  rewrite (ltb_first_character c rest "9" ".0.0" Hc).
  match goal with
  | |- context [String.eqb ?r EmptyString] =>
      destruct (String.eqb r EmptyString)
  end.
  - match goal with
    | |- context [Z.eqb ?r 0] => destruct (Z.eqb r 0)
    end; cbn [negb]; eexists _, (_ :: _ :: _ :: _ :: _ :: _ :: []);
      (split; [reflexivity|]); cbn [In]; (split; [tauto|]);
      intros [Hin|[Hin|[Hin|[Hin|[Hin|[Hin|[]]]]]]]; try discriminate Hin;
      by apply Hne.
  - eexists _, (_ :: _ :: _ :: _ :: _ :: []);
      (split; [reflexivity|]); cbn [In]; (split; [tauto|]);
      intros [Hin|[Hin|[Hin|[Hin|[Hin|[]]]]]]; try discriminate Hin;
      by apply Hne.
Qed.

Lemma pip3_install_outcome module h :
  exists new,
    snd (_pip3_install H module h) = new ++ h /\
    (forall message, ~ In (Die 1095 message) new) /\
    (fst (_pip3_install H module h) = Returns tt ->
     existsb is_die new = false /\
     exists mid, new = PrintOk (installed_message module) :: mid).
Proof.
  unfold _pip3_install, bind, run_script, popen_read, list_item, print_ok,
    log2die_safe.
  destruct (returncode H h "which pip3" =? 0); cbn [negb].
  2: { eexists [_; _]. split; [reflexivity|]. split; [|done].
       intros message [Hin|[Hin|[]]]; discriminate Hin. }
  match goal with
  | |- context [nth_error ?l 1] => destruct (nth_error l 1) as [version|]
  end.
  2: { eexists [_; _; _]. split; [reflexivity|]. split; [|done].
       intros message [Hin|[Hin|[Hin|[]]]]; discriminate Hin. }
  destruct (String.ltb version "9.0.0");
    match goal with
    | |- context [String.eqb ?r EmptyString] =>
        destruct (String.eqb r EmptyString)
    end;
    try match goal with
      | |- context [Z.eqb ?r 0] => destruct (Z.eqb r 0)
      end; cbn [negb];
    first [ eexists [_; _; _; _; _; _]; split; [reflexivity|]
          | eexists [_; _; _; _; _]; split; [reflexivity|] ];
    (split;
     [ intros message Hin; cbn [In] in Hin;
       repeat destruct Hin as [Hin|Hin]; done
     | cbn [fst]; intros Hret;
       first [discriminate Hret|split; [reflexivity|by eexists]] ]).
Qed.

Lemma pip_outcome h :
  exists new,
    snd (_pip H h) = new ++ h /\
    (forall message, ~ In (Die 1095 message) new) /\
    (fst (_pip H h) = Returns tt ->
     existsb is_die new = false /\
     exists mid1 mid2,
       new = PrintOk (installed_message "PyYAML") :: mid2 ++
             PrintOk (installed_message "setuptools") :: mid1).
Proof.
  unfold _pip, for_each, bind, ret.
  destruct (pip3_install_outcome "setuptools" h) as (new1 & Hh1 & Hno1 & Hret1).
  destruct (_pip3_install H "setuptools" h) as [[[]| | |] h1];
    cbn [fst snd] in *; subst h1;
    try (exists new1; split; [done|]; split; [done|]; intros [=]).
  destruct (Hret1 eq_refl) as (Hdie1 & mid1 & ->).
  destruct (pip3_install_outcome "PyYAML"
              ((PrintOk (installed_message "setuptools") :: mid1) ++ h))
    as (new2 & Hh2 & Hno2 & Hret2).
  destruct (_pip3_install H "PyYAML" _) as [[[]| | |] h2];
    cbn [fst snd] in *; subst h2;
    (eexists (new2 ++ _); split; [by rewrite <- app_assoc|]);
    (split;
     [ intros message [Hin|Hin]%in_app_iff; [by eapply Hno2|by eapply Hno1]
     | intros Hret; try discriminate Hret ]).
  destruct (Hret2 eq_refl) as (Hdie2 & mid2 & ->).
  split; [by rewrite existsb_app, Hdie2, Hdie1|].
  by exists mid1, mid2.
Qed.

Lemma python_valid_iff :
  (if fst (version_info H) <? 3 then false
   else if (fst (version_info H) =? 3) && (snd (version_info H) <? 5)
        then false else true) = false <-> too_old H.
Proof.
  unfold too_old.
  destruct (Z.ltb_spec (fst (version_info H)) 3);
    destruct (Z.eqb_spec (fst (version_info H)) 3);
    destruct (Z.ltb_spec (snd (version_info H)) 5); cbn [andb];
    split; intros; try done; try lia; tauto.
Qed.

(** X10: [validate] ends the process with code 1095 exactly when the
    interpreter is older than 3.5, the version being compared as the pair
    of its major and minor numbers; and then the exit is all that
    happened: no command was run and pip3 was not looked at. *)
Theorem validate_exits_1095_iff_python_too_old history :
  exists new,
    snd (validate H history) = new ++ history /\
    ((exists message, In (Die 1095 message) new) <-> too_old H) /\
    (too_old H ->
     fst (validate H history) = Exits /\
     exists message, new = [Die 1095 message]).
Proof.
  unfold validate, bind, _python, print_ok, log2die_safe.
  pose proof python_valid_iff as Hvalid.
  match type of Hvalid with
  | (?b = false) <-> _ => destruct b
  end.
  - destruct (pip_outcome
                (PrintOk ("Python version " +:+ pretty (fst (version_info H))
                          +:+ "." +:+ pretty (snd (version_info H)) +:+ ".")
                   :: history)) as (new & Hh & Hno & _).
    exists (new ++ [PrintOk ("Python version "
                             +:+ pretty (fst (version_info H)) +:+ "."
                             +:+ pretty (snd (version_info H)) +:+ ".")]).
    split; [by rewrite <- app_assoc|]. split.
    + split.
      * intros (message & [Hin|[Hin|[]]]%in_app_iff);
          [by apply Hno in Hin|discriminate Hin].
      * intros Hold. by apply Hvalid in Hold.
    + intros Hold. by apply Hvalid in Hold.
  - eexists [_]. split; [reflexivity|]. split.
    + split; [intros _; by apply Hvalid|]. intros _. eexists. by left.
    + intros _. split; [done|by eexists].
Qed.

(** X11: [validate] returns only when the interpreter is not older than
    3.5 and both modules were reported as installed, [setuptools] before
    [PyYAML], the report of [PyYAML] being the last thing done; nothing
    fatal was logged on the way. *)
Theorem validate_returns_after_both_modules history history' :
  validate H history = (Returns tt, history') ->
  ~ too_old H /\
  exists new,
    history' = new ++ history /\
    existsb is_die new = false /\
    exists mid1 mid2,
      new = PrintOk (installed_message "PyYAML") :: mid2 ++
            PrintOk (installed_message "setuptools") :: mid1.
Proof.
  unfold validate, bind, _python, print_ok, log2die_safe.
  pose proof python_valid_iff as Hvalid.
  match type of Hvalid with
  | (?b = false) <-> _ => destruct b
  end; [|done].
  intros Hrun. split; [intros Hold; by apply Hvalid in Hold|].
  match type of Hrun with
  | _pip H ?h = _ => destruct (pip_outcome h) as (new & Hh & _ & Hret)
  end.
  rewrite Hrun in Hh, Hret. cbn [fst snd] in *.
  destruct (Hret eq_refl) as (Hdie & mid1 & mid2 & ->).
  eexists (_ ++ [_]). split; [by rewrite <- app_assoc|].
  split; [by rewrite existsb_app, Hdie|].
  exists (mid1 ++ [PrintOk ("Python version "
                            +:+ pretty (fst (version_info H)) +:+ "."
                            +:+ pretty (snd (version_info H)) +:+ ".")]), mid2.
  cbn [app]. rewrite <- app_assoc. done.
Qed.

End WithHost.

Lemma pip_version_is_compared_as_text_witness :
  (forall h, returncode (demo_host 5 "10.0.1" []) h "which pip3" = 0) /\
  (forall h, nth_error
               (split (read (demo_host 5 "10.0.1" []) h "pip3 --version")) 1
             = Some (String "1" "0.0.1")) /\
  (nat_of_ascii "1" < nat_of_ascii "9")%nat /\
  exists e new,
    _pip3_install (demo_host 5 "10.0.1" []) "PyYAML" [] = (e, new ++ []) /\
    In (Popen ("pip3 list | grep " +:+ "PyYAML")) new /\
    ~ In (Popen ("pip3 list --format columns | grep " +:+ "PyYAML")) new.
Proof.
  split; [reflexivity|]. split; [reflexivity|].
  split; [vm_compute; lia|].
  apply (pip_version_is_compared_as_text (demo_host 5 "10.0.1" []) "PyYAML" []
           "1" "0.0.1");
    [reflexivity|reflexivity|vm_compute; lia].
Defined.

Lemma validate_returns_after_both_modules_witness :
  validate (demo_host 5 "9.0.1" ["setuptools"]) []
  = (Returns tt, snd (validate (demo_host 5 "9.0.1" ["setuptools"]) [])) /\
  ~ too_old (demo_host 5 "9.0.1" ["setuptools"]) /\
  exists new,
    snd (validate (demo_host 5 "9.0.1" ["setuptools"]) []) = new ++ [] /\
    existsb is_die new = false /\
    exists mid1 mid2,
      new = PrintOk (installed_message "PyYAML") :: mid2 ++
            PrintOk (installed_message "setuptools") :: mid1.
Proof.
  split; [reflexivity|].
  apply (validate_returns_after_both_modules
           (demo_host 5 "9.0.1" ["setuptools"]) []).
  reflexivity.
Defined.

(** Python 3.4: the process exits before pip3 is looked for. *)
Example validate_on_python_3_4 :
  validate (demo_host 4 "9.0.1" []) []
  = (Exits,
     [Die 1095
        "Required python version must be >= 3.5. Python version 3.4 installed"]).
Proof. reflexivity. Qed.

End PrecheckFacts.

(** ** The start of the daemons *)

Module DaemonsFacts.
Import Py Precheck Daemons.
Local Open Scope inst_scope.

(** Only [n] and [N] are [n] in lower case. *)
Lemma lower_is_n c :
  Ascii.eqb (lower c) "n" = true <-> c = "n"%char \/ c = "N"%char.
Proof.
  destruct c as [[] [] [] [] [] [] [] []]; vm_compute;
    (split;
     [ intros H; first [discriminate H|by left|by right]
     | intros [H|H]; first [discriminate H|reflexivity] ]).
Qed.

Section WithMachine.
Variable Mc : machine.

(** The turn of a daemon returns, unless the daemon runs and the input is
    at its end when the question is asked: then [EOFError] escapes and the
    question is all that happened.  The commands of the turn are the two
    of the daemon, and nothing in it is fatal. *)
Lemma start_daemon_outcome daemon h :
  exists new,
    snd (start_daemon Mc daemon h) = new ++ h /\
    (forall cli, In (Script cli) new ->
       cli = script_name Mc daemon false \/ cli = script_name Mc daemon true) /\
    existsb is_die new = false /\
    (fst (start_daemon Mc daemon h) = Returns tt \/
     (fst (start_daemon Mc daemon h) = EOFError /\
      pid_file_exists Mc h daemon = true /\
      typed Mc h (restart_prompt daemon) = None /\
      new = [Input (restart_prompt daemon)])).
Proof.
  unfold start_daemon, restart_and_report, _restart, _start, bind, _running,
    input, run_script, log2see_safe, print_ok, ret.
  repeat (cbv beta iota; cbn [negb];
          match goal with
          | |- context [pid_file_exists Mc ?x ?y] =>
              destruct (pid_file_exists Mc x y) eqn:?
          | |- context [typed Mc ?x ?y] =>
              destruct (typed Mc x y) as [[|? ?]|] eqn:?
          | |- context [Ascii.eqb ?x ?y] => destruct (Ascii.eqb x y) eqn:?
          | |- context [Z.eqb ?x ?y] => destruct (Z.eqb x y) eqn:?
          end);
    cbv beta iota; cbn [negb fst snd];
    first [ eexists [_] ; split; [reflexivity|]
          | eexists [_; _] ; split; [reflexivity|]
          | eexists [_; _; _] ; split; [reflexivity|]
          | eexists [_; _; _; _] ; split; [reflexivity|] ];
    (split;
     [ intros cli Hin; cbn [In] in Hin;
       repeat destruct Hin as [Hin|Hin]; try discriminate Hin; try done;
       injection Hin as <-; auto
     | split; [reflexivity|first [by left|by right]] ]).
Qed.

(** X17: the answer to the question about a daemon that runs.  An answer
    that starts with [n] or [N] leaves the daemon alone: no command is run
    and nothing is logged as failed.  Every other answer, the empty one
    included, runs the restart command of the daemon, and no other
    command. *)
Theorem restart_unless_declined daemon history answer :
  pid_file_exists Mc history daemon = true ->
  typed Mc history (restart_prompt daemon) = Some answer ->
  (declines answer ->
   start_daemon Mc daemon history
   = (Returns tt,
      PrintOk ("Leaving daemon " +:+ daemon +:+ " unchanged.")
        :: Input (restart_prompt daemon) :: history)) /\
  (~ declines answer ->
   exists new,
     start_daemon Mc daemon history
     = (Returns tt,
        new ++ Script (script_name Mc daemon true)
          :: Input (restart_prompt daemon) :: history) /\
     forall cli, ~ In (Script cli) new).
Proof.
  intros Hpid Hans. unfold start_daemon, bind, _running, input.
  rewrite Hpid. cbv beta iota. rewrite Hans. cbv beta iota.
  split.
  - intros [rest [-> | ->]]; reflexivity.
  - intros Hno.
    assert (forall h,
               exists new,
                 (let (e, history') := restart_and_report Mc daemon h in
                  match e with
                  | Returns a =>
                      (if negb a
                       then log2see_safe 1001
                              ("Failed to start daemon " +:+ daemon +:+ ".")
                       else ret tt) history'
                  | Exits => (Exits, history')
                  | IndexError => (IndexError, history')
                  | EOFError => (EOFError, history')
                  end)
                 = (Returns tt, new ++ Script (script_name Mc daemon true) :: h)
                 /\ forall cli, ~ In (Script cli) new) as Hrestart.
    { intros h.
      unfold restart_and_report, _restart, _start, bind, _running, run_script,
        log2see_safe, print_ok, ret.
      repeat (cbv beta iota; cbn [negb];
              match goal with
              | |- context [pid_file_exists Mc ?x ?y] =>
                  destruct (pid_file_exists Mc x y) eqn:?
              | |- context [Z.eqb ?x ?y] => destruct (Z.eqb x y) eqn:?
              end);
        cbv beta iota; cbn [negb];
        first [ eexists [_] ; split; [reflexivity|]
              | eexists [_; _] ; split; [reflexivity|] ];
        intros cli Hin; cbn [In] in Hin;
        repeat destruct Hin as [Hin|Hin]; try discriminate Hin; done. }
    destruct answer as [|c rest].
    + apply Hrestart.
    + destruct (Ascii.eqb (lower c) "n") eqn:Hc.
      { exfalso. apply Hno. exists rest.
        apply lower_is_n in Hc as [-> | ->]; [by left|by right]. }
      apply Hrestart.
Qed.

(** What [start] does in all: it ends by returning or with the [EOFError]
    of a question that found the input at its end; nothing in it is fatal
    and its commands are those of the two daemons. *)
Lemma start_outcome history :
  exists new,
    snd (start Mc history) = new ++ history /\
    existsb is_die new = false /\
    (forall cli, In (Script cli) new ->
       In cli [script_name Mc "switchmap-ng-api" false;
               script_name Mc "switchmap-ng-api" true;
               script_name Mc "switchmap-ng-poller" false;
               script_name Mc "switchmap-ng-poller" true]) /\
    (fst (start Mc history) = Returns tt \/
     (fst (start Mc history) = EOFError /\
      exists daemon rest h,
        In daemon ["switchmap-ng-api"; "switchmap-ng-poller"] /\
        new = Input (restart_prompt daemon) :: rest /\
        pid_file_exists Mc h daemon = true /\
        typed Mc h (restart_prompt daemon) = None)).
Proof.
  unfold start, for_each, bind, ret.
  destruct (start_daemon_outcome "switchmap-ng-api" history)
    as (new1 & Hs1 & Hcli1 & Hdie1 & Hend1).
  destruct (start_daemon Mc "switchmap-ng-api" history) as [e1 h1].
  cbn [fst snd] in *. subst h1.
  destruct Hend1 as [-> | (-> & Hpid & Hnone & ->)].
  - destruct (start_daemon_outcome "switchmap-ng-poller" (new1 ++ history))
      as (new2 & Hs2 & Hcli2 & Hdie2 & Hend2).
    destruct (start_daemon Mc "switchmap-ng-poller" (new1 ++ history))
      as [e2 h2].
    cbn [fst snd] in *. subst h2.
    assert (forall cli, In (Script cli) (new2 ++ new1) ->
              In cli [script_name Mc "switchmap-ng-api" false;
                      script_name Mc "switchmap-ng-api" true;
                      script_name Mc "switchmap-ng-poller" false;
                      script_name Mc "switchmap-ng-poller" true]) as Hcli.
    { intros cli [Hin|Hin]%in_app_iff;
        [apply Hcli2 in Hin|apply Hcli1 in Hin];
        destruct Hin as [-> | ->]; cbn [In]; tauto. }
    exists (new2 ++ new1).
    destruct Hend2 as [-> | (-> & Hpid & Hnone & ->)]; cbn [fst snd].
    + split; [by rewrite <- app_assoc|].
      split; [by rewrite existsb_app, Hdie2, Hdie1|].
      split; [exact Hcli|]. by left.
    + split; [by rewrite <- app_assoc|].
      split; [by rewrite existsb_app, Hdie1|].
      split; [exact Hcli|]. right. split; [done|].
      exists "switchmap-ng-poller", new1, (new1 ++ history).
      split; [right; by left|]. by split.
  - exists [Input (restart_prompt "switchmap-ng-api")].
    split; [done|]. split; [done|].
    split; [intros cli [Hin|[]]; discriminate Hin|].
    right. split; [done|].
    exists "switchmap-ng-api", [], history. split; [by left|]. by split.
Qed.

(** X18: [start] logs nothing fatal and ends in one of two ways: it
    returns, a daemon that does not come up being only logged, or
    [EOFError] escapes from the question about a daemon that runs, asked
    when the input is at its end; that question is then the last thing
    done.  It returns whenever every question gets an answer.  The
    commands it runs are start and restart commands of the two daemons:
    for [root] they all go through [systemctl], for any other user they
    are all the scripts of the daemons under the root directory, never
    [systemctl]. *)
Theorem start_ends_by_returning_or_end_of_input history :
  exists new,
    snd (start Mc history) = new ++ history /\
    existsb is_die new = false /\
    (fst (start Mc history) = Returns tt \/
     fst (start Mc history) = EOFError) /\
    (fst (start Mc history) = EOFError ->
     exists daemon rest h,
       In daemon ["switchmap-ng-api"; "switchmap-ng-poller"] /\
       new = Input (restart_prompt daemon) :: rest /\
       pid_file_exists Mc h daemon = true /\
       typed Mc h (restart_prompt daemon) = None) /\
    ((forall h prompt, typed Mc h prompt <> None) ->
     fst (start Mc history) = Returns tt) /\
    (username Mc = "root" ->
     forall cli, In (Script cli) new ->
       In cli ["/bin/systemctl start switchmap-ng-api.service";
               "/bin/systemctl restart switchmap-ng-api.service";
               "/bin/systemctl start switchmap-ng-poller.service";
               "/bin/systemctl restart switchmap-ng-poller.service"]) /\
    (username Mc <> "root" ->
     forall cli, In (Script cli) new ->
       In cli [root_directory Mc +:+ "/bin/switchmap-ng-api --start";
               root_directory Mc +:+ "/bin/switchmap-ng-api --restart --force";
               root_directory Mc +:+ "/bin/switchmap-ng-poller --start";
               root_directory Mc
                 +:+ "/bin/switchmap-ng-poller --restart --force"]).
Proof.
  destruct (start_outcome history) as (new & Hs & Hdie & Hcli & Hend).
  exists new. split; [done|]. split; [done|].
  split; [destruct Hend as [?|[? _]]; [by left|by right]|].
  split; [|split; [|split]].
  - intros Heof. destruct Hend as [Hret|[_ Hwhy]]; [congruence|done].
  - intros Hanswers. destruct Hend as [Hret|[_ Hwhy]]; [done|].
    destruct Hwhy as (daemon & rest & h & _ & _ & _ & Hnone).
    by destruct (Hanswers h (restart_prompt daemon)).
  - intros Hroot cli Hin. apply Hcli in Hin. unfold script_name in Hin.
    rewrite Hroot in Hin. exact Hin.
  - intros Hroot%String.eqb_neq cli Hin. apply Hcli in Hin.
    unfold script_name in Hin. rewrite Hroot in Hin. exact Hin.
Qed.

(** X19: whether a daemon counts as started is decided by its PID file
    alone.  For a daemon that does not run, the turn runs the start
    command, logs 1012 when the command fails, and then reports success
    exactly when the PID file is there, failure (1001) exactly when it is
    not: the return code of the command has no part in the verdict. *)
Theorem started_means_pid_file daemon history :
  pid_file_exists Mc history daemon = false ->
  let cli := script_name Mc daemon false in
  let after :=
    if returncode (shell Mc) history cli =? 0
    then Script cli :: history
    else See 1012 ("Could not start daemon " +:+ daemon +:+ ".")
           :: Script cli :: history in
  start_daemon Mc daemon history
  = (Returns tt,
     (if pid_file_exists Mc after daemon
      then PrintOk ("Successfully started daemon " +:+ daemon +:+ ".")
      else See 1001 ("Failed to start daemon " +:+ daemon +:+ "."))
       :: after).
Proof.
  intros Hpid. cbv zeta.
  unfold start_daemon, _start, bind, _running, run_script, log2see_safe,
    print_ok, ret.
  rewrite Hpid. cbv beta iota.
  destruct (returncode (shell Mc) history (script_name Mc daemon false) =? 0);
    cbn [negb]; cbv beta iota.
  - match goal with
    | |- context [pid_file_exists Mc ?h daemon] =>
        destruct (pid_file_exists Mc h daemon)
    end; reflexivity.
  - change ("Could not " +:+ "start" +:+ " daemon " +:+ daemon +:+ ".")
      with ("Could not start daemon " +:+ daemon +:+ ".").
    match goal with
    | |- context [pid_file_exists Mc ?h daemon] =>
        destruct (pid_file_exists Mc h daemon)
    end; reflexivity.
Qed.

End WithMachine.

Lemma restart_unless_declined_witness :
  pid_file_exists (demo_machine "switchmap" 0 (fun _ _ => true) "No") []
    "switchmap-ng-api" = true /\
  typed (demo_machine "switchmap" 0 (fun _ _ => true) "No") []
    (restart_prompt "switchmap-ng-api") = Some "No" /\
  (declines "No" ->
   start_daemon (demo_machine "switchmap" 0 (fun _ _ => true) "No")
     "switchmap-ng-api" []
   = (Returns tt,
      [PrintOk ("Leaving daemon " +:+ "switchmap-ng-api" +:+ " unchanged.");
       Input (restart_prompt "switchmap-ng-api")])) /\
  (~ declines "No" ->
   exists new,
     start_daemon (demo_machine "switchmap" 0 (fun _ _ => true) "No")
       "switchmap-ng-api" []
     = (Returns tt,
        new ++ [Script (script_name
                          (demo_machine "switchmap" 0 (fun _ _ => true) "No")
                          "switchmap-ng-api" true);
                Input (restart_prompt "switchmap-ng-api")]) /\
     forall cli, ~ In (Script cli) new).
Proof.
  split; [reflexivity|]. split; [reflexivity|].
  apply (restart_unless_declined
           (demo_machine "switchmap" 0 (fun _ _ => true) "No")
           "switchmap-ng-api" [] "No");
    reflexivity.
Defined.

Lemma started_means_pid_file_witness :
  pid_file_exists (demo_machine "switchmap" 1 pid_after_script EmptyString) []
    "switchmap-ng-api" = false /\
  start_daemon (demo_machine "switchmap" 1 pid_after_script EmptyString)
    "switchmap-ng-api" []
  = (Returns tt,
     [PrintOk "Successfully started daemon switchmap-ng-api.";
      See 1012 "Could not start daemon switchmap-ng-api.";
      Script "/opt/switchmap-ng/bin/switchmap-ng-api --start"]).
Proof.
  split; [reflexivity|].
  exact (started_means_pid_file
           (demo_machine "switchmap" 1 pid_after_script EmptyString)
           "switchmap-ng-api" [] eq_refl).
Defined.

(** The user declines for both daemons: no command is run. *)
Example both_daemons_left_alone :
  start (demo_machine "root" 0 (fun _ _ => true) "n") []
  = (Returns tt,
     [PrintOk "Leaving daemon switchmap-ng-poller unchanged.";
      Input (restart_prompt "switchmap-ng-poller");
      PrintOk "Leaving daemon switchmap-ng-api unchanged.";
      Input (restart_prompt "switchmap-ng-api")]).
Proof. reflexivity. Qed.

(** The api daemon runs and nobody is there to answer: the question ends
    [start], and the poller daemon is not looked at. *)
Example unattended_restart_ends_start :
  start (unattended (demo_machine "root" 0 (fun _ _ => true) "n")) []
  = (EOFError, [Input (restart_prompt "switchmap-ng-api")]).
Proof. reflexivity. Qed.

End DaemonsFacts.
